(** * VFM used-car finder: crawl, progress channel, orchestrator and
    data pipeline

    A shallow embedding of [main.py] and [app.py].  Python floats are the
    kernel's binary64 floats; Python's [int] is [Z]; [str] is a string of
    UTF-8 bytes; a pandas frame is a list of rows, each a finite map from
    column names to cells; files, the browser and the child process are
    explicit state with scripted faults. *)

From Stdlib Require Import ZArith Floats Lia Ascii.
From stdpp Require Import gmap strings list pretty sorting.

Local Open Scope Z_scope.

(** * Exceptions and results *)

(** The subclasses of Python's [Exception] that the modelled code can meet. *)
Inductive exn :=
| ZeroDivisionError
| OverflowError
| ValueError (msg : string)
| TypeError
| KeyError (key : string)
| AttributeError
| OSError
| FileNotFoundError
| PermissionError
| TimeoutError
| JSONDecodeError.

Inductive outcome (A : Type) :=
| Ok (a : A)
| Raise (e : exn).
Arguments Ok {A} a.
Arguments Raise {A} e.

Definition obind {A B} (x : outcome A) (f : A → outcome B) : outcome B :=
  match x with Ok a => f a | Raise e => Raise e end.

Definition omap_ok {A B} (f : A → B) (x : outcome A) : outcome B :=
  match x with Ok a => Ok (f a) | Raise e => Raise e end.

Fixpoint omapM {A B} (f : A → outcome B) (l : list A) : outcome (list B) :=
  match l with
  | [] => Ok []
  | a :: l' => obind (f a) (λ b, obind (omapM f l') (λ bs, Ok (b :: bs)))
  end.

(** * Python numbers *)

Module PyFloat.

(** An integer as an (unnormalised) binary float with exponent 0: exact. *)
Definition SZ (z : Z) : spec_float :=
  match z with
  | Z0 => S754_zero false
  | Zpos p => S754_finite false p 0
  | Zneg p => S754_finite true p 0
  end.

(** Integer literals of the source that meet a float ([100 *], [< -1], ...). *)
Definition lit (z : Z) : float := SF2Prim (binary_normalize prec emax z 0 false).

(** [a / b] on two [int]s: the correctly rounded quotient. *)
Definition true_div (a b : Z) : outcome float :=
  if b =? 0 then Raise ZeroDivisionError
  else match SFdiv prec emax (SZ a) (SZ b) with
       | S754_infinity _ => Raise OverflowError
       | q => Ok (SF2Prim q)
       end.

(** [int(x)] on a float: truncation towards zero. *)
Definition to_int (x : float) : outcome Z :=
  match Prim2SF x with
  | S754_zero _ => Ok 0
  | S754_finite s m e =>
      let a := if 0 <=? e then Z.shiftl (Zpos m) e else Z.shiftr (Zpos m) (- e) in
      Ok (if s then - a else a)
  | S754_infinity _ => Raise OverflowError
  | S754_nan => Raise (ValueError "cannot convert float NaN to integer")
  end.

End PyFloat.

(** * Python strings *)

Module PyStr.

(** The one-byte characters of [str.isspace]. *)
Definition is_space1 (c : ascii) : bool :=
  let n := nat_of_ascii c in
  ((9 <=? n) && (n <=? 13) || (28 <=? n) && (n <=? 32))%nat.

(** Length in bytes of the white-space character a string starts with, if
    any.  The characters beyond ASCII are U+0085, U+00A0, U+1680,
    U+2000..U+200A, U+2028, U+2029, U+202F, U+205F and U+3000 in UTF-8. *)
Definition space_prefix (s : string) : option nat :=
  match s with
  | String c r =>
      if is_space1 c then Some 1%nat
      else match nat_of_ascii c, r with
           | 194%nat, String d _ =>
               let n := nat_of_ascii d in
               if ((n =? 133) || (n =? 160))%nat then Some 2%nat else None
           | 225%nat, String d (String e _) =>
               if ((nat_of_ascii d =? 154) && (nat_of_ascii e =? 128))%nat
               then Some 3%nat else None
           | 226%nat, String d (String e _) =>
               let n := nat_of_ascii e in
               match nat_of_ascii d with
               | 128%nat =>
                   if ((128 <=? n) && (n <=? 138) || (n =? 168) || (n =? 169)
                       || (n =? 175))%nat
                   then Some 3%nat else None
               | 129%nat => if (n =? 159)%nat then Some 3%nat else None
               | _ => None
               end
           | 227%nat, String d (String e _) =>
               if ((nat_of_ascii d =? 128) && (nat_of_ascii e =? 128))%nat
               then Some 3%nat else None
           | _, _ => None
           end
  | EmptyString => None
  end.

Fixpoint drop_bytes (n : nat) (s : string) : string :=
  match n, s with
  | S k, String _ r => drop_bytes k r
  | _, _ => s
  end.

Fixpoint lstrip_fuel (fuel : nat) (s : string) : string :=
  match fuel with
  | O => s
  | S k => match space_prefix s with
           | Some n => lstrip_fuel k (drop_bytes n s)
           | None => s
           end
  end.

Definition lstrip (s : string) : string := lstrip_fuel (String.length s) s.

(** The same white-space characters, read from the end of the string: the
    argument is the string reversed byte by byte. *)
Definition space_suffix_rev (r : string) : option nat :=
  match r with
  | String c t =>
      if is_space1 c then Some 1%nat
      else match t with
           | String d u =>
               if bool_decide (space_prefix (String d (String c EmptyString))
                               = Some 2%nat)
               then Some 2%nat
               else match u with
                    | String e _ =>
                        if bool_decide
                             (space_prefix
                                (String e (String d (String c EmptyString)))
                              = Some 3%nat)
                        then Some 3%nat else None
                    | EmptyString => None
                    end
           | EmptyString => None
           end
  | EmptyString => None
  end.

Fixpoint rstrip_rev_fuel (fuel : nat) (r : string) : string :=
  match fuel with
  | O => r
  | S k => match space_suffix_rev r with
           | Some n => rstrip_rev_fuel k (drop_bytes n r)
           | None => r
           end
  end.

Definition rstrip (s : string) : string :=
  String.rev (rstrip_rev_fuel (String.length s) (String.rev s)).

(** [s.strip()] *)
Definition strip (s : string) : string := rstrip (lstrip s).

(** [s.replace(old, "")] for a non-empty [old]: the occurrences are found
    from the left and do not overlap. *)
Fixpoint remove_go (old : string) (skip : nat) (s : string) : string :=
  match s with
  | EmptyString => EmptyString
  | String c r =>
      match skip with
      | S k => remove_go old k r
      | O => if String.prefix old s
             then remove_go old (String.length old - 1) r
             else String c (remove_go old O r)
      end
  end.

Definition remove (old s : string) : string :=
  if decide (old = "") then s else remove_go old O s.

(** [s.startswith(p)] *)
Definition startswith (p s : string) : bool := String.prefix p s.

End PyStr.


(** * Data frames *)

Module Frame.

(** A [Timestamp], as far as the pipeline reads it. *)
Record date := mkdate { year : Z; month : Z; day : Z }.

(** A cell.  [VNull] stands for [None], [NaN] and [NaT]; integer cells are
    the exact integers pandas holds in an integer column, or in a float
    column when some entry is missing. *)
Inductive value :=
| VNull
| VStr (s : string)
| VInt (n : Z)
| VFloat (x : float)
| VDate (d : date).

(** [pd.isnull] *)
Definition is_null (v : value) : bool :=
  match v with
  | VNull => true
  | VFloat x => PrimFloat.is_nan x
  | _ => false
  end.

(** A frame: its column labels and its rows in order.  Row labels are not
    modelled: every series the pipeline combines is taken from the frame
    it is assigned to, so that alignment by label is alignment by
    position. *)
Record DataFrame := mkframe {
  columns : list string;
  rows : list (gmap string value)
}.

(** [pd.DataFrame()] *)
Definition empty_frame : DataFrame := mkframe [] [].

(** [df.empty] *)
Definition empty (d : DataFrame) : bool :=
  match columns d, rows d with
  | [], _ | _, [] => true
  | _, _ => false
  end.

Definition has_column (c : string) (d : DataFrame) : bool :=
  bool_decide (c ∈ columns d).

Definition cell (c : string) (r : gmap string value) : value :=
  default VNull (r !! c).

(** [row[c]] inside [apply(..., axis=1)] *)
Definition row_get (c : string) (r : gmap string value) : outcome value :=
  match r !! c with
  | Some v => Ok v
  | None => Raise (KeyError c)
  end.

(** [df[c]] read as a series *)
Definition col (c : string) (d : DataFrame) : outcome (list value) :=
  if has_column c d then Ok (map (cell c) (rows d)) else Raise (KeyError c).

(** [df[c] = series] *)
Definition setcol (c : string) (vs : list value) (d : DataFrame)
  : outcome DataFrame :=
  if bool_decide (length vs = length (rows d)) then
    Ok (mkframe (if has_column c d then columns d else columns d ++ [c])
                (zip_with (λ r v, <[c := v]> r) (rows d) vs))
  else Raise (ValueError "Length of values does not match length of index").

(** [df[mask]] for a boolean series *)
Definition select (mask : list bool) (d : DataFrame) : outcome DataFrame :=
  if bool_decide (length mask = length (rows d)) then
    Ok (mkframe (columns d) (map fst (List.filter snd (zip (rows d) mask))))
  else Raise (ValueError "Item wrong length").

(** [df.dropna(subset=[c])] *)
Definition dropna (c : string) (d : DataFrame) : outcome DataFrame :=
  if has_column c d then
    Ok (mkframe (columns d)
                (List.filter (λ r, negb (is_null (cell c r))) (rows d)))
  else Raise (KeyError c).

(** Equality of cells as keys: missing values are equal to each other. *)
Definition key_eqb (a b : value) : bool :=
  match a, b with
  | VStr s, VStr t => bool_decide (s = t)
  | VInt m, VInt n => m =? n
  | VFloat x, VFloat y => (PrimFloat.eqb x y || PrimFloat.is_nan x && PrimFloat.is_nan y)%bool
  | VInt m, VFloat y | VFloat y, VInt m => PrimFloat.eqb (PyFloat.lit m) y
  | VDate d, VDate e =>
      (year d =? year e) && (month d =? month e) && (day d =? day e)
  | _, _ => is_null a && is_null b
  end.

Fixpoint dedup_rows (c : string) (seen : list value)
    (l : list (gmap string value)) : list (gmap string value) :=
  match l with
  | [] => []
  | r :: l' =>
      if existsb (key_eqb (cell c r)) seen then dedup_rows c seen l'
      else r :: dedup_rows c (cell c r :: seen) l'
  end.

(** [df.drop_duplicates(subset=c)]: the first row of each key is kept. *)
Definition drop_duplicates (c : string) (d : DataFrame) : outcome DataFrame :=
  if has_column c d then Ok (mkframe (columns d) (dedup_rows c [] (rows d)))
  else Raise (KeyError c).

(** [df.reset_index(drop=True)]: a new frame with the same cells. *)
Definition reset_index (d : DataFrame) : outcome DataFrame := Ok d.

(** Column labels after [merge]: a label on both sides, other than the
    key, takes the suffix of its side. *)
Definition suffixed (sfx : string) (key : string) (other : list string)
    (c : string) : string :=
  if bool_decide (c ≠ key ∧ c ∈ other) then c +:+ sfx else c.

Definition rename_row (f : string → string) (cs : list string)
    (r : gmap string value) : gmap string value :=
  list_to_map (map (λ c, (f c, cell c r)) cs).

(** [left.merge(right, on=key, how="left")] *)
Definition merge_left (key : string) (left right : DataFrame)
  : outcome DataFrame :=
  if negb (has_column key left && has_column key right) then Raise (KeyError key)
  else
    let fl := suffixed "_x" key (columns right) in
    let fr := suffixed "_y" key (columns left) in
    let rcols := List.filter (λ c, negb (bool_decide (c = key))) (columns right) in
    let cols := map fl (columns left) ++ map fr rcols in
    if bool_decide (NoDup cols) then
      let join (l : gmap string value) : list (gmap string value) :=
        let lrow := rename_row fl (columns left) l in
        match List.filter (λ r, key_eqb (cell key l) (cell key r)) (rows right) with
        | [] => [lrow ∪ list_to_map (map (λ c, (fr c, VNull)) rcols)]
        | ms => map (λ r, lrow ∪ list_to_map (map (λ c, (fr c, cell c r)) rcols)) ms
        end in
      Ok (mkframe cols (concat (map join (rows left))))
    else Raise (ValueError "MergeError: duplicate columns").

(** [df.apply(f, axis=1)] *)
Definition apply_rows (f : gmap string value → outcome value) (d : DataFrame)
  : outcome (list value) :=
  omapM f (rows d).

(** A numeric cell read as a float; a missing one is [None]. *)
Definition num (v : value) : outcome (option float) :=
  match v with
  | VNull => Ok None
  | VInt n => Ok (Some (PyFloat.lit n))
  | VFloat x => Ok (Some x)
  | VStr _ | VDate _ => Raise TypeError
  end.

(** Element-wise float arithmetic of two cells; missing values propagate. *)
Definition arith (op : float → float → float) (a b : value) : outcome value :=
  obind (num a) (λ x, obind (num b) (λ y,
    match x, y with
    | Some x, Some y => Ok (VFloat (op x y))
    | _, _ => Ok VNull
    end)).

(** [s1 op s2] on two series of the same frame *)
Definition arith_series (op : float → float → float) (s1 s2 : list value)
  : outcome (list value) :=
  omapM (λ p, arith op p.1 p.2) (zip s1 s2).

(** [k op s] for an integer literal [k] *)
Definition arith_lit_l (op : float → float → float) (k : Z) (s : list value)
  : outcome (list value) :=
  omapM (arith op (VFloat (PyFloat.lit k))) s.

(** [s.replace(0, np.nan)] *)
Definition replace_zero (v : value) : value :=
  match v with
  | VInt 0 => VNull
  | VFloat x => if PrimFloat.eqb x PrimFloat.zero then VNull else v
  | _ => v
  end.

End Frame.

(** * The interpreter state: files, faults, journal and objects *)

Module Py.

Inductive fs_op :=
| OpOpen (path : string)
| OpWrite (path chunk : string)
| OpReplace (src dst : string)
| OpRemove (path : string).

(** What the outside can observe, in order: every change of the file
    system with the file system after it, the lines on standard error,
    standard output and the UI, the pages the browser is sent to, and the
    status line of the progress bar. *)
Inductive event :=
| EvFs (op : fs_op) (after : gmap string string)
| EvStderr (line : string)
| EvStdout (line : string)
| EvGoto (url : string)
| EvStatus (done total : Z)
| EvUi (kind text : string).

(** [faults] scripts the system calls to come: each call takes the head,
    and raises when it holds an exception.  [heap] holds the frames; a
    Python variable holds an index into it. *)
Record world := mkworld {
  files : gmap string string;
  faults : list (option exn);
  journal : list event;
  heap : list Frame.DataFrame
}.

Definition Py (A : Type) : Type := world → outcome A * world.

Definition ret {A} (a : A) : Py A := λ w, (Ok a, w).

Definition raise {A} (e : exn) : Py A := λ w, (Raise e, w).

Definition bind {A B} (m : Py A) (k : A → Py B) : Py B :=
  λ w, match m w with
       | (Ok a, w') => k a w'
       | (Raise e, w') => (Raise e, w')
       end.

Definition lift {A} (x : outcome A) : Py A := λ w, (x, w).

(** [try: body  except Exception as e: handler(e)] *)
Definition try_except {A} (body : Py A) (handler : exn → Py A) : Py A :=
  λ w, match body w with
       | (Ok a, w') => (Ok a, w')
       | (Raise e, w') => handler e w'
       end.

Definition emit (ev : event) : Py unit :=
  λ w, (Ok tt, mkworld (files w) (faults w) (journal w ++ [ev]) (heap w)).

Definition syscall : Py unit :=
  λ w, match faults w with
       | Some e :: fs => (Raise e, mkworld (files w) fs (journal w) (heap w))
       | None :: fs => (Ok tt, mkworld (files w) fs (journal w) (heap w))
       | [] => (Ok tt, w)
       end.

Definition set_files (op : fs_op) (f : gmap string string) : Py unit :=
  λ w, (Ok tt, mkworld f (faults w) (journal w ++ [EvFs op f]) (heap w)).

Definition get_files : Py (gmap string string) := λ w, (Ok (files w), w).

(** Objects.  An index past the end of the heap names no object; the code
    only ever holds indices it was given or has allocated. *)
Definition alloc (d : Frame.DataFrame) : Py nat :=
  λ w, (Ok (length (heap w)),
        mkworld (files w) (faults w) (journal w) (heap w ++ [d])).

Definition deref (r : nat) : Py Frame.DataFrame :=
  λ w, match heap w !! r with
       | Some d => (Ok d, w)
       | None => (Raise (ValueError "no such object"), w)
       end.

Definition store (r : nat) (d : Frame.DataFrame) : Py unit :=
  λ w, (Ok tt, mkworld (files w) (faults w) (journal w) (<[r := d]> (heap w))).

End Py.

Notation "'let*' x ':=' m 'in' k" := (Py.bind m (λ x, k))
  (at level 10, x name, m at level 100, k at level 200, only parsing).
Notation "m ';;' k" := (Py.bind m (λ _, k))
  (at level 100, k at level 200, right associativity, only parsing).

Module PyIO.
Import Py.

(** [open(path, "w")]: the file is created or truncated. *)
Definition open_w (path : string) : Py unit :=
  syscall ;;
  let* f := get_files in
  set_files (OpOpen path) (<[path := ""]> f).

(** [f.write(chunk)]; the model lets every write reach the file at once,
    the most a reader of that file could see. *)
Definition write (path chunk : string) : Py unit :=
  syscall ;;
  let* f := get_files in
  set_files (OpWrite path chunk) (<[path := default "" (f !! path) +:+ chunk]> f).

(** Closing flushes, which can fail. *)
Definition close (path : string) : Py unit := syscall.

(** [with open(path, "w") as f: body]: the file is closed on every way out. *)
Definition with_open_w {A} (path : string) (body : Py A) : Py A :=
  open_w path ;;
  λ w, match body w with
       | (r, w1) =>
           match close path w1 with
           | (Raise e, w2) => (Raise e, w2)
           | (Ok _, w2) => (r, w2)
           end
       end.

(** [os.replace(src, dst)]: one step of the file system. *)
Definition os_replace (src dst : string) : Py unit :=
  syscall ;;
  let* f := get_files in
  match f !! src with
  | Some c => set_files (OpReplace src dst) (<[dst := c]> (delete src f))
  | None => raise OSError
  end.

(** [os.path.exists(path)] *)
Definition os_path_exists (path : string) : Py bool :=
  let* f := get_files in ret (bool_decide (is_Some (f !! path))).

(** [os.remove(path)] *)
Definition os_remove (path : string) : Py unit :=
  syscall ;;
  let* f := get_files in
  match f !! path with
  | Some _ => set_files (OpRemove path) (delete path f)
  | None => raise OSError
  end.

(** [open(path, "r")] followed by reading the whole file. *)
Definition read_file (path : string) : Py string :=
  syscall ;;
  let* f := get_files in
  match f !! path with
  | Some c => ret c
  | None => raise FileNotFoundError
  end.

(** [print(line, file=sys.stderr)] *)
Definition print_stderr (line : string) : Py unit := emit (EvStderr line).

Definition str_exn (e : exn) : string :=
  match e with
  | ZeroDivisionError => "division by zero"
  | OverflowError => "OverflowError"
  | ValueError msg => msg
  | TypeError => "TypeError"
  | KeyError k => k
  | AttributeError => "AttributeError"
  | OSError => "OSError"
  | FileNotFoundError => "FileNotFoundError"
  | PermissionError => "PermissionError"
  | TimeoutError => "TimeoutError"
  | JSONDecodeError => "JSONDecodeError"
  end.

End PyIO.

(** * The progress channel ([update_progress], main.py) *)

Module Progress.
Import Py PyIO.

Record ProgressState := mkstate { current : Z; total : Z; progress_pct : Z }.

(** [int((current / total) * 100) if total else 0] *)
Definition pct_of (current total : Z) : outcome Z :=
  if total =? 0 then Ok 0
  else obind (PyFloat.true_div current total)
             (λ q, PyFloat.to_int (q * PyFloat.lit 100)%float).

(** The dictionary built at the head of [update_progress]. *)
Definition progress_data (current total : Z) : outcome ProgressState :=
  obind (pct_of current total) (λ pct, Ok (mkstate current total pct)).

Definition dq : string := String "034"%char EmptyString.

Definition json_key (k : string) : string := dq +:+ k +:+ dq.

(** The chunks [json.dump] hands to [f.write], one after the other. *)
Definition json_chunks (st : ProgressState) : list string :=
  [ "{"; json_key "current"; ": "; pretty (current st); ", ";
    json_key "total"; ": "; pretty (total st); ", ";
    json_key "progress_pct"; ": "; pretty (progress_pct st); "}" ].

Definition json_text (st : ProgressState) : string :=
  String.concat "" (json_chunks st).

Fixpoint write_all (path : string) (chunks : list string) : Py unit :=
  match chunks with
  | [] => ret tt
  | c :: cs => write path c ;; write_all path cs
  end.

(** [json.dump(progress_data, f)] *)
Definition json_dump (st : ProgressState) (path : string) : Py unit :=
  write_all path (json_chunks st).

Definition update_progress (current total : Z) (file_path : string) : Py unit :=
  try_except
    (let* data := lift (progress_data current total) in
     let tmp_path := file_path +:+ ".tmp" in
     with_open_w tmp_path (json_dump data tmp_path) ;;
     os_replace tmp_path file_path)
    (λ e, print_stderr ("Failed to update progress: " +:+ str_exn e)).

End Progress.

(** * The crawl ([scrape_yad2_from_filtered_url], main.py) *)

Module Crawl.
Import Py PyIO Progress.

(** What the field extraction reads off a rendered listing page: the text
    of each element it looks for, when the page has it. *)
Record Page := mkpage {
  ad_number : option string;
  created_at : option string;
  price_span : option string;
  h1 : option string;
  summary_values : list string;
  dd_items : list (string * outcome string)
}.

(** The browser and the clock.  A visit that raises anywhere between
    [page.goto] and the last read of the page is [Raise]. *)
Record Env := mkenv {
  search_page : string → Z → outcome (list string);
  visit : nat → string → outcome Page;
  today : string;
  set_to_list : list string → list string
}.

Definition hebrew_to_english : list (string * string) :=
  [ ("קילומטראז׳", "mileage"); ("צבע", "color"); ("בעלות נוכחית", "ownership");
    ("טסט עד", "test_date"); ("בעלות קודמת", "previous_ownership");
    ("תיבת הילוכים", "transmission"); ("תאריך עליה לכביש", "on_road_date");
    ("סוג מנוע", "fuel_type"); ("מרכב", "body_type"); ("מושבים", "seats");
    ("כוח סוס", "horsepower"); ("נפח מנוע", "engine_volume");
    ("צריכת דלק משולבת", "fuel_consumption"); ("סוג הנעה", "drive_type");
    ("מערכת הנעה", "drive_system") ].

(** [hebrew_to_english.get(label)] *)
Definition dict_get (label : string) : option string :=
  snd <$> List.find (λ p, bool_decide (p.1 = label)) hebrew_to_english.

(** Truth value of [details.get(key)] *)
Definition truthy (v : option (option string)) : bool :=
  match v with
  | Some (Some s) => negb (bool_decide (s = ""))
  | _ => false
  end.

(** The body of the [try] from the parse of the page to [details["url"]]. *)
Definition extract (pg : Page) (scrape_date full_url : string)
  : gmap string (option string) :=
  let details : gmap string (option string) := ∅ in
  let details := <["listing_id" := PyStr.strip <$> ad_number pg]> details in
  let details :=
    <["upload_date" :=
        (λ t, PyStr.strip (PyStr.remove "פורסם ב" t)) <$> created_at pg]> details in
  let details := <["scrape_date" := Some scrape_date]> details in
  let details :=
    <["price" :=
        (λ t, PyStr.remove "₪" (PyStr.remove "," (PyStr.strip t)))
          <$> price_span pg]> details in
  let details := <["title" := PyStr.strip <$> h1 pg]> details in
  let details :=
    <["year_summary" := PyStr.strip <$> summary_values pg !! 0%nat]> details in
  let details :=
    <["owner_count" := PyStr.strip <$> summary_values pg !! 1%nat]> details in
  let details :=
    foldl (λ (d : gmap string (option string)) (it : string * outcome string),
             match dict_get (PyStr.strip it.1) with
             | Some key =>
                 <[key := match it.2 with
                          | Ok t => Some (PyStr.strip t)
                          | Raise _ => None
                          end]> d
             | None => d
             end)
          details (dd_items pg) in
  let details :=
    foldl (λ (d : gmap string (option string)) (key : string),
             match d !! key with
             | Some _ => d
             | None => <[key := None]> d
             end)
          details (map snd hebrew_to_english) in
  <["url" := Some full_url]> details.

Section crawl.
Context (env : Env).

Definition full_url_of (url : string) : string :=
  if PyStr.startswith "item/" url then "https://www.yad2.co.il/" +:+ url else url.

(** One turn of [for idx, url in enumerate(listing_urls)]. *)
Definition visit_listing (total : Z)
    (all_details : list (gmap string (option string))) (idx : nat) (url : string)
  : Py (list (gmap string (option string))) :=
  let full_url := full_url_of url in
  update_progress (Z.of_nat idx + 1) total "progress.json" ;;
  try_except
    (emit (EvGoto full_url) ;;
     let* pg := lift (visit env idx full_url) in
     let details := extract pg (today env) full_url in
     ret (if truthy (details !! "price") then all_details ++ [details]
          else all_details))
    (λ e, print_stderr ("Failed to scrape " +:+ full_url +:+ ": " +:+ str_exn e) ;;
          ret all_details).

Fixpoint visit_from (total : Z) (idx : nat) (urls : list string)
    (all_details : list (gmap string (option string)))
  : Py (list (gmap string (option string))) :=
  match urls with
  | [] => ret all_details
  | url :: rest =>
      let* all_details := visit_listing total all_details idx url in
      visit_from total (S idx) rest all_details
  end.

(** The second loop of the crawl, over the deduplicated URLs. *)
Definition visit_all (listing_urls : list string)
  : Py (list (gmap string (option string))) :=
  visit_from (Z.of_nat (length listing_urls)) 0 listing_urls [].

(** The first loop: the links of the result pages [1 .. pages_num]. *)
Fixpoint collect_links (base_url : string) (page_num : Z) (n : nat)
  : Py (list string) :=
  match n with
  | O => ret []
  | S k =>
      let* links := lift (search_page env base_url page_num) in
      let* more := collect_links base_url (page_num + 1) k in
      ret (links ++ more)
  end.

(** The columns of [pd.DataFrame(all_details)]: every record has the same
    keys. *)
Definition detail_keys : list string :=
  [ "listing_id"; "upload_date"; "scrape_date"; "price"; "title";
    "year_summary"; "owner_count" ] ++ map snd hebrew_to_english ++ [ "url" ].

Definition cell_of (v : option (option string)) : Frame.value :=
  match v with
  | Some (Some s) => Frame.VStr s
  | _ => Frame.VNull
  end.

Definition frame_of (all_details : list (gmap string (option string)))
  : outcome Frame.DataFrame :=
  match all_details with
  | [] => Raise (KeyError "listing_id")
  | _ =>
      Ok (Frame.mkframe detail_keys
            (map (λ d, list_to_map (map (λ k, (k, cell_of (d !! k))) detail_keys))
                 all_details))
  end.

Definition scrape_yad2_from_filtered_url (base_url : string) (pages_num : Z)
  : Py Frame.DataFrame :=
  let* listing_urls := collect_links base_url 1 (Z.to_nat pages_num) in
  let listing_urls := set_to_list env listing_urls in
  let* all_details := visit_all listing_urls in
  lift (frame_of all_details).

End crawl.

End Crawl.

(** * Frames as objects *)

Module PyFrame.
Import Py.

(** [df.copy()] *)
Definition df_copy (df : nat) : Py nat :=
  let* d := deref df in alloc d.

(** A method that returns a new frame: [df.dropna(...)], [df[mask]], ... *)
Definition df_new (f : Frame.DataFrame → outcome Frame.DataFrame) (df : nat)
  : Py nat :=
  let* d := deref df in
  let* d' := lift (f d) in
  alloc d'.

(** [df[c] = rhs], where [rhs] is an expression over [df]: the object
    itself is updated. *)
Definition df_assign (df : nat) (c : string)
    (rhs : Frame.DataFrame → outcome (list Frame.value)) : Py unit :=
  let* d := deref df in
  let* vs := lift (rhs d) in
  let* d' := lift (Frame.setcol c vs d) in
  store df d'.

(** [c in df.columns] *)
Definition df_has_column (df : nat) (c : string) : Py bool :=
  let* d := deref df in ret (Frame.has_column c d).

End PyFrame.

(** * The data pipeline (main.py) *)

Module Pipeline.
Import Py PyFrame Frame.

(** The pandas and model functions the pipeline calls, and the two files
    it reads.  [to_datetime] works on a whole series, since the format of
    a free-form column is inferred from the series.  [model_predict] is
    everything in [predict_prices] between the copy and the assignment of
    [predicted_price]: it reads the frame and returns the predictions. *)
Record Pandas := mkpandas {
  str_of : value → string;
  re_sub_non_numeric : string → string;
  to_numeric : value → option float;
  to_datetime : option string → list value → list (option date);
  to_datetime_scalar : string → string → option date;
  read_title_ref : outcome DataFrame;
  model_predict : DataFrame → outcome (list float)
}.

Definition of_float (x : option float) : value :=
  match x with Some x => VFloat x | None => VNull end.

Definition of_date (x : option date) : value :=
  match x with Some d => VDate d | None => VNull end.

(** [.dt.year] and [.dt.month] on a cell of a datetime column *)
Definition dt_year (v : value) : outcome value :=
  match v with
  | VDate d => Ok (VInt (year d))
  | VNull => Ok VNull
  | _ => Raise AttributeError
  end.

Definition dt_month (v : value) : outcome value :=
  match v with
  | VDate d => Ok (VInt (month d))
  | VNull => Ok VNull
  | _ => Raise AttributeError
  end.

(** Integer arithmetic of two cells of integer columns. *)
Definition int_arith (op : Z → Z → Z) (a b : value) : outcome value :=
  match a, b with
  | VInt m, VInt n => Ok (VInt (op m n))
  | VNull, (VInt _ | VNull) | VInt _, VNull => Ok VNull
  | _, _ => Raise TypeError
  end.

Definition int_series (op : Z → Z → Z) (s1 s2 : list value)
  : outcome (list value) :=
  omapM (λ p, int_arith op p.1 p.2) (zip s1 s2).

(** [s.clip(lower=0)] *)
Definition clip_lower0 (v : value) : outcome value :=
  match v with
  | VInt n => Ok (VInt (Z.max n 0))
  | VFloat x => Ok (VFloat (if PrimFloat.ltb x PrimFloat.zero then PrimFloat.zero else x))
  | VNull => Ok VNull
  | _ => Raise TypeError
  end.

Section pipeline.
Context (L : Pandas).

Definition calculate_months_on_road (row : gmap string value) : outcome value :=
  obind (row_get "upload_date" row) (λ u,
  obind (if is_null u then Ok VNull else row_get "on_road_date" row) (λ o,
  if is_null u || is_null o then Ok VNull
  else match u, o with
       | VDate u, VDate o =>
           let delta := (year u - year o) * 12 in
           let delta := delta + (month u - month o) in
           Ok (VInt delta)
       | _, _ => Raise AttributeError
       end)).

Definition parse_on_road (row : gmap string value) : outcome value :=
  obind (row_get "on_road_date" row) (λ o,
  if negb (is_null o) then
    Ok (of_date (to_datetime_scalar L "%d/%m/%Y" ("01/" +:+ str_of L o)))
  else
    obind (row_get "year_summary" row) (λ y,
    if negb (is_null y) then
      Ok (of_date (to_datetime_scalar L "%d/%m/%Y" ("01/06/" +:+ str_of L y)))
    else Ok VNull)).

(** [(ratio < ratio_thresh) & (ratio > (1 / ratio_thresh))] on one entry;
    a comparison with a missing ratio is false. *)
Definition in_band (ratio_thresh : Z) (lo : float) (ratio : value) : outcome bool :=
  obind (num ratio) (λ q,
    match q with
    | Some q => Ok (PrimFloat.ltb q (PyFloat.lit ratio_thresh) && PrimFloat.ltb lo q)
    | None => Ok false
    end).

Definition drop_price_outliers_by_title (df : nat) (price_col : string)
    (ratio_thresh : Z) : Py nat :=
  let* df := df_copy df in
  let* has := df_has_column df "avg_price_by_title" in
  if negb has then
    raise (ValueError "Expected column 'avg_price_by_title' not found in DataFrame.")
  else
    let* d := deref df in
    let* ratio :=
      lift (obind (col "avg_price_by_title" d) (λ a,
            obind (col price_col d) (λ p,
            arith_series PrimFloat.div a p))) in
    let* lo := lift (PyFloat.true_div 1 ratio_thresh) in
    let* mask := lift (omapM (in_band ratio_thresh lo) ratio) in
    let* df := df_new (select mask) df in
    df_copy df.

(** [s.astype(str)] followed by a string method [f] *)
Definition str_map (f : string → string) (s : list value) : list value :=
  map (λ v, VStr (f (str_of L v))) s.

Definition months_to_test_raw (d : DataFrame) : outcome (list value) :=
  obind (obind (col "test_date" d) (omapM dt_year)) (λ ty,
  obind (obind (col "upload_date" d) (omapM dt_year)) (λ uy,
  obind (int_series Z.sub ty uy) (λ dy,
  obind (omapM (λ v, int_arith Z.mul v (VInt 12)) dy) (λ dy12,
  obind (obind (col "test_date" d) (omapM dt_month)) (λ tm,
  obind (obind (col "upload_date" d) (omapM dt_month)) (λ um,
  obind (int_series Z.sub tm um) (λ dm,
  int_series Z.add dy12 dm))))))).

(** Step 8: the [try] around the join with the title aggregates.  When
    the join succeeds and [dropna] raises, [df] is already the joined
    frame. *)
Definition join_title_aggregates (df : nat) : Py nat :=
  λ w,
    match (let* title_ref := lift (read_title_ref L) in
           df_new (λ d, merge_left "title" d title_ref) df) w with
    | (Ok merged, w1) =>
        match df_new (dropna "avg_price_by_title") merged w1 with
        | (Ok df', w2) => (Ok df', w2)
        | (Raise _, w2) => (emit (EvStdout "No titles found") ;; ret merged) w2
        end
    | (Raise _, w1) => (emit (EvStdout "No titles found") ;; ret df) w1
    end.

Definition preprocess_car_data (df : nat) : Py nat :=
  let* df := df_copy df in
  (* Step 0 *)
  let* df := df_new (drop_duplicates "listing_id") df in
  let* df := df_new reset_index df in
  (* Step 1 *)
  df_assign df "price"
    (λ d, omap_ok (str_map (re_sub_non_numeric L)) (col "price" d)) ;;
  df_assign df "price"
    (λ d, omap_ok (map (λ v, of_float (to_numeric L v))) (col "price" d)) ;;
  let* df := df_new (dropna "price") df in
  (* Step 2 *)
  df_assign df "mileage"
    (λ d, omap_ok (str_map (λ s, PyStr.strip (PyStr.remove "," s))) (col "mileage" d)) ;;
  df_assign df "engine_volume"
    (λ d, omap_ok (str_map (λ s, PyStr.strip (PyStr.remove "," s)))
                  (col "engine_volume" d)) ;;
  df_assign df "mileage"
    (λ d, omap_ok (map (λ v, of_float (to_numeric L v))) (col "mileage" d)) ;;
  df_assign df "engine_volume"
    (λ d, omap_ok (map (λ v, of_float (to_numeric L v))) (col "engine_volume" d)) ;;
  (* Step 3 *)
  df_assign df "upload_date"
    (λ d, omap_ok (λ s, map of_date (to_datetime L (Some "%d/%m/%y") s))
                  (col "upload_date" d)) ;;
  df_assign df "test_date"
    (λ d, omap_ok (λ s, map of_date (to_datetime L None s)) (col "test_date" d)) ;;
  (* Step 4 *)
  df_assign df "on_road_date" (apply_rows parse_on_road) ;;
  (* Step 5 *)
  df_assign df "months_on_road" (apply_rows calculate_months_on_road) ;;
  (* Step 6 *)
  df_assign df "on_road_year"
    (λ d, obind (col "on_road_date" d) (omapM dt_year)) ;;
  df_assign df "on_road_month"
    (λ d, obind (col "on_road_date" d) (omapM dt_month)) ;;
  (* Step 7 *)
  df_assign df "months_to_test" months_to_test_raw ;;
  df_assign df "months_to_test"
    (λ d, obind (col "months_to_test" d) (omapM clip_lower0)) ;;
  (* Step 8 *)
  let* df := join_title_aggregates df in
  (* Step 9 *)
  let* df := drop_price_outliers_by_title df "price" 10 in
  (* Step 10 *)
  df_assign df "mileage_vs_avg_title"
    (λ d, obind (col "mileage" d) (λ m,
          obind (col "avg_mileage_by_title" d) (λ a,
          arith_series PrimFloat.div m (map replace_zero a)))) ;;
  df_assign df "months_vs_avg"
    (λ d, obind (col "months_on_road" d) (λ m,
          obind (col "avg_months_on_road_by_title" d) (λ a,
          arith_series PrimFloat.div m (map replace_zero a)))) ;;
  ret df.

Definition predict_prices (df : nat) : Py nat :=
  let* df := df_copy df in
  df_assign df "predicted_price"
    (λ d, omap_ok (map VFloat) (model_predict L d)) ;;
  ret df.

Definition price_diff_pct_series (d : DataFrame) : outcome (list value) :=
  obind (col "price" d) (λ price,
  obind (col "predicted_price" d) (λ predicted,
  obind (arith_series PrimFloat.sub price predicted) (λ diff,
  obind (arith_lit_l PrimFloat.mul 100 diff) (λ scaled,
  arith_series PrimFloat.div scaled predicted)))).

Definition add_price_diff_features (df : nat) : Py nat :=
  let* df := df_copy df in
  df_assign df "price_diff_pct" price_diff_pct_series ;;
  let* has := df_has_column df "std_error_pct" in
  (if has then
     df_assign df "price_diff_vs_error"
       (λ d, obind (col "price_diff_pct" d) (λ p,
             obind (col "std_error_pct" d) (λ e,
             arith_series PrimFloat.div p e)))
   else
     df_assign df "price_diff_vs_error" (λ d, Ok (map (λ _, VNull) (rows d)))) ;;
  ret df.

End pipeline.

End Pipeline.

(** * The orchestrator ([read_progress], [run_scraper_subprocess], app.py) *)

Module Orchestrator.
Import Py PyIO PyFrame.

(** The child process as the parent meets it.  [ticks] has one entry per
    turn of the polling loop during which the child is still alive: the
    contents the child has put at [progress.json] since the parent last
    looked.  When the parent stops polling first, the child performs the
    rest of its writes while the parent waits in [communicate]. *)
Record Child := mkchild {
  ticks : list (list string);
  returncode : Z;
  stdout : string;
  stderr : string
}.

(** [json_loads] decodes the progress file, a JSON object of integers;
    [parse_listings] is [json.loads] followed by [pd.DataFrame]. *)
Record Sys := mksys {
  spawn : string → Z → Child;
  json_loads : string → outcome (gmap string Z);
  parse_listings : string → outcome Frame.DataFrame
}.

Section orchestrator.
Context (S : Sys).

Definition read_progress (file_path : string) : Py (option (gmap string Z)) :=
  try_except
    (let* text := read_file file_path in
     let* progress := lift (json_loads S text) in
     ret (Some progress))
    (λ e, match e with
          | JSONDecodeError | FileNotFoundError => ret None
          | _ => raise e
          end).

(** The child replaces the progress file, as [update_progress] does. *)
Fixpoint child_writes (contents : list string) : Py unit :=
  match contents with
  | [] => ret tt
  | c :: cs =>
      (let* f := get_files in
       set_files (OpReplace "progress.json.tmp" "progress.json")
                 (<["progress.json" := c]> f)) ;;
      child_writes cs
  end.

(** [progress_bar.progress(pct)] refuses a value outside [0, 100]. *)
Definition st_progress (pct : Z) : Py unit :=
  if (0 <=? pct) && (pct <=? 100) then ret tt
  else raise (ValueError "Progress Value has invalid value [0, 100]").

(** [while process.poll() is None and pct < 100]; the result is what the
    child has still to write. *)
Fixpoint poll_loop (ticks : list (list string)) (pct : Z)
  : Py (list (list string)) :=
  match ticks with
  | [] => ret []
  | t :: rest =>
      if pct <? 100 then
        child_writes t ;;
        let* progress := read_progress "progress.json" in
        let* pct :=
          match progress with
          | Some progress =>
              if bool_decide (progress = ∅) then ret pct
              else
                let pct := default 0 (progress !! "progress_pct") in
                let done := default 0 (progress !! "current") in
                let total := default 1 (progress !! "total") in
                st_progress pct ;;
                emit (EvStatus done total) ;;
                ret pct
          | None => ret pct
          end in
        poll_loop rest pct
      else ret ticks
  end.

Definition run_scraper_subprocess (base_url : string) (pages_num : Z) : Py nat :=
  try_except
    (syscall ;;
     let process := spawn S base_url pages_num in
     st_progress 0 ;;
     let* pending := poll_loop (ticks process) 0 in
     (* Clean up progress tracking file *)
     let* there := os_path_exists "progress.json" in
     (if there then os_remove "progress.json" else ret tt) ;;
     (* process.communicate() *)
     child_writes (concat pending) ;;
     if negb (returncode process =? 0) then
       emit (EvUi "error" "Scraper subprocess failed.") ;;
       emit (EvUi "text" (stderr process)) ;;
       alloc Frame.empty_frame
     else
       try_except
         (let* listings := lift (parse_listings S (stdout process)) in
          alloc listings)
         (λ e, match e with
               | JSONDecodeError =>
                   emit (EvUi "error" "Could not decode output from scraper.") ;;
                   emit (EvUi "text" (stdout process)) ;;
                   alloc Frame.empty_frame
               | _ => raise e
               end))
    (λ e, emit (EvUi "error" ("Unexpected error: " +:+ str_exn e)) ;;
          alloc Frame.empty_frame).

End orchestrator.

End Orchestrator.

(** * Evaluation and ranking (app.py) *)

Module Evaluate.
Import Py PyIO PyFrame Frame Pipeline.

(** Comparison of a cell with an integer literal. *)
Definition cmp_lit (op : float → float → bool) (zop : Z → Z → bool)
    (v : value) (k : Z) : outcome bool :=
  match v with
  | VFloat x => Ok (op x (PyFloat.lit k))
  | VInt n => Ok (zop n k)
  | _ => Raise TypeError
  end.

Definition label_recommendation (row : gmap string value) : outcome string :=
  obind (row_get "price_diff_vs_error" row) (λ v,
  if is_null v then Ok "❔ Not enough data"
  else
    obind (cmp_lit PrimFloat.ltb Z.ltb v (-1)) (λ below,
    if below then Ok "🔥 Good deal"
    else
      obind (cmp_lit (λ x k, PrimFloat.leb k x) (λ n k, k <=? n) v (-1)) (λ ge,
      obind (if ge then cmp_lit PrimFloat.leb Z.leb v 1 else Ok false) (λ le,
      if ge && le then Ok "✅ Fair price" else Ok "💸 Overpriced")))).

(** Stable insertion into a list sorted from the largest key down. *)
Fixpoint insert_desc {A} (key : A → float) (x : A) (l : list A) : list A :=
  match l with
  | [] => [x]
  | y :: l' =>
      if PrimFloat.leb (key y) (key x) then x :: l
      else y :: insert_desc key x l'
  end.

Definition sort_desc {A} (key : A → float) (l : list A) : list A :=
  foldr (insert_desc key) [] l.

(** [df.sort_values(by=c, ascending=False)] for a numeric column: the
    rows with a missing key come last, in their order; the others from
    the largest key down.  Rows of equal keys are kept in their order
    here, where pandas promises no order. *)
Definition sort_values_desc (c : string) (d : DataFrame) : outcome DataFrame :=
  if has_column c d then
    obind (omapM (λ r, omap_ok (λ k, (r, k)) (num (cell c r))) (rows d)) (λ keyed,
    let present :=
      omap (λ p : gmap string value * option float,
              match p.2 with
              | Some k => if PrimFloat.is_nan k then None else Some (p.1, k)
              | None => None
              end) keyed in
    let missing :=
      omap (λ p : gmap string value * option float,
              match p.2 with
              | Some k => if PrimFloat.is_nan k then Some p.1 else None
              | None => Some p.1
              end) keyed in
    Ok (mkframe (columns d) (map fst (sort_desc snd present) ++ missing)))
  else Raise (KeyError c).

Section evaluate.
Context (L : Pandas) (S : Orchestrator.Sys).

Definition evaluate_multiple_listings (base_url : string) (pages_num : Z)
  : Py nat :=
  try_except
    (let* df := Orchestrator.run_scraper_subprocess S base_url pages_num in
     let* df := preprocess_car_data L df in
     let* df := predict_prices L df in
     let* df := add_price_diff_features df in
     let* d := deref df in
     if empty d then
       emit (EvUi "warning" "No valid listings were found or could be processed.") ;;
       alloc empty_frame
     else
       df_assign df "Recommendation"
         (apply_rows (λ row, omap_ok VStr (label_recommendation row))) ;;
       df_assign df "VFM Score"
         (λ d, obind (col "price_diff_vs_error" d) (arith_lit_l PrimFloat.mul (-1))) ;;
       ret df)
    (λ e, emit (EvUi "error" ("Error while evaluating listings: " +:+ str_exn e)) ;;
          alloc empty_frame).

(** The button handler: the evaluated frame, ranked when it is not empty. *)
Definition top_df (base_url : string) (pages_num : Z) : Py (option nat) :=
  let* results_df := evaluate_multiple_listings base_url pages_num in
  let* d := deref results_df in
  if negb (empty d) then
    let* sorted := df_new (sort_values_desc "VFM Score") results_df in
    let* top := df_copy sorted in
    ret (Some top)
  else ret None.

End evaluate.

End Evaluate.

(** * The developer menu ([vfm_menu] and [main], main.py) *)

Module Menu.
Import Py PyIO PyFrame Frame Pipeline Evaluate.

(** What the menu leaves to Python: [str.lower]; [int] of a string, which
    raises [ValueError] on anything but an integer literal; the text of a
    cell inside an f-string; and the text of [-1 * x] with one decimal,
    which raises when the cell holds no number. *)
Record Console := mkconsole {
  lower : string → string;
  int_of_str : string → outcome Z;
  str_of_cell : value → string;
  minus_1f : value → outcome string
}.

Definition nl : string := String "010"%char EmptyString.

(** Stable insertion into a list sorted from the smallest key up. *)
Fixpoint insert_asc {A} (key : A → float) (x : A) (l : list A) : list A :=
  match l with
  | [] => [x]
  | y :: l' =>
      if PrimFloat.leb (key x) (key y) then x :: l
      else y :: insert_asc key x l'
  end.

Definition sort_asc {A} (key : A → float) (l : list A) : list A :=
  foldr (insert_asc key) [] l.

(** [df.sort_values(by=c)] for a numeric column: from the smallest key
    up, the rows with a missing key last, in their order.  Rows of equal
    keys are kept in their order here, where pandas promises no order. *)
Definition sort_values_asc (c : string) (d : DataFrame) : outcome DataFrame :=
  if has_column c d then
    obind (omapM (λ r, omap_ok (λ k, (r, k)) (num (cell c r))) (rows d)) (λ keyed,
    let present :=
      omap (λ p : gmap string value * option float,
              match p.2 with
              | Some k => if PrimFloat.is_nan k then None else Some (p.1, k)
              | None => None
              end) keyed in
    let missing :=
      omap (λ p : gmap string value * option float,
              match p.2 with
              | Some k => if PrimFloat.is_nan k then Some p.1 else None
              | None => Some p.1
              end) keyed in
    Ok (mkframe (columns d) (map fst (sort_asc snd present) ++ missing)))
  else Raise (KeyError c).

(** [df.head(n)]: the first [n] rows, or all but the last [-n]. *)
Definition head (n : Z) (d : DataFrame) : outcome DataFrame :=
  Ok (mkframe (columns d)
        (if 0 <=? n then take (Z.to_nat n) (rows d)
         else take (length (rows d) - Z.to_nat (- n)) (rows d))).

(** [df[cs]] for a list of labels *)
Definition select_columns (cs : list string) (d : DataFrame) : outcome DataFrame :=
  match List.find (λ c, negb (has_column c d)) cs with
  | Some c => Raise (KeyError c)
  | None =>
      Ok (mkframe cs (map (λ r, list_to_map (map (λ c, (c, cell c r)) cs)) (rows d)))
  end.

Definition prompt : string :=
  "🔢 How many top VFM cars would you like to see? (or type 'exit' to quit): ".

(** The three lines of a listing. *)
Definition title_line (C : Console) (i : Z) (row : gmap string value) : string :=
  pretty i +:+ ". " +:+ str_of_cell C (cell "title" row).

Definition cheaper_line (text : string) : string :=
  " " +:+ text +:+ "% cheaper than expected".

Definition url_line (C : Console) (row : gmap string value) : string :=
  "   🔗 " +:+ str_of_cell C (cell "url" row) +:+ nl.

(** [for i, row in enumerate(....itertuples(index=False), start=1)] *)
Fixpoint show_rows (C : Console) (i : Z) (rows : list (gmap string value))
  : Py unit :=
  match rows with
  | [] => ret tt
  | row :: rest =>
      emit (EvStdout (title_line C i row)) ;;
      let* text := lift (minus_1f C (cell "price_diff_vs_error" row)) in
      emit (EvStdout (cheaper_line text)) ;;
      emit (EvStdout (url_line C row)) ;;
      show_rows C (i + 1) rest
  end.

(** One turn of [while True] on the line typed at the prompt; the result
    tells whether the loop goes on. *)
Definition menu_turn (C : Console) (df : nat) (line : string) : Py bool :=
  try_except
    (emit (EvStdout prompt) ;;
     let user_input := PyStr.strip line in
     if bool_decide (lower C user_input ∈ ["exit"; "quit"]) then
       emit (EvStdout "👋 Exiting menu.") ;;
       ret false
     else
       let* n := lift (int_of_str C user_input) in
       if n <=? 0 then
         emit (EvStdout "⚠️ Please enter a positive number.") ;;
         ret true
       else
         let* sorted := df_new (sort_values_asc "price_diff_vs_error") df in
         let* top_df := df_new (head n) sorted in
         emit (EvStdout (nl +:+ "🚗 Top " +:+ pretty n +:+ " VFM listings:" +:+ nl)) ;;
         let* view :=
           df_new (select_columns ["title"; "price_diff_vs_error"; "url"]) top_df in
         let* d := deref view in
         show_rows C 1 (rows d) ;;
         emit (EvStdout (nl +:+ "🔁 You can try another number or type 'exit' to finish."
                         +:+ nl)) ;;
         ret true)
    (λ e, match e with
          | ValueError _ =>
              emit (EvStdout "⚠️ Invalid input. Please enter a number or 'exit'.") ;;
              ret true
          | _ => raise e
          end).

(** How a session stands after the lines typed so far: the menu was left,
    with the lines it did not read, or it waits at the prompt. *)
Inductive menu_end :=
| Exited (unread : list string)
| AtPrompt.

Fixpoint menu_loop (C : Console) (df : nat) (inputs : list string)
  : Py menu_end :=
  match inputs with
  | [] => emit (EvStdout prompt) ;; ret AtPrompt
  | line :: rest =>
      let* again := menu_turn C df line in
      if again then menu_loop C df rest else ret (Exited rest)
  end.

Definition vfm_menu (C : Console) (df : nat) (inputs : list string)
  : Py menu_end :=
  let* df := df_copy df in
  let* d := deref df in
  let evaluated_count := Z.of_nat (length (rows d)) in
  emit (EvStdout (nl +:+ "✅ Evaluated " +:+ pretty evaluated_count +:+ " listings."
                  +:+ nl)) ;;
  menu_loop C df inputs.

Definition main (env : Crawl.Env) (L : Pandas) (C : Console)
    (base_url : string) (pages_num : Z) (inputs : list string) : Py menu_end :=
  let* d := Crawl.scrape_yad2_from_filtered_url env base_url pages_num in
  let* df := alloc d in
  let* df := preprocess_car_data L df in
  let* df := predict_prices L df in
  let* df := add_price_diff_features df in
  vfm_menu C df inputs.

End Menu.

(** * Facts about binary64 comparison and negation *)

Module FloatFacts.

Definition fcmp (x y : float) : option comparison :=
  SFcompare (Prim2SF x) (Prim2SF y).

Lemma compare_cont_Eq_antisym m1 m2 :
  Pos.compare_cont Eq m2 m1 = CompOpp (Pos.compare_cont Eq m1 m2).
Proof. apply (Pos.compare_antisym m1 m2). Qed.

Lemma SFcompare_antisym f g :
  SFcompare g f = CompOpp <$> SFcompare f g.
Proof.
  destruct f as [s1|s1| |s1 m1 e1], g as [s2|s2| |s2 m2 e2]; simpl;
    try destruct s1; try destruct s2; try reflexivity;
    rewrite (Z.compare_antisym e1 e2), (compare_cont_Eq_antisym m1 m2);
    destruct (e1 ?= e2), (Pos.compare_cont Eq m1 m2); reflexivity.
Qed.


Lemma SFcompare_refl f : f ≠ S754_nan → SFcompare f f = Some Eq.
Proof.
  destruct f as [s|s| |s m e]; simpl; intros H; try done.
  - by destruct s.
  - rewrite Z.compare_refl.
    change (Pos.compare_cont Eq m m) with (Pos.compare m m).
    rewrite Pos.compare_refl. by destruct s.
Qed.

(** The order of the non-NaN floats is that of a key in [Z * Z * Z]. *)
Definition rank (f : spec_float) : Z * Z * Z :=
  match f with
  | S754_infinity true => (-2, 0, 0)
  | S754_finite true m e => (-1, - e, Zneg m)
  | S754_zero _ | S754_nan => (0, 0, 0)
  | S754_finite false m e => (1, e, Zpos m)
  | S754_infinity false => (2, 0, 0)
  end.

Definition lex (a b : Z * Z * Z) : comparison :=
  match a.1.1 ?= b.1.1 with
  | Eq => match a.1.2 ?= b.1.2 with
          | Eq => a.2 ?= b.2
          | c => c
          end
  | c => c
  end.

Lemma SFcompare_rank f g :
  f ≠ S754_nan → g ≠ S754_nan → SFcompare f g = Some (lex (rank f) (rank g)).
Proof.
  destruct f as [s1|s1| |s1 m1 e1], g as [s2|s2| |s2 m2 e2]; intros Hf Hg;
    try done; try destruct s1; try destruct s2; try reflexivity.
  - unfold lex; simpl. rewrite Z.compare_opp.
    rewrite (Z.compare_antisym e1 e2).
    destruct (e1 ?= e2); reflexivity.
Qed.

Lemma lex_le_trans a b c : lex a b ≠ Gt → lex b c ≠ Gt → lex a c ≠ Gt.
Proof.
  destruct a as [[a1 a2] a3], b as [[b1 b2] b3], c as [[c1 c2] c3].
  unfold lex; simpl.
  destruct (Z.compare_spec a1 b1), (Z.compare_spec b1 c1), (Z.compare_spec a1 c1);
    try lia; try done;
  destruct (Z.compare_spec a2 b2), (Z.compare_spec b2 c2), (Z.compare_spec a2 c2);
    try lia; try done;
  destruct (Z.compare_spec a3 b3), (Z.compare_spec b3 c3), (Z.compare_spec a3 c3);
    try lia; try done.
Qed.

Lemma is_nan_spec x : PrimFloat.is_nan x = true ↔ Prim2SF x = S754_nan.
Proof.
  unfold PrimFloat.is_nan. rewrite FloatAxioms.eqb_spec. unfold SFeqb.
  destruct (Prim2SF x) eqn:E; try (rewrite SFcompare_refl by done); done.
Qed.

Lemma is_nan_false x : PrimFloat.is_nan x = false ↔ Prim2SF x ≠ S754_nan.
Proof. rewrite <- is_nan_spec. destruct (PrimFloat.is_nan x); intuition congruence. Qed.

Lemma ltb_fcmp x y : PrimFloat.ltb x y = true ↔ fcmp x y = Some Lt.
Proof.
  rewrite FloatAxioms.ltb_spec. unfold SFltb, fcmp.
  destruct (SFcompare _ _) as [[]|]; intuition congruence.
Qed.

Lemma leb_fcmp x y :
  PrimFloat.leb x y = true ↔ fcmp x y = Some Lt ∨ fcmp x y = Some Eq.
Proof.
  rewrite FloatAxioms.leb_spec. unfold SFleb, fcmp.
  destruct (SFcompare _ _) as [[]|]; intuition congruence.
Qed.

Lemma fcmp_defined x y :
  PrimFloat.is_nan x = false → PrimFloat.is_nan y = false →
  fcmp x y = Some (lex (rank (Prim2SF x)) (rank (Prim2SF y))).
Proof.
  rewrite !is_nan_false. intros. by apply SFcompare_rank.
Qed.

Lemma fcmp_nan_l x y : PrimFloat.is_nan x = true → fcmp x y = None.
Proof. rewrite is_nan_spec. unfold fcmp. by intros ->. Qed.

Lemma fcmp_nan_r x y : PrimFloat.is_nan y = true → fcmp x y = None.
Proof.
  rewrite is_nan_spec. unfold fcmp. intros ->. by destruct (Prim2SF x).
Qed.

Lemma fcmp_antisym x y : fcmp y x = CompOpp <$> fcmp x y.
Proof. apply SFcompare_antisym. Qed.



(** A float that is not below [c] is at least [c], unless it is NaN. *)
Lemma not_ltb_leb x c :
  PrimFloat.is_nan x = false → PrimFloat.is_nan c = false →
  PrimFloat.ltb x c = false → PrimFloat.leb c x = true.
Proof.
  intros Hx Hc Hlt. apply leb_fcmp. rewrite fcmp_antisym.
  pose proof (ltb_fcmp x c) as H.
  rewrite (fcmp_defined x c) in * by done.
  destruct (lex _ _); simpl; auto.
  rewrite Hlt in H. destruct H as [_ H]. by specialize (H eq_refl).
Qed.

Lemma not_leb_ltb x c :
  PrimFloat.is_nan x = false → PrimFloat.is_nan c = false →
  PrimFloat.leb x c = false → PrimFloat.ltb c x = true.
Proof.
  intros Hx Hc Hle. apply ltb_fcmp. rewrite fcmp_antisym.
  pose proof (leb_fcmp x c) as H.
  rewrite (fcmp_defined x c) in * by done.
  rewrite Hle in H. destruct H as [_ H].
  destruct (lex _ _); simpl; auto; by specialize (H ltac:(auto)).
Qed.

Lemma ltb_not_nan x y :
  PrimFloat.ltb x y = true → PrimFloat.is_nan x = false ∧ PrimFloat.is_nan y = false.
Proof.
  rewrite ltb_fcmp. intros H.
  destruct (PrimFloat.is_nan x) eqn:Hx; [by rewrite fcmp_nan_l in H|].
  destruct (PrimFloat.is_nan y) eqn:Hy; [by rewrite fcmp_nan_r in H|]. done.
Qed.

Lemma leb_not_nan x y :
  PrimFloat.leb x y = true → PrimFloat.is_nan x = false ∧ PrimFloat.is_nan y = false.
Proof.
  rewrite leb_fcmp. intros H.
  destruct (PrimFloat.is_nan x) eqn:Hx; [rewrite fcmp_nan_l in H by done; intuition congruence|].
  destruct (PrimFloat.is_nan y) eqn:Hy; [rewrite fcmp_nan_r in H by done; intuition congruence|].
  done.
Qed.

Lemma leb_trans x y z :
  PrimFloat.leb x y = true → PrimFloat.leb y z = true → PrimFloat.leb x z = true.
Proof.
  intros Hxy Hyz.
  destruct (leb_not_nan _ _ Hxy) as [Hx Hy], (leb_not_nan _ _ Hyz) as [_ Hz].
  revert Hxy Hyz. rewrite !leb_fcmp, !fcmp_defined by done.
  intros Hxy Hyz.
  pose proof (lex_le_trans (rank (Prim2SF x)) (rank (Prim2SF y)) (rank (Prim2SF z))).
  destruct (lex (rank (Prim2SF x)) (rank (Prim2SF y))),
           (lex (rank (Prim2SF y)) (rank (Prim2SF z))),
           (lex (rank (Prim2SF x)) (rank (Prim2SF z))); intuition congruence.
Qed.

Lemma ltb_leb_false x y :
  PrimFloat.ltb x y = true → PrimFloat.leb y x = false.
Proof.
  rewrite ltb_fcmp. intros H. apply not_true_is_false. rewrite leb_fcmp.
  rewrite (fcmp_antisym x y), H. simpl. intuition congruence.
Qed.

Lemma ltb_irrefl x : PrimFloat.ltb x x = false.
Proof.
  apply not_true_is_false. rewrite ltb_fcmp. unfold fcmp.
  destruct (Prim2SF x) eqn:E; try (rewrite SFcompare_refl by done); done.
Qed.

Lemma ltb_leb x y : PrimFloat.ltb x y = true → PrimFloat.leb x y = true.
Proof. rewrite ltb_fcmp, leb_fcmp. intuition congruence. Qed.

(** Multiplying by [-1.0] is exact: it flips the sign. *)

Lemma Prim2SF_lit_m1 : Prim2SF (PyFloat.lit (-1)) = S754_finite true 4503599627370496 (-52).
Proof. vm_compute. reflexivity. Qed.

Lemma digits2_shift52 m :
  Z.pos (digits2_pos (Pos.iter xO m 52)) = Z.pos (digits2_pos m) + 52.
Proof. cbn [Pos.iter digits2_pos]. rewrite !Pos2Z.inj_succ. lia. Qed.

Lemma shr_shift52 m :
  SpecFloat.iter_pos shr_1 52 (Build_shr_record (Z.pos (Pos.iter xO m 52)) false false)
  = Build_shr_record (Z.pos m) false false.
Proof. reflexivity. Qed.

Lemma shr_fexp_shift52 m e :
  fexp prec emax (Z.pos (digits2_pos m) + e) = e →
  shr_fexp prec emax (Z.pos (Pos.iter xO m 52)) (-52 + e) loc_Exact
  = (Build_shr_record (Z.pos m) false false, e).
Proof.
  intros Hc. unfold shr_fexp, shr_record_of_loc, Zdigits2.
  rewrite digits2_shift52.
  replace (Z.pos (digits2_pos m) + 52 + (-52 + e)) with (Z.pos (digits2_pos m) + e) by lia.
  rewrite Hc. replace (e - (-52 + e)) with 52 by lia.
  unfold shr. rewrite shr_shift52. f_equal. lia.
Qed.

Lemma shr_fexp_canonical m e :
  fexp prec emax (Z.pos (digits2_pos m) + e) = e →
  shr_fexp prec emax (Z.pos m) e loc_Exact
  = (Build_shr_record (Z.pos m) false false, e).
Proof.
  intros Hc. unfold shr_fexp, shr_record_of_loc, Zdigits2.
  rewrite Hc, Z.sub_diag. reflexivity.
Qed.

Lemma SFmul_m1 f :
  valid_binary f = true →
  SFmul prec emax (S754_finite true 4503599627370496 (-52)) f = SFopp f.
Proof.
  destruct f as [s|s| |s m e]; try reflexivity.
  intros Hv. simpl in Hv. unfold bounded, canonical_mantissa in Hv.
  apply andb_prop in Hv as [Hc Hb]. apply Z.eqb_eq in Hc.
  unfold SFmul, binary_round_aux.
  change (Pos.mul 4503599627370496 m) with (Pos.iter xO m 52).
  rewrite (shr_fexp_shift52 m e Hc).
  cbn [shr_m loc_of_shr_record round_nearest_even].
  rewrite (shr_fexp_canonical m e Hc).
  cbn [shr_m]. rewrite Hb. reflexivity.
Qed.

Lemma mul_m1 x : (PyFloat.lit (-1) * x)%float = (- x)%float.
Proof.
  apply Prim2SF_inj.
  rewrite mul_spec, FloatAxioms.opp_spec, Prim2SF_lit_m1.
  apply SFmul_m1, Prim2SF_valid.
Qed.

End FloatFacts.

(** * Facts about strings *)

Module StrFacts.

Lemma append_cons c s t : String c s +:+ t = String c (s +:+ t).
Proof. reflexivity. Qed.

Lemma length_append s t :
  String.length (s +:+ t) = (String.length s + String.length t)%nat.
Proof. induction s as [|c s IH]; [done|]. rewrite ?append_cons. simpl. by f_equal. Qed.

Lemma append_nil_r s : s +:+ "" = s.
Proof. induction s as [|c s IH]; [done|]. rewrite ?append_cons. simpl. by f_equal. Qed.

Lemma append_assoc s t u : (s +:+ t) +:+ u = s +:+ (t +:+ u).
Proof. induction s as [|c s IH]; [done|]. rewrite ?append_cons. simpl. by f_equal. Qed.

Lemma append_ne s t : t ≠ "" → s +:+ t ≠ s.
Proof.
  intros Ht E. apply (f_equal String.length) in E.
  rewrite length_append in E. destruct t; [done|]. simpl in E. lia.
Qed.

Lemma concat_cons c cs : String.concat "" (c :: cs) = c +:+ String.concat "" cs.
Proof. destruct cs; simpl; [by rewrite append_nil_r|done]. Qed.

End StrFacts.

(** * Facts about the progress channel *)

Module ProgressFacts.
Import Py PyIO Progress StrFacts.

(** An event of the staging phase: the temporary file is opened or
    written, and the path [p] still holds [v]. *)
Definition staging (tmp p : string) (v : option string) (ev : event) : Prop :=
  ∃ op f, ev = EvFs op f ∧ (op = OpOpen tmp ∨ ∃ c, op = OpWrite tmp c) ∧ f !! p = v.

Lemma syscall_run w :
  ∃ r fl, syscall w = (r, mkworld (files w) fl (journal w) (heap w)) ∧
          (faults w = [] → r = Ok tt ∧ fl = []).
Proof.
  unfold syscall. destruct w as [f [|[e|] fl] j h]; simpl;
    eexists _, _; (split; [done|]); done.
Qed.

Lemma open_w_run tmp w :
  ∃ r w1, open_w tmp w = (r, w1) ∧ heap w1 = heap w ∧
    (faults w = [] → r = Ok tt ∧ faults w1 = []) ∧
    match r with
    | Ok _ => files w1 = <[tmp := ""]> (files w) ∧
              journal w1 = journal w ++ [EvFs (OpOpen tmp) (<[tmp := ""]> (files w))]
    | Raise _ => files w1 = files w ∧ journal w1 = journal w
    end.
Proof.
  unfold open_w, bind.
  destruct (syscall_run w) as ([[]|e] & fl & -> & Hfl); simpl;
    eexists _, _; (split; [done|]); split_and!; try done; intros H0; destruct (Hfl H0); done.
Qed.

Lemma write_run tmp c w :
  ∃ r w1, write tmp c w = (r, w1) ∧ heap w1 = heap w ∧
    (faults w = [] → r = Ok tt ∧ faults w1 = []) ∧
    match r with
    | Ok _ =>
        files w1 = <[tmp := default "" (files w !! tmp) +:+ c]> (files w) ∧
        journal w1 = journal w ++
          [EvFs (OpWrite tmp c) (<[tmp := default "" (files w !! tmp) +:+ c]> (files w))]
    | Raise _ => files w1 = files w ∧ journal w1 = journal w
    end.
Proof.
  unfold write, bind.
  destruct (syscall_run w) as ([[]|e] & fl & -> & Hfl); simpl;
    eexists _, _; (split; [done|]); split_and!; try done; intros H0; destruct (Hfl H0); done.
Qed.

Lemma write_all_run tmp p chunks : tmp ≠ p → ∀ w c0,
  files w !! tmp = Some c0 →
  ∃ r w1 evs, write_all tmp chunks w = (r, w1) ∧
    journal w1 = journal w ++ evs ∧
    Forall (staging tmp p (files w !! p)) evs ∧
    files w1 !! p = files w !! p ∧
    heap w1 = heap w ∧
    (faults w = [] → r = Ok tt ∧ faults w1 = []) ∧
    match r with
    | Ok _ => files w1 !! tmp = Some (c0 +:+ String.concat "" chunks)
    | Raise _ => True
    end.
Proof.
  intros Hne. induction chunks as [|c cs IH]; intros w c0 Hc0.
  - exists (Ok tt), w, []. simpl. rewrite app_nil_r, append_nil_r. eauto 10.
  - rewrite concat_cons. cbn [write_all]. unfold bind at 1.
    destruct (write_run tmp c w) as ([[]|e] & w1 & -> & Hh & Hfl & Hf & Hj).
    + rewrite Hc0 in Hf, Hj. simpl in Hf, Hj.
      destruct (IH w1 (c0 +:+ c))
        as (r & w2 & evs & -> & Hj' & Hev & Hp & Hh' & Hfl' & Hok).
      { rewrite Hf. apply lookup_insert_eq. }
      exists r, w2, (EvFs (OpWrite tmp c) (<[tmp := c0 +:+ c]> (files w)) :: evs).
      rewrite Hf, lookup_insert_ne in Hp, Hev by done.
      rewrite Hj', Hj, <- app_assoc, Hp, Hh', Hh.
      split; [done|]. split; [done|]. split.
      { constructor; [|done]. eexists _, _. split; [done|].
        split; [eauto|]. by rewrite lookup_insert_ne. }
      split; [done|]. split; [done|]. split.
      { intros H0. apply Hfl', Hfl, H0. }
      destruct r; [|done]. by rewrite Hok, append_assoc.
    + exists (Raise e), w1, []. rewrite app_nil_r, Hf, Hj, Hh. split_and!; done.
Qed.

Lemma with_open_json_run tmp p st w : tmp ≠ p →
  ∃ r w1 evs, with_open_w tmp (json_dump st tmp) w = (r, w1) ∧
    journal w1 = journal w ++ evs ∧
    Forall (staging tmp p (files w !! p)) evs ∧
    files w1 !! p = files w !! p ∧
    heap w1 = heap w ∧
    (faults w = [] → r = Ok tt ∧ faults w1 = []) ∧
    match r with
    | Ok _ => files w1 !! tmp = Some (json_text st)
    | Raise _ => True
    end.
Proof.
  intros Hne. unfold with_open_w, bind.
  destruct (open_w_run tmp w) as ([[]|e] & w1 & -> & Hh & Hfl & Hf & Hj).
  - destruct (write_all_run tmp p (json_chunks st) Hne w1 "")
      as (r & w2 & evs & Hrun & Hj2 & Hev & Hp & Hh2 & Hfl2 & Hok).
    { rewrite Hf. apply lookup_insert_eq. }
    unfold json_dump. rewrite Hrun.
    rewrite Hf, lookup_insert_ne in Hp, Hev by done.
    unfold close. destruct (syscall_run w2) as (rc & fl & -> & Hfl3).
    exists (match rc with Ok _ => r | Raise e => Raise e end),
      (mkworld (files w2) fl (journal w2) (heap w2)),
      (EvFs (OpOpen tmp) (<[tmp := ""]> (files w)) :: evs).
    simpl. rewrite Hj2, Hj, <- app_assoc, Hp, Hh2, Hh.
    split; [by destruct rc|]. split_and!; try done.
    + constructor; [|done]. eexists _, _. split; [done|].
      split; [eauto|]. by rewrite lookup_insert_ne.
    + intros H0. destruct (Hfl H0) as [_ H1]. destruct (Hfl2 H1) as [-> H2].
      by destruct (Hfl3 H2) as [-> ->].
    + destruct rc; [|done]. destruct r; [|done]. by rewrite Hok.
  - exists (Raise e), w1, []. rewrite app_nil_r, Hf, Hj, Hh. split_and!; done.
Qed.

Lemma os_replace_run src dst w :
  ∃ r w1, os_replace src dst w = (r, w1) ∧ heap w1 = heap w ∧
    (faults w = [] → is_Some (files w !! src) → r = Ok tt ∧ faults w1 = []) ∧
    match r with
    | Ok _ => ∃ c, files w !! src = Some c ∧
                   files w1 = <[dst := c]> (delete src (files w)) ∧
                   journal w1 = journal w ++ [EvFs (OpReplace src dst) (files w1)]
    | Raise _ => files w1 = files w ∧ journal w1 = journal w
    end.
Proof.
  unfold os_replace, bind.
  destruct (syscall_run w) as ([[]|e] & fl & -> & Hfl); simpl.
  - destruct (files w !! src) as [c|] eqn:E; simpl.
    + eexists _, _. split; [done|]. simpl. split; [done|]. split; [intros H0 _; destruct (Hfl H0); done|].
      eauto.
    + eexists _, _. split; [done|]. simpl. split; [done|]. split; [|done].
      intros _ [? ?]; done.
  - eexists _, _. split; [done|]. simpl. split; [done|]. split; [intros H0; destruct (Hfl H0); done|done].
Qed.

(** Every call returns; the events it adds are a staging phase on the
    temporary file followed by the replacement or by one line on
    standard error. *)
Lemma update_progress_run c t p w :
  ∃ w' staged last,
    update_progress c t p w = (Ok tt, w') ∧ heap w' = heap w ∧
    journal w' = journal w ++ staged ++ last ∧
    Forall (staging (p +:+ ".tmp") p (files w !! p)) staged ∧
    (faults w = [] → faults w' = []) ∧
    ((∃ st, progress_data c t = Ok st ∧
            last = [EvFs (OpReplace (p +:+ ".tmp") p) (files w')] ∧
            files w' !! p = Some (json_text st) ∧
            files w' !! (p +:+ ".tmp") = None)
     ∨ (∃ e, last = [EvStderr ("Failed to update progress: " +:+ str_exn e)] ∧
             files w' !! p = files w !! p ∧
             (faults w = [] → progress_data c t = Raise e))).
Proof.
  assert (Hne : p +:+ ".tmp" ≠ p) by (by apply append_ne).
  unfold update_progress, try_except, bind at 1, lift.
  destruct (progress_data c t) as [st|e] eqn:Hpd.
  - unfold bind.
    destruct (with_open_json_run (p +:+ ".tmp") p st w Hne)
      as ([[]|e] & w1 & evs & -> & Hj & Hev & Hp & Hh & Hfl & Hok).
    + destruct (os_replace_run (p +:+ ".tmp") p w1)
        as ([[]|e] & w2 & -> & Hh2 & Hfl2 & Hrep).
      * destruct Hrep as (c' & Hc' & Hf2 & Hj2).
        exists w2, evs, [EvFs (OpReplace (p +:+ ".tmp") p) (files w2)].
        rewrite Hj2, Hj, <- app_assoc, Hh2, Hh. split_and!; try done.
        { intros H0. destruct (Hfl H0) as [_ H1]. by apply Hfl2. }
        left. exists st. split_and!; try done.
        -- rewrite Hf2, lookup_insert_eq. congruence.
        -- rewrite Hf2, lookup_insert_ne by done. apply lookup_delete_eq.
      * destruct Hrep as [Hf2 Hj2]. unfold print_stderr, emit. simpl.
        eexists _, evs, _. split; [done|]. simpl.
        rewrite Hj2, Hj, <- app_assoc, Hh2, Hh, Hf2, Hp. split_and!; try done.
        { intros H0. destruct (Hfl H0) as [_ H1]. by destruct (Hfl2 H1). }
        right. eexists. split_and!; try done.
        intros H0. destruct (Hfl H0) as [_ H1]. by destruct (Hfl2 H1).
    + unfold print_stderr, emit. simpl.
      eexists _, evs, _. split; [done|]. simpl.
      rewrite Hj, <- app_assoc, Hh, Hp. split_and!; try done.
      { intros H0. by destruct (Hfl H0). }
      right. eexists. split_and!; try done. intros H0. by destruct (Hfl H0).
  - unfold print_stderr, emit. simpl.
    eexists _, [], _. split; [done|]. simpl. split_and!; try done.
    right. eauto.
Qed.

End ProgressFacts.

(** * Facts about the crawl *)

Module CrawlFacts.
Import Py PyIO Progress Crawl ProgressFacts.

(** What a reader of the progress file and the site can see of a crawl. *)
Inductive obs :=
| Wrote (content : option string)
| Visited (url : string).

Definition observe (ev : event) : option obs :=
  match ev with
  | EvFs (OpReplace _ dst) f =>
      if bool_decide (dst = "progress.json") then Some (Wrote (f !! "progress.json"))
      else None
  | EvGoto url => Some (Visited url)
  | _ => None
  end.

(** The record a visit adds, if any. *)
Definition kept (env : Env) (idx : nat) (url : string)
  : option (gmap string (option string)) :=
  match visit env idx (full_url_of url) with
  | Ok pg =>
      let d := extract pg (today env) (full_url_of url) in
      if truthy (d !! "price") then Some d else None
  | Raise _ => None
  end.

(** What a turn of the loop shows when no system call fails. *)
Definition turn_obs (total : Z) (idx : nat) (url : string) : list obs :=
  match pct_of (Z.of_nat idx + 1) total with
  | Ok pct => [Wrote (Some (json_text (mkstate (Z.of_nat idx + 1) total pct)))]
  | Raise _ => []
  end ++ [Visited (full_url_of url)].

#[local] Opaque json_text extract.
#[local] Arguments turn_obs : simpl never.
#[local] Arguments pct_of : simpl never.
#[local] Arguments full_url_of : simpl never.

Lemma observe_staging tmp p v evs :
  Forall (staging tmp p v) evs → omap observe evs = [].
Proof.
  induction 1 as [|ev evs (op & f & -> & [->|[c ->]] & _) _ IH]; simpl; by rewrite ?IH.
Qed.

Lemma visit_listing_run env total all idx url w :
  ∃ w' evs,
    visit_listing env total all idx url w
      = (Ok (all ++ option_list (kept env idx url)), w') ∧
    journal w' = journal w ++ evs ∧
    heap w' = heap w ∧
    (faults w = [] → faults w' = [] ∧ omap observe evs = turn_obs total idx url).
Proof.
  unfold visit_listing, bind at 1.
  destruct (update_progress_run (Z.of_nat idx + 1) total "progress.json" w)
    as (w1 & staged & last & -> & Hh & Hj & Hst & Hfl & Hlast).
  assert (Hobs : faults w = [] →
            omap observe (staged ++ last)
            = match progress_data (Z.of_nat idx + 1) total with
              | Ok st => [Wrote (Some (json_text st))]
              | Raise _ => []
              end).
  { intros H0. rewrite omap_app, (observe_staging _ _ _ _ Hst). simpl.
    destruct Hlast as [(st & -> & -> & Hp & _)|(e & -> & _ & He)].
    - simpl. by rewrite Hp.
    - by rewrite (He H0). }
  unfold try_except, bind, emit, lift, kept. simpl.
  destruct (visit env idx (full_url_of url)) as [pg|e]; simpl.
  - eexists _, (staged ++ last ++ [EvGoto (full_url_of url)]).
    split.
    { f_equal. destruct (truthy _); simpl; [done|by rewrite app_nil_r]. }
    simpl. rewrite Hj, Hh, <- !app_assoc. split_and!; try done.
    intros H0. split; [by apply Hfl|].
    rewrite app_assoc, omap_app, (Hobs H0). unfold turn_obs, progress_data.
    destruct (pct_of _ _); reflexivity.
  - unfold print_stderr, emit. simpl.
    eexists _, (staged ++ last ++ [EvGoto (full_url_of url); _]).
    split; [by rewrite app_nil_r|].
    simpl. rewrite Hj, Hh, <- !app_assoc. split_and!; try done.
    intros H0. split; [by apply Hfl|].
    rewrite app_assoc, omap_app, (Hobs H0). unfold turn_obs, progress_data.
    destruct (pct_of _ _); reflexivity.
Qed.

Lemma visit_from_run env total urls : ∀ idx all w,
  ∃ w' evs,
    visit_from env total idx urls all w
      = (Ok (all ++ omap (λ p, kept env p.1 p.2) (imap (λ i u, (idx + i, u)%nat) urls)), w') ∧
    journal w' = journal w ++ evs ∧
    heap w' = heap w ∧
    (faults w = [] →
     omap observe evs
     = concat (imap (λ i u, turn_obs total (idx + i) u) urls)).
Proof.
  induction urls as [|url rest IH]; intros idx all w.
  - exists w, []. simpl. unfold ret. by rewrite !app_nil_r.
  - cbn [visit_from]. unfold bind at 1.
    destruct (visit_listing_run env total all idx url w)
      as (w1 & evs1 & -> & Hj1 & Hh1 & Hfl1).
    destruct (IH (S idx) (all ++ option_list (kept env idx url)) w1)
      as (w2 & evs2 & -> & Hj2 & Hh2 & Hfl2).
    exists w2, (evs1 ++ evs2). split; [|split_and!].
    + f_equal. rewrite <- app_assoc. f_equal. simpl.
      rewrite Nat.add_0_r.
      assert (E : imap ((λ i u, ((idx + i)%nat, u)) ∘ S) rest
                  = imap (λ i u, ((S idx + i)%nat, u)) rest).
      { apply imap_ext. intros i x _. simpl. f_equal. lia. }
      rewrite E. by destruct (kept env idx url).
    + by rewrite Hj2, Hj1, app_assoc.
    + by rewrite Hh2.
    + intros H0. destruct (Hfl1 H0) as [H1 Ho]. rewrite omap_app, Ho, (Hfl2 H1).
      simpl. rewrite Nat.add_0_r. f_equal. f_equal.
      apply imap_ext. intros i x _. simpl. f_equal. lia.
Qed.


(** A page whose price element holds only the currency sign, and a site
    of one, and of three, listings. *)
Definition page_no_amount : Page :=
  mkpage (Some "1001") (Some "01/02/24") (Some " ₪ ") (Some "Mazda 3") ["2019"; "2"] [].

Definition page_priced : Page :=
  mkpage (Some "1002") (Some "01/02/24") (Some "45,000 ₪") (Some "Mazda 3")
         ["2019"; "2"] [("צבע", Ok " red "); ("מרכב", Raise AttributeError)].

Definition site1 (pg : Page) : Env :=
  mkenv (λ _ _, Ok ["item/a"]) (λ _ _, Ok pg) "04/11/2026" (λ l, l).

Definition site3 : Env :=
  mkenv (λ _ _, Ok ["item/a"; "item/b"; "item/c"])
        (λ i _, match i with
                | 0%nat => Ok page_priced
                | 1%nat => Raise TimeoutError
                | _ => Ok page_no_amount
                end)
        "04/11/2026" (λ l, l).

Definition world0 : world := mkworld ∅ [] [] [].

(** C4, as stated, fails: the extracted price of [page_no_amount] is the
    empty string, which is not null, and the record is discarded. *)
Lemma empty_price_is_discarded :
  extract page_no_amount "04/11/2026" "https://www.yad2.co.il/item/a" !! "price"
    = Some (Some "") ∧
  (visit_all (site1 page_no_amount) ["item/a"] world0).1 = Ok [].
Proof. split; vm_compute; reflexivity. Qed.

(** C4, amended: the crawl returns exactly the records of the visits that
    did not raise and whose extracted price is neither null nor the empty
    string. *)
Theorem visit_all_keeps_priced (env : Env) (urls : list string) (w : world) :
  ∃ l, (visit_all env urls w).1 = Ok l ∧
    ∀ d, d ∈ l ↔
      ∃ idx url pg s,
        urls !! idx = Some url ∧
        visit env idx (full_url_of url) = Ok pg ∧
        d = extract pg (today env) (full_url_of url) ∧
        d !! "price" = Some (Some s) ∧ s ≠ "".
Proof.
  unfold visit_all.
  destruct (visit_from_run env (Z.of_nat (length urls)) urls 0 [] w)
    as (w' & evs & -> & _).
  eexists. split; [done|]. intros d. simpl.
  rewrite list_elem_of_omap. split.
  - intros ([idx url] & Hin & Hk).
    apply elem_of_lookup_imap in Hin as (i & u & [= -> ->] & Hu).
    unfold kept in Hk. simpl in Hk.
    destruct (visit env i (full_url_of u)) as [pg|] eqn:Hv; [|done].
    destruct (truthy _) eqn:Ht; [|done]. injection Hk as <-.
    unfold truthy in Ht.
    destruct (extract _ _ _ !! "price") as [[s|]|] eqn:Hp; try done.
    exists i, u, pg, s. split_and!; try done.
    intros ->. done.
  - intros (idx & url & pg & s & Hu & Hv & -> & Hp & Hs).
    exists (idx, url). split.
    + apply elem_of_lookup_imap. exists idx, url. done.
    + unfold kept. simpl. rewrite Hv. simpl. unfold truthy. rewrite Hp.
      by rewrite bool_decide_eq_false_2.
Qed.





(** C10: [update_progress] returns normally on every input and under
    every failure of the system calls; it has then either put the new
    state at the path or printed the failure and left the path as it
    was.  With [total = 0] the percentage is 0.  The loop of the crawl
    always runs to its end. *)
Theorem update_progress_never_raises (current total : Z) (file_path : string)
    (w : world) :
  (∃ w', update_progress current total file_path w = (Ok tt, w') ∧
     ((∃ st, progress_data current total = Ok st ∧
             files w' !! file_path = Some (json_text st))
      ∨ (∃ e, last (journal w')
                = Some (EvStderr ("Failed to update progress: " +:+ str_exn e)) ∧
              files w' !! file_path = files w !! file_path))) ∧
  progress_data current 0 = Ok (mkstate current 0 0) ∧
  ∀ env urls, ∃ l, (visit_all env urls w).1 = Ok l.
Proof.
  split_and!.
  - destruct (update_progress_run current total file_path w)
      as (w' & staged & lst & -> & _ & Hj & _ & _ & Hlast).
    exists w'. split; [done|].
    destruct Hlast as [(st & Hpd & _ & Hp & _)|(e & -> & Hp & _)].
    + left. eauto.
    + right. exists e. split; [|done].
      by rewrite Hj, app_assoc, last_snoc.
  - reflexivity.
  - intros env urls. unfold visit_all.
    destruct (visit_from_run env (Z.of_nat (length urls)) urls 0 [] w)
      as (w' & evs & -> & _).
    eauto.
Qed.

End CrawlFacts.

(** * Facts about the orchestrator *)

Module OrchestratorFacts.
Import Py PyIO Orchestrator.

(** A child that has written one progress state when the parent first
    polls, and ends with status 0. *)
Definition one_write_child : Child :=
  mkchild [[Progress.json_text (Progress.mkstate 1 4 25)]] 0 "[]" "".

Definition sys_of (c : Child) (decoded : outcome (gmap string Z)) : Sys :=
  mksys (λ _ _, c) (λ _, decoded) (λ _, Ok Frame.empty_frame).

(** [Popen] succeeds; opening the progress file for reading is refused. *)
Definition locked_read : world :=
  mkworld ∅ [None; Some PermissionError] [] [].

(** C8 fails on the path through the outer handler: an exception raised
    in the polling loop, other than the two that [read_progress]
    catches, ends [run_scraper_subprocess] with an empty frame and
    without the clean-up; the progress file the child wrote is still
    there. *)
Theorem cleanup_skipped_by_handler (decoded : outcome (gmap string Z)) :
  let res := run_scraper_subprocess (sys_of one_write_child decoded)
               "https://www.yad2.co.il/vehicles/cars?page=1" 1 locked_read in
  res.1 = Ok 0%nat ∧
  heap res.2 !! 0%nat = Some Frame.empty_frame ∧
  files res.2 !! "progress.json"
    = Some (Progress.json_text (Progress.mkstate 1 4 25)) ∧
  Forall (λ ev, ∀ f, ev ≠ EvFs (OpRemove "progress.json") f) (journal res.2).
Proof.
  cbv zeta. split_and!; [reflexivity| reflexivity | vm_compute; reflexivity |].
  repeat constructor; intros f; discriminate.
Qed.

(** A child that has written nothing yet when the parent first polls. *)
Definition slow_child : Child :=
  mkchild [[]; [Progress.json_text (Progress.mkstate 1 4 25)]] 0 "[]" "".

(** A state left behind by such a run reads as complete: the next run
    stops polling at once, removes the file, and the file its own child
    then writes outlives the call although the child ends with status 0. *)
Lemma stale_state_outlives_next_run :
  let stale := Progress.json_text (Progress.mkstate 4 4 100) in
  let res := run_scraper_subprocess
               (sys_of slow_child (Ok {[ "progress_pct" := 100 ]}))
               "https://www.yad2.co.il/vehicles/cars?page=1" 1
               (mkworld {[ "progress.json" := stale ]} [] [] []) in
  res.1 = Ok 0%nat ∧
  files res.2 !! "progress.json"
    = Some (Progress.json_text (Progress.mkstate 1 4 25)).
Proof. cbv zeta. split; vm_compute; reflexivity. Qed.

(** On the paths the clean-up does reach, the file is gone when the call
    returns, whatever the child's exit status and output. *)
Lemma cleanup_on_exit (rc : Z) (out err : string) (listings : outcome Frame.DataFrame) :
  let res := run_scraper_subprocess
               (mksys (λ _ _, mkchild [] rc out err) (λ _, Raise JSONDecodeError)
                      (λ _, listings))
               "https://www.yad2.co.il/vehicles/cars?page=1" 1
               (mkworld {[ "progress.json" := "{}" ]} [] [] []) in
  files res.2 !! "progress.json" = None.
Proof.
  cbv zeta. unfold run_scraper_subprocess, try_except, bind. simpl.
  destruct (negb (rc =? 0)); simpl; [reflexivity|].
  destruct listings as [d|[]]; reflexivity.
Qed.

End OrchestratorFacts.

(** * The objects a computation leaves alone *)

Module HeapFacts.
Import Py PyFrame Frame.

(** [safe n Q m]: from a heap of at least [n] objects, [m] leaves the
    first [n] objects as they are, never shrinks the heap, and a value
    it returns satisfies [Q]. *)
Definition safe {A} (n : nat) (Q : A → Prop) (m : Py A) : Prop :=
  ∀ w, (n ≤ length (heap w))%nat →
    ∃ r w', m w = (r, w') ∧
      (length (heap w) ≤ length (heap w'))%nat ∧
      (∀ i, (i < n)%nat → heap w' !! i = heap w !! i) ∧
      ∀ a, r = Ok a → Q a.

Lemma safe_ret {A} n (Q : A → Prop) a : Q a → safe n Q (ret a).
Proof.
  intros HQ w Hn. exists (Ok a), w. split_and!; auto.
  by intros ? [= <-].
Qed.

Lemma safe_raise {A} n (Q : A → Prop) e : safe n Q (raise e).
Proof. intros w Hn. exists (Raise e), w. split_and!; auto. intros; done. Qed.

Lemma safe_lift {A} n (Q : A → Prop) x :
  (∀ a, x = Ok a → Q a) → safe n Q (lift x).
Proof. intros HQ w Hn. exists x, w. split_and!; auto. Qed.

Lemma safe_emit n ev : safe n (λ _, True) (emit ev).
Proof. intros w Hn. eexists _, _. split; [done|]. simpl. split_and!; auto. Qed.

Lemma safe_bind {A B} n (P : A → Prop) (Q : B → Prop) m k :
  safe n P m → (∀ a, P a → safe n Q (k a)) → safe n Q (bind m k).
Proof.
  intros Hm Hk w Hn. unfold bind.
  destruct (Hm w Hn) as (r & w1 & -> & Hl & Hh & HP).
  destruct r as [a|e].
  - destruct (Hk a (HP a eq_refl) w1 ltac:(lia)) as (r' & w2 & -> & Hl2 & Hh2 & HQ).
    exists r', w2. split_and!; auto; [lia|].
    intros i Hi. rewrite Hh2, Hh; auto.
  - exists (Raise e), w1. split_and!; auto. intros; done.
Qed.

Lemma safe_try_except {A} n (Q : A → Prop) body handler :
  safe n Q body → (∀ e, safe n Q (handler e)) → safe n Q (try_except body handler).
Proof.
  intros Hb Hh w Hn. unfold try_except.
  destruct (Hb w Hn) as (r & w1 & -> & Hl & Hh1 & HQ).
  destruct r as [a|e].
  - exists (Ok a), w1. split_and!; auto.
  - destruct (Hh e w1 ltac:(lia)) as (r' & w2 & -> & Hl2 & Hh2 & HQ2).
    exists r', w2. split_and!; auto; [lia|].
    intros i Hi. rewrite Hh2, Hh1; auto.
Qed.

Lemma safe_alloc n d : safe n (λ r, n ≤ r)%nat (alloc d).
Proof.
  intros w Hn. eexists _, _. split; [done|]. simpl. split_and!.
  - rewrite length_app. lia.
  - intros i Hi. apply lookup_app_l. lia.
  - by intros ? [= <-].
Qed.

Lemma safe_deref n r : safe n (λ _, True) (deref r).
Proof.
  intros w Hn. unfold deref. destruct (heap w !! r); eexists _, _; split; done.
Qed.

Lemma safe_store n r d : (n ≤ r)%nat → safe n (λ _, True) (store r d).
Proof.
  intros Hr w Hn. eexists _, _. split; [done|]. simpl. split_and!; auto.
  - by rewrite length_insert.
  - intros i Hi. apply list_lookup_insert_ne. lia.
Qed.

Lemma safe_df_copy n df : safe n (λ r, n ≤ r)%nat (df_copy df).
Proof.
  eapply safe_bind; [apply safe_deref|]. intros d _. apply safe_alloc.
Qed.

Lemma safe_df_new n f df : safe n (λ r, n ≤ r)%nat (df_new f df).
Proof.
  eapply safe_bind; [apply safe_deref|]. intros d _.
  eapply safe_bind; [by apply (safe_lift _ (λ _, True))|]. intros d' _.
  apply safe_alloc.
Qed.

Lemma safe_df_assign n df c rhs :
  (n ≤ df)%nat → safe n (λ _, True) (df_assign df c rhs).
Proof.
  intros Hdf.
  eapply safe_bind; [apply safe_deref|]. intros d _.
  eapply safe_bind; [by apply (safe_lift _ (λ _, True))|]. intros vs _.
  eapply safe_bind; [by apply (safe_lift _ (λ _, True))|]. intros d' _.
  by apply safe_store.
Qed.

Lemma safe_df_has_column n df c : safe n (λ _, True) (df_has_column df c).
Proof.
  eapply safe_bind; [apply safe_deref|]. intros d _. by apply safe_ret.
Qed.

End HeapFacts.


(** * Facts about frames and about runs that return *)

Module FrameFacts.
Import Py PyFrame Frame.

Lemma obind_Ok {A B} (x : outcome A) (f : A → outcome B) b :
  obind x f = Ok b → ∃ a, x = Ok a ∧ f a = Ok b.
Proof. destruct x; simpl; eauto. done. Qed.

Lemma omap_ok_Ok {A B} (f : A → B) (x : outcome A) b :
  omap_ok f x = Ok b → ∃ a, x = Ok a ∧ b = f a.
Proof. destruct x; simpl; [|done]. intros [= <-]. eauto. Qed.

Lemma omapM_Ok {A B} (f : A → outcome B) l l' :
  omapM f l = Ok l' → Forall2 (λ a b, f a = Ok b) l l'.
Proof.
  revert l'. induction l as [|a l IH]; intros l'; simpl.
  - intros [= <-]. constructor.
  - intros H. apply obind_Ok in H as (b & Hb & H).
    apply obind_Ok in H as (bs & Hbs & [= <-]). constructor; auto.
Qed.

Lemma col_Ok c d s : col c d = Ok s → s = map (cell c) (rows d).
Proof. unfold col. destruct (has_column c d); [|done]. by intros [= <-]. Qed.

Lemma cell_insert c c' v (r : gmap string value) :
  cell c' (<[c := v]> r) = if decide (c = c') then v else cell c' r.
Proof.
  unfold cell. destruct (decide (c = c')) as [->|Hne].
  - by rewrite lookup_insert_eq.
  - by rewrite lookup_insert_ne.
Qed.

Lemma setcol_Ok c vs d d' :
  setcol c vs d = Ok d' →
  length vs = length (rows d) ∧
  rows d' = zip_with (λ r v, <[c := v]> r) (rows d) vs.
Proof.
  unfold setcol. case_bool_decide; [|done]. by intros [= <-].
Qed.

(** Every row after [df[c] = vs] is a row before it with its new cell. *)
Lemma setcol_rows c vs d d' row' :
  setcol c vs d = Ok d' → row' ∈ rows d' →
  ∃ i row v, rows d !! i = Some row ∧ vs !! i = Some v ∧ row' = <[c := v]> row.
Proof.
  intros H Hin. apply setcol_Ok in H as [_ E]. rewrite E in Hin.
  apply elem_of_lookup_zip_with in Hin as (i & row & v & -> & ? & ?).
  exists i, row, v. done.
Qed.

Lemma select_Ok mask d d' :
  select mask d = Ok d' →
  columns d' = columns d ∧
  ∀ row, row ∈ rows d' ↔ ∃ i, rows d !! i = Some row ∧ mask !! i = Some true.
Proof.
  unfold select. case_bool_decide as Hl; [|done]. intros [= <-]. simpl.
  split; [done|]. intros row. rewrite list_elem_of_fmap. split.
  - intros ([r b] & -> & Hin). apply list_elem_of_In, filter_In in Hin as [Hin Hb].
    simpl in Hb. subst b. apply list_elem_of_In, list_elem_of_lookup in Hin as [i Hi].
    apply lookup_zip_with_Some in Hi as (r' & b' & [= <- <-] & ? & ?). eauto.
  - intros (i & Hr & Hm). exists (row, true). split; [done|].
    apply list_elem_of_In, filter_In. split; [|done].
    apply list_elem_of_In, list_elem_of_lookup. exists i.
    apply lookup_zip_with_Some. eauto.
Qed.

End FrameFacts.

Module RunFacts.
Import Py PyFrame Frame.

Lemma bind_Ok {A B} (m : Py A) (k : A → Py B) w b w' :
  bind m k w = (Ok b, w') → ∃ a w1, m w = (Ok a, w1) ∧ k a w1 = (Ok b, w').
Proof.
  unfold bind. destruct (m w) as [[a|e] w1]; [eauto|done].
Qed.

Lemma lift_Ok {A} (x : outcome A) w a w' :
  lift x w = (Ok a, w') → x = Ok a ∧ w' = w.
Proof. unfold lift. by intros [= -> ->]. Qed.

Lemma ret_Ok {A} (x : A) w a w' : ret x w = (Ok a, w') → a = x ∧ w' = w.
Proof. unfold ret. by intros [= -> ->]. Qed.

Lemma deref_Ok r w d w' : deref r w = (Ok d, w') → heap w !! r = Some d ∧ w' = w.
Proof. unfold deref. destruct (heap w !! r); [|done]. by intros [= -> ->]. Qed.

Lemma lookup_snoc_length {A} (l : list A) x : (l ++ [x]) !! length l = Some x.
Proof. by rewrite lookup_app_r, Nat.sub_diag. Qed.

Lemma df_copy_Ok df w r w' :
  df_copy df w = (Ok r, w') →
  ∃ d, heap w !! df = Some d ∧ heap w' !! r = Some d.
Proof.
  intros H. apply bind_Ok in H as (d & w1 & Hd & H).
  apply deref_Ok in Hd as [Hd ->]. injection H as <- <-. simpl.
  exists d. split; [done|]. apply lookup_snoc_length.
Qed.

Lemma df_new_Ok f df w r w' :
  df_new f df w = (Ok r, w') →
  ∃ d d', heap w !! df = Some d ∧ f d = Ok d' ∧ heap w' !! r = Some d'.
Proof.
  intros H. apply bind_Ok in H as (d & w1 & Hd & H).
  apply deref_Ok in Hd as [Hd ->].
  apply bind_Ok in H as (d' & w1 & Hf & H). apply lift_Ok in Hf as [Hf ->].
  injection H as <- <-. simpl.
  exists d, d'. split_and!; try done. apply lookup_snoc_length.
Qed.

Lemma df_assign_Ok df c rhs w u w' :
  df_assign df c rhs w = (Ok u, w') →
  ∃ d vs d', heap w !! df = Some d ∧ rhs d = Ok vs ∧ setcol c vs d = Ok d' ∧
             heap w' !! df = Some d'.
Proof.
  intros H. apply bind_Ok in H as (d & w1 & Hd & H).
  apply deref_Ok in Hd as [Hd ->].
  apply bind_Ok in H as (vs & w1 & Hf & H). apply lift_Ok in Hf as [Hf ->].
  apply bind_Ok in H as (d' & w1 & Hs & H). apply lift_Ok in Hs as [Hs ->].
  injection H as <- <-. simpl.
  exists d, vs, d'. split_and!; try done.
  apply list_lookup_insert_eq. by eapply lookup_lt_Some.
Qed.

Lemma df_has_column_Ok df c w b w' :
  df_has_column df c w = (Ok b, w') →
  ∃ d, heap w !! df = Some d ∧ b = has_column c d ∧ w' = w.
Proof.
  intros H. apply bind_Ok in H as (d & w1 & Hd & H).
  apply deref_Ok in Hd as [Hd ->]. injection H as <- <-. eauto.
Qed.

End RunFacts.

(** * Facts about the pipeline *)

Module PipelineFacts.
Import Py PyFrame Frame Pipeline HeapFacts FrameFacts RunFacts.

Ltac safe_step :=
  first
    [ apply safe_ret; done
    | apply safe_raise
    | apply safe_df_copy
    | apply safe_df_new
    | eapply safe_bind;
      [ first [ apply safe_df_copy | apply safe_df_new
              | apply safe_df_assign; done | apply safe_df_has_column
              | apply safe_deref | apply safe_emit
              | apply (safe_lift _ (λ _, True)); done ]
      | intros ? ?; cbv beta in * ] ].

Lemma safe_drop_price_outliers n df price_col ratio_thresh :
  safe n (λ r, n ≤ r)%nat (drop_price_outliers_by_title df price_col ratio_thresh).
Proof.
  unfold drop_price_outliers_by_title.
  safe_step. safe_step. destruct (negb _); [apply safe_raise|].
  repeat safe_step.
Qed.

Lemma safe_join_title_aggregates L n df :
  (n ≤ df)%nat → safe n (λ r, n ≤ r)%nat (join_title_aggregates L df).
Proof.
  intros Hdf w Hn. unfold join_title_aggregates.
  assert (Hm : safe n (λ r, n ≤ r)%nat
                 (let* title_ref := lift (read_title_ref L) in
                  df_new (λ d, merge_left "title" d title_ref) df)).
  { safe_step. apply safe_df_new. }
  destruct (Hm w Hn) as ([merged|e] & w1 & -> & Hl1 & Hh1 & HQ1).
  - destruct (safe_df_new n (dropna "avg_price_by_title") merged w1 ltac:(lia))
      as ([df'|e] & w2 & -> & Hl2 & Hh2 & HQ2).
    + exists (Ok df'), w2. split_and!; auto; [lia|].
      intros i Hi. rewrite Hh2, Hh1; auto.
    + eexists _, _. split; [done|]. simpl.
      split; [lia|]. split; [intros i Hi; rewrite Hh2, Hh1; auto|].
      intros a [= <-]. auto.
  - eexists _, _. split; [done|]. simpl.
    split; [lia|]. split; [done|]. intros a [= <-]. auto.
Qed.

Lemma safe_preprocess L n df :
  safe n (λ r, n ≤ r)%nat (preprocess_car_data L df).
Proof.
  unfold preprocess_car_data.
  do 18 safe_step.
  eapply safe_bind; [by apply safe_join_title_aggregates|]. intros ? ?.
  eapply safe_bind; [by apply safe_drop_price_outliers|]. intros ? ?.
  cbv beta in *. repeat safe_step.
Qed.

Lemma safe_predict L n df : safe n (λ r, n ≤ r)%nat (predict_prices L df).
Proof. unfold predict_prices. repeat safe_step. Qed.

Lemma safe_add_price_diff n df :
  safe n (λ r, n ≤ r)%nat (add_price_diff_features df).
Proof.
  unfold add_price_diff_features. do 3 safe_step.
  eapply safe_bind; [|intros ? ?; by apply safe_ret].
  destruct a1; by apply safe_df_assign.
Qed.


(** The ratio of a row lies strictly between [lo] and [hi]. *)
Definition ratio_within (price_col : string) (lo hi : float)
    (row : gmap string value) : Prop :=
  ∃ a p, num (cell "avg_price_by_title" row) = Ok (Some a) ∧
         num (cell price_col row) = Ok (Some p) ∧
         PrimFloat.ltb lo (a / p) = true ∧ PrimFloat.ltb (a / p) hi = true.

Lemma in_band_true x y q ratio_thresh lo price_col row :
  x = cell "avg_price_by_title" row → y = cell price_col row →
  arith PrimFloat.div x y = Ok q →
  in_band ratio_thresh lo q = Ok true ↔
  ratio_within price_col lo (PyFloat.lit ratio_thresh) row.
Proof.
  intros -> -> Hq. unfold arith in Hq.
  apply obind_Ok in Hq as (a & Ha & Hq). apply obind_Ok in Hq as (p & Hp & Hq).
  unfold ratio_within. rewrite Ha, Hp.
  destruct a as [a|], p as [p|]; injection Hq as <-;
    unfold in_band; cbn [num obind].
  - split.
    + intros [= H]. apply andb_prop in H as [? ?]. exists a, p. done.
    + intros (a' & p' & [= <-] & [= <-] & H1 & H2).
      f_equal. apply andb_true_intro. done.
  - split; [done|]. intros (a' & p' & _ & [=] & _).
  - split; [done|]. intros (a' & p' & [=] & _).
  - split; [done|]. intros (a' & p' & [=] & _).
Qed.

Lemma outlier_filter_run df price_col ratio_thresh w r w' :
  drop_price_outliers_by_title df price_col ratio_thresh w = (Ok r, w') →
  ∃ d d' lo,
    heap w !! df = Some d ∧ heap w' !! r = Some d' ∧
    has_column "avg_price_by_title" d = true ∧
    PyFloat.true_div 1 ratio_thresh = Ok lo ∧
    columns d' = columns d ∧
    ∀ row, row ∈ rows d' ↔
      row ∈ rows d ∧ ratio_within price_col lo (PyFloat.lit ratio_thresh) row.
Proof.
  unfold drop_price_outliers_by_title. intros H.
  apply bind_Ok in H as (df1 & w1 & Hc & H). apply df_copy_Ok in Hc as (d & Hd & Hd1).
  apply bind_Ok in H as (b & w2 & Hb & H).
  apply df_has_column_Ok in Hb as (d0 & Hd0 & -> & ->).
  rewrite Hd1 in Hd0. injection Hd0 as <-.
  destruct (has_column "avg_price_by_title" d) eqn:Hcol; [|done]. simpl in H.
  apply bind_Ok in H as (d0 & w2 & Hd0 & H). apply deref_Ok in Hd0 as [Hd0 ->].
  rewrite Hd1 in Hd0. injection Hd0 as <-.
  apply bind_Ok in H as (ratio & w2 & Hr & H). apply lift_Ok in Hr as [Hr ->].
  apply bind_Ok in H as (lo & w2 & Hlo & H). apply lift_Ok in Hlo as [Hlo ->].
  apply bind_Ok in H as (mask & w2 & Hm & H). apply lift_Ok in Hm as [Hm ->].
  apply bind_Ok in H as (df2 & w2 & Hs & H).
  apply df_new_Ok in Hs as (d0 & d2 & Hd0 & Hsel & Hd2).
  rewrite Hd1 in Hd0. injection Hd0 as <-.
  apply df_copy_Ok in H as (d0 & Hd0 & Hr').
  rewrite Hd2 in Hd0. injection Hd0 as <-.
  exists d, d2, lo. split_and!; try done.
  { by apply select_Ok in Hsel as [? _]. }
  apply obind_Ok in Hr as (a & Ha & Hr). apply obind_Ok in Hr as (p & Hp & Hr).
  apply col_Ok in Ha as ->. apply col_Ok in Hp as ->.
  apply omapM_Ok in Hr. apply omapM_Ok in Hm.
  assert (Hi : ∀ i row, rows d !! i = Some row →
            ∃ q b, arith PrimFloat.div (cell "avg_price_by_title" row)
                         (cell price_col row) = Ok q ∧
                   in_band ratio_thresh lo q = Ok b ∧ mask !! i = Some b).
  { intros i row Hrow.
    assert (Hz : zip (map (cell "avg_price_by_title") (rows d))
                     (map (cell price_col) (rows d)) !! i
                 = Some (cell "avg_price_by_title" row, cell price_col row)).
    { apply lookup_zip_with_Some. eexists _, _. split; [done|].
      by rewrite !list_lookup_fmap, Hrow. }
    destruct (Forall2_lookup_l _ _ _ _ _ Hr Hz) as (q & Hq & Hq').
    destruct (Forall2_lookup_l _ _ _ _ _ Hm Hq) as (b & Hb & Hb').
    eauto. }
  apply select_Ok in Hsel as [_ Hsel]. intros row. rewrite Hsel. split.
  - intros (i & Hrow & Hmi). destruct (Hi i row Hrow) as (q & b & Hq & Hb & Hmb).
    rewrite Hmi in Hmb. injection Hmb as <-.
    split; [by eapply list_elem_of_lookup_2|].
    by eapply in_band_true.
  - intros [Hin Hw]. apply list_elem_of_lookup in Hin as [i Hrow].
    destruct (Hi i row Hrow) as (q & b & Hq & Hb & Hmb).
    exists i. split; [done|]. rewrite Hmb. f_equal.
    eapply in_band_true in Hw; [|done|done|exact Hq]. congruence.
Qed.


(** Objects of [w] after a call that ended in [res]: each is as it was,
    and the index returned names none of them. *)
Definition untouched (w : world) (res : outcome nat * world) : Prop :=
  (∀ i d, heap w !! i = Some d → heap res.2 !! i = Some d) ∧
  (∀ r, res.1 = Ok r → heap w !! r = None).

Lemma safe_untouched m w :
  safe (length (heap w)) (λ r, length (heap w) ≤ r)%nat m → untouched w (m w).
Proof.
  intros Hm. destruct (Hm w (le_n _)) as (r & w' & -> & _ & Hh & HQ). split; simpl.
  - intros i d Hi. rewrite Hh; [done|]. by eapply lookup_lt_Some.
  - intros r' ->. apply lookup_ge_None. by apply HQ.
Qed.

(** C9: cleaning, prediction and scoring each work on a copy: whatever
    the frame and whether the stage returns or raises, every frame that
    existed before the call, the argument among them, has the same
    columns, rows and values after it, and the frame returned is a new
    object. *)
Theorem stages_leave_their_argument (L : Pandas) (df : nat) (w : world) :
  untouched w (preprocess_car_data L df w) ∧
  untouched w (predict_prices L df w) ∧
  untouched w (add_price_diff_features df w).
Proof.
  split_and!; apply safe_untouched.
  - apply safe_preprocess.
  - apply safe_predict.
  - apply safe_add_price_diff.
Qed.

Definition priced (id : string) (avg price : Z) : gmap string value :=
  {[ "listing_id" := VStr id;
     "avg_price_by_title" := VFloat (PyFloat.lit avg);
     "price" := VFloat (PyFloat.lit price) ]}.

(** Ratios 20, 2, exactly 10 and exactly one tenth. *)
Definition four_prices : DataFrame :=
  mkframe ["listing_id"; "avg_price_by_title"; "price"]
          [ priced "a" 100000 5000; priced "b" 100000 50000;
            priced "c" 100000 10000; priced "d" 100000 1000000 ].

(** C3: the filter keeps exactly the rows whose ratio, as computed, is
    strictly above one tenth and strictly below ten; a row whose ratio
    equals a bound is dropped. *)
Theorem outlier_filter_open_band (df : nat) (w : world) (r : nat) :
  (drop_price_outliers_by_title df "price" 10 w).1 = Ok r →
  ∃ d d' tenth,
    heap w !! df = Some d ∧
    heap (drop_price_outliers_by_title df "price" 10 w).2 !! r = Some d' ∧
    PyFloat.true_div 1 10 = Ok tenth ∧
    (∀ row, row ∈ rows d' ↔
       row ∈ rows d ∧
       ∃ a p, num (cell "avg_price_by_title" row) = Ok (Some a) ∧
              num (cell "price" row) = Ok (Some p) ∧
              PrimFloat.ltb tenth (a / p) = true ∧
              PrimFloat.ltb (a / p) (PyFloat.lit 10) = true) ∧
    (∀ row a p,
       num (cell "avg_price_by_title" row) = Ok (Some a) →
       num (cell "price" row) = Ok (Some p) →
       (a / p)%float = tenth ∨ (a / p)%float = PyFloat.lit 10 →
       row ∉ rows d').
Proof.
  intros H.
  destruct (drop_price_outliers_by_title df "price" 10 w) as [res w'] eqn:E.
  simpl in H. subst res. simpl.
  apply outlier_filter_run in E as (d & d' & lo & Hd & Hd' & _ & Hlo & _ & Hrows).
  exists d, d', lo. split_and!; try done.
  intros row a p Ha Hp Hb Hin. apply Hrows in Hin as [_ (a' & p' & Ha' & Hp' & H1 & H2)].
  rewrite Ha in Ha'. rewrite Hp in Hp'. injection Ha' as <-. injection Hp' as <-.
  destruct Hb as [E|E]; rewrite E in *.
  - by rewrite FloatFacts.ltb_irrefl in H1.
  - by rewrite FloatFacts.ltb_irrefl in H2.
Qed.

Lemma outlier_filter_open_band_witness :
  ∃ d d' tenth,
    heap (mkworld ∅ [] [] [four_prices]) !! 0%nat = Some d ∧
    heap (drop_price_outliers_by_title 0 "price" 10
            (mkworld ∅ [] [] [four_prices])).2 !! 3%nat = Some d' ∧
    PyFloat.true_div 1 10 = Ok tenth ∧
    (∀ row, row ∈ rows d' ↔
       row ∈ rows d ∧
       ∃ a p, num (cell "avg_price_by_title" row) = Ok (Some a) ∧
              num (cell "price" row) = Ok (Some p) ∧
              PrimFloat.ltb tenth (a / p) = true ∧
              PrimFloat.ltb (a / p) (PyFloat.lit 10) = true) ∧
    (∀ row a p,
       num (cell "avg_price_by_title" row) = Ok (Some a) →
       num (cell "price" row) = Ok (Some p) →
       (a / p)%float = tenth ∨ (a / p)%float = PyFloat.lit 10 →
       row ∉ rows d').
Proof.
  apply (outlier_filter_open_band 0 (mkworld ∅ [] [] [four_prices]) 3).
  vm_compute. reflexivity.
Defined.

(** The examples of the specification: ratio 20 is dropped, ratio 2 is
    kept; so are dropped the ratios 10 and one tenth. *)
Lemma outlier_filter_examples :
  rows <$> heap (drop_price_outliers_by_title 0 "price" 10
                   (mkworld ∅ [] [] [four_prices])).2 !! 3%nat
  = Some [priced "b" 100000 50000].
Proof. vm_compute. reflexivity. Qed.


Lemma setcol_has_column c vs d d' c' :
  setcol c vs d = Ok d' → has_column c' d = true → has_column c' d' = true.
Proof.
  unfold setcol. case_bool_decide; [|done]. intros [= <-] Hc.
  unfold has_column in *. simpl. destruct (bool_decide (c ∈ columns d)); [done|].
  apply bool_decide_eq_true in Hc. apply bool_decide_eq_true.
  apply elem_of_app. by left.
Qed.

Lemma merge_left_rows key left right m row' :
  merge_left key left right = Ok m → row' ∈ rows m →
  ∃ l, l ∈ rows left ∧
    ∀ c, has_column c left = true → c ∉ columns right → cell c row' = cell c l.
Proof.
  unfold merge_left. destruct (negb _); [done|].
  case_bool_decide as Hnd; [|done]. intros [= <-]. simpl. intros Hin.
  apply list_elem_of_In, in_concat in Hin as (rs & Hrs & Hrow).
  apply list_elem_of_In in Hrs, Hrow.
  apply list_elem_of_fmap in Hrs as (l & -> & Hl).
  exists l. split; [done|]. intros c Hc Hnr.
  apply bool_decide_eq_true in Hc.
  apply NoDup_app in Hnd as (Hnd & _ & _).
  set (fl := suffixed "_x" key (columns right)) in *.
  set (lrow := rename_row fl (columns left) l) in *.
  assert (Hl' : lrow !! c = Some (cell c l)).
  { unfold lrow, rename_row. apply elem_of_list_to_map_1.
    - by rewrite <- list_fmap_compose.
    - apply list_elem_of_fmap. exists c. split; [|done]. f_equal.
      unfold fl, suffixed. rewrite bool_decide_eq_false_2; [done|].
      intros [_ ?]. done. }
  assert (Hu : ∀ X : gmap string value, cell c (lrow ∪ X) = cell c l).
  { intros X. unfold cell at 1. by rewrite (lookup_union_Some_l _ _ _ _ Hl'). }
  destruct (List.filter _ (rows right)) as [|r0 ms].
  - apply list_elem_of_singleton in Hrow as ->. apply Hu.
  - apply elem_of_cons in Hrow as [->|Hrow]; [apply Hu|].
    apply list_elem_of_fmap in Hrow as (r & -> & _). apply Hu.
Qed.

Lemma dropna_rows c d d' row :
  dropna c d = Ok d' → row ∈ rows d' → row ∈ rows d.
Proof.
  unfold dropna. destruct (has_column c d); [|done]. intros [= <-]. simpl.
  intros H. apply list_elem_of_In, filter_In in H as [H _]. by apply list_elem_of_In.
Qed.

Lemma df_new_Raise f df w e w' : df_new f df w = (Raise e, w') → w' = w.
Proof.
  unfold df_new, bind, deref, lift, alloc.
  destruct (heap w !! df); [|by intros [= _ <-]].
  destruct (f d); [done|]. by intros [= _ <-].
Qed.

(** The frame after step 8 holds rows of the frame before it, or rows of
    its join with the title aggregates. *)
Lemma join_title_aggregates_Ok L df w r w' d :
  heap w !! df = Some d →
  join_title_aggregates L df w = (Ok r, w') →
  ∃ d', heap w' !! r = Some d' ∧
    (rows d' = rows d ∨
     ∃ ref m, read_title_ref L = Ok ref ∧ merge_left "title" d ref = Ok m ∧
              ∀ row, row ∈ rows d' → row ∈ rows m).
Proof.
  intros Hd. unfold join_title_aggregates.
  destruct (bind (lift (read_title_ref L)) _ w) as [[merged|e] w1] eqn:E.
  - apply bind_Ok in E as (ref & w0 & Hr & E). apply lift_Ok in Hr as [Hr ->].
    apply df_new_Ok in E as (d0 & m & Hd0 & Hm & Hm').
    rewrite Hd in Hd0. injection Hd0 as <-.
    destruct (df_new (dropna "avg_price_by_title") merged w1) as [[df'|e] w2] eqn:E2.
    + intros [= <- <-]. apply df_new_Ok in E2 as (m0 & d' & Hm0 & Hdrop & Hd').
      rewrite Hm' in Hm0. injection Hm0 as <-.
      exists d'. split; [done|]. right. exists ref, m. split_and!; try done.
      intros row. by apply (dropna_rows "avg_price_by_title").
    + apply df_new_Raise in E2 as ->. intros [= <- <-]. simpl.
      exists m. split; [done|]. right. exists ref, m. done.
  - intros [= <- <-]. simpl. exists d. split; [|by left].
    unfold bind, lift in E. destruct (read_title_ref L) as [ref|].
    + apply df_new_Raise in E as ->. done.
    + injection E as _ <-. done.
Qed.


Lemma omapM_lookup {A B} (f : A → outcome B) l l' i a :
  omapM f l = Ok l' → l !! i = Some a → ∃ b, l' !! i = Some b ∧ f a = Ok b.
Proof.
  intros H Hi. apply omapM_Ok in H.
  destruct (Forall2_lookup_l _ _ _ _ _ H Hi) as (b & ? & ?). eauto.
Qed.


Lemma col_lookup c d s i row :
  col c d = Ok s → rows d !! i = Some row → s !! i = Some (cell c row).
Proof. intros H Hi. apply col_Ok in H as ->. by rewrite list_lookup_fmap, Hi. Qed.








Ltac skip_new H :=
  let Ha := fresh "Ha" in
  apply bind_Ok in H as (? & ? & Ha & H); clear Ha.



(** ** A sample run *)

Fixpoint digits_value (s : string) (acc : Z) : option Z :=
  match s with
  | EmptyString => Some acc
  | String c rest =>
      let n := Z.of_nat (nat_of_ascii c) in
      if (48 <=? n) && (n <=? 57) then digits_value rest (10 * acc + (n - 48))
      else None
  end.

Fixpoint keep_numeric (s : string) : string :=
  match s with
  | EmptyString => EmptyString
  | String c rest =>
      let n := Z.of_nat (nat_of_ascii c) in
      if (48 <=? n) && (n <=? 57) || (n =? 46) then String c (keep_numeric rest)
      else keep_numeric rest
  end.

Definition sample_aggregates : DataFrame :=
  mkframe [ "title"; "avg_price_by_title"; "avg_mileage_by_title";
            "avg_months_on_road_by_title"; "std_error_pct" ]
    [ {[ "title" := VStr "Mazda 3";
         "avg_price_by_title" := VFloat (PyFloat.lit 100000);
         "avg_mileage_by_title" := VFloat (PyFloat.lit 80000);
         "avg_months_on_road_by_title" := VFloat (PyFloat.lit 50);
         "std_error_pct" := VFloat (PyFloat.lit 10) ]} ].

(** Every upload date reads as 15 June 2024 and every test date as
    1 March 2024, three months earlier; the model predicts the price in
    the column [model_price]. *)
Definition sample_pandas : Pandas :=
  mkpandas
    (λ v, match v with VStr s => s | _ => "None" end)
    keep_numeric
    (λ v, match v with
          | VStr s => if decide (s = "") then None
                      else PyFloat.lit <$> digits_value s 0
          | _ => None
          end)
    (λ fmt s, map (λ _, match fmt with
                        | Some _ => Some (mkdate 2024 6 15)
                        | None => Some (mkdate 2024 3 1)
                        end) s)
    (λ _ _, Some (mkdate 2019 6 1))
    (Ok sample_aggregates)
    (λ d, omapM (λ row, match cell "model_price" row with
                        | VFloat x => Ok x
                        | _ => Raise TypeError
                        end) (rows d)).

Definition listing (id price : string) (model_price : Z) : gmap string value :=
  {[ "listing_id" := VStr id; "title" := VStr "Mazda 3"; "price" := VStr price;
     "mileage" := VStr "90,000"; "engine_volume" := VStr "1,600";
     "upload_date" := VStr "15/06/24"; "test_date" := VStr "03/2024";
     "on_road_date" := VNull; "year_summary" := VStr "2019";
     "model_price" := VFloat (PyFloat.lit model_price) ]}.

(** Two listings of one title, 15% above and 15% below the predicted
    price, the first of them scraped twice. *)
Definition sample_listings : DataFrame :=
  mkframe [ "listing_id"; "title"; "price"; "mileage"; "engine_volume";
            "upload_date"; "test_date"; "on_road_date"; "year_summary";
            "model_price" ]
    [ listing "1" "115,000" 100000; listing "2" "85000" 100000;
      listing "1" "115,000" 100000 ].

Definition sample_world : world := mkworld ∅ [] [] [sample_listings].



(** The example of the specification: a test date three months before
    the upload date gives 0. *)
Lemma months_to_test_example :
  map (cell "months_to_test") <$>
    (rows <$> heap (preprocess_car_data sample_pandas 0 sample_world).2 !! 9%nat)
  = Some [VInt 0; VInt 0].
Proof. vm_compute. reflexivity. Qed.

End PipelineFacts.

(** * Facts about the ranking *)

Module SortFacts.
Import Evaluate FloatFacts.

Section sort.
Context {A : Type} (key : A → float).

(** [a] may stand before [b]: the key of [b] is at most that of [a]. *)
Definition before (a b : A) : Prop := PrimFloat.leb (key b) (key a) = true.

Definition has_key (a : A) : Prop := PrimFloat.is_nan (key a) = false.

Lemma insert_desc_perm x l : insert_desc key x l ≡ₚ x :: l.
Proof.
  induction l as [|y l IH]; simpl; [done|].
  destruct (PrimFloat.leb (key y) (key x)); [done|].
  rewrite IH. apply Permutation_swap.
Qed.

Lemma sort_desc_perm l : sort_desc key l ≡ₚ l.
Proof.
  induction l as [|x l IH]; simpl; [done|].
  unfold sort_desc in *. simpl. by rewrite insert_desc_perm, IH.
Qed.

Lemma before_trans a b c : before a b → before b c → before a c.
Proof. unfold before. intros H1 H2. by eapply leb_trans. Qed.

Lemma insert_desc_sorted x l :
  has_key x → Forall has_key l →
  StronglySorted before l → StronglySorted before (insert_desc key x l).
Proof.
  intros Hx Hl Hs. induction Hs as [|y l Hs IH Hy]; simpl.
  - repeat constructor.
  - apply Forall_cons in Hl as [Hky Hl].
    destruct (PrimFloat.leb (key y) (key x)) eqn:E.
    + constructor; [by constructor|]. constructor; [done|].
      eapply Forall_impl; [exact Hy|]. intros z Hz. by eapply before_trans.
    + constructor; [by apply IH|].
      rewrite insert_desc_perm. constructor; [|done].
      unfold before. apply ltb_leb. by apply not_leb_ltb.
Qed.

Lemma sort_desc_sorted l :
  Forall has_key l → StronglySorted before (sort_desc key l).
Proof.
  induction l as [|x l IH]; intros Hl; [constructor|].
  apply Forall_cons in Hl as [Hx Hl]. unfold sort_desc in *. simpl.
  apply insert_desc_sorted; auto.
  eapply Forall_forall. intros y Hy.
  eapply Forall_forall in Hl; [exact Hl|].
  by rewrite <- (sort_desc_perm l).
Qed.

Lemma sorted_lookup l i j a b :
  StronglySorted before l → (i < j)%nat →
  l !! i = Some a → l !! j = Some b → before a b.
Proof.
  intros Hs. revert i j. induction Hs as [|x l Hs IH Hx]; intros i j Hij Hi Hj.
  - done.
  - destruct i as [|i], j as [|j]; try lia; simpl in *.
    + injection Hi as <-. eapply Forall_forall in Hx; [exact Hx|].
      by eapply list_elem_of_lookup_2.
    + eapply IH; [|done..]. lia.
Qed.

End sort.
End SortFacts.

(** * Facts about evaluation *)

Module EvaluateFacts.
Import Py PyFrame Frame Pipeline Evaluate.
Import FloatFacts FrameFacts RunFacts PipelineFacts SortFacts.
Import CrawlFacts.

Lemma num_float v x : v = VFloat x → num v = Ok (Some x).
Proof. by intros ->. Qed.

(** After [sort_values], two rows with keys stand in the order of their
    keys, the larger first. *)
Lemma sort_values_desc_Ok c d d' :
  sort_values_desc c d = Ok d' →
  columns d' = columns d ∧
  (∀ row, row ∈ rows d' → row ∈ rows d) ∧
  ∀ i j ri rj ki kj,
    (i < j)%nat → rows d' !! i = Some ri → rows d' !! j = Some rj →
    num (cell c ri) = Ok (Some ki) → num (cell c rj) = Ok (Some kj) →
    PrimFloat.is_nan ki = false → PrimFloat.is_nan kj = false →
    PrimFloat.leb kj ki = true.
Proof.
  unfold sort_values_desc. destruct (has_column c d); [|done]. intros H.
  apply obind_Ok in H as (keyed & Hk & [= <-]). simpl.
  apply omapM_Ok in Hk.
  set (present := omap _ keyed). set (missing := omap _ keyed).
  assert (Hkeyed : ∀ p, p ∈ keyed → p.1 ∈ rows d ∧ num (cell c p.1) = Ok p.2).
  { intros p Hp. apply list_elem_of_lookup in Hp as [i Hi].
    destruct (Forall2_lookup_r _ _ _ _ _ Hk Hi) as (row & Hrow & E).
    apply omap_ok_Ok in E as (k & E & ->). simpl.
    split; [by eapply list_elem_of_lookup_2|done]. }
  assert (Hpres : ∀ p, p ∈ present →
            p.1 ∈ rows d ∧ num (cell c p.1) = Ok (Some p.2) ∧
            PrimFloat.is_nan p.2 = false).
  { intros p Hp. apply list_elem_of_omap in Hp as ([row k] & Hin & E).
    destruct (Hkeyed _ Hin) as [Hr Hn]. simpl in *.
    destruct k as [k|]; [|done]. destruct (PrimFloat.is_nan k) eqn:En; [done|].
    injection E as <-. done. }
  assert (Hmiss : ∀ row, row ∈ missing →
            row ∈ rows d ∧
            (num (cell c row) = Ok None ∨
             ∃ k, num (cell c row) = Ok (Some k) ∧ PrimFloat.is_nan k = true)).
  { intros row Hp. apply list_elem_of_omap in Hp as ([row' k] & Hin & E).
    destruct (Hkeyed _ Hin) as [Hr Hn]. simpl in *.
    destruct k as [k|]; [destruct (PrimFloat.is_nan k) eqn:En; [|done]|];
      injection E as <-; eauto. }
  set (sorted := sort_desc snd present).
  assert (Hsorted : ∀ p, p ∈ sorted → p ∈ present).
  { intros p. unfold sorted. by rewrite sort_desc_perm. }
  split; [done|]. split.
  { intros row Hin. apply elem_of_app in Hin as [Hin|Hin].
    - apply list_elem_of_fmap in Hin as (p & -> & Hp).
      by apply Hsorted, Hpres in Hp as [? _].
    - by apply Hmiss in Hin as [? _]. }
  assert (Hat : ∀ i row k,
            (map fst sorted ++ missing) !! i = Some row →
            num (cell c row) = Ok (Some k) → PrimFloat.is_nan k = false →
            sorted !! i = Some (row, k)).
  { intros i row k Hi Hn Hnan.
    apply lookup_app_Some in Hi as [Hi|[_ Hi]].
    - rewrite list_lookup_fmap in Hi.
      destruct (sorted !! i) as [[row' k']|] eqn:Es; [|done].
      injection Hi as ->.
      assert (Hp : (row, k') ∈ sorted) by (by eapply list_elem_of_lookup_2).
      apply Hsorted, Hpres in Hp as (_ & Hn' & _). simpl in Hn'.
      rewrite Hn in Hn'. by injection Hn' as ->.
    - apply list_elem_of_lookup_2, Hmiss in Hi as [_ [Hi|(k' & Hi & Hk')]];
        rewrite Hn in Hi; [done|]. injection Hi as ->. congruence. }
  intros i j ri rj ki kj Hij Hi Hj Hni Hnj Hki Hkj.
  pose proof (Hat _ _ _ Hi Hni Hki) as Hsi.
  pose proof (Hat _ _ _ Hj Hnj Hkj) as Hsj.
  assert (Hs : StronglySorted (before snd) sorted).
  { apply sort_desc_sorted. apply Forall_forall. intros p Hp.
    by apply Hpres in Hp as (_ & _ & ?). }
  apply (sorted_lookup snd _ _ _ _ _ Hs Hij Hsi Hsj).
Qed.


Lemma arith_series_lookup op s1 s2 s i a b :
  arith_series op s1 s2 = Ok s → s1 !! i = Some a → s2 !! i = Some b →
  ∃ v, s !! i = Some v ∧ arith op a b = Ok v.
Proof.
  intros H Ha Hb. eapply (omapM_lookup _ _ _ i (a, b)) in H; [done|].
  apply lookup_zip_with_Some. eauto.
Qed.

Lemma arith_num op a b v x y :
  arith op a b = Ok v → num a = Ok (Some x) → num b = Ok (Some y) →
  v = VFloat (op x y).
Proof.
  unfold arith. intros H Ha Hb. rewrite Ha, Hb in H. simpl in H.
  by injection H as <-.
Qed.

Lemma setcol_has_column_ne c vs d d' c' :
  c ≠ c' → setcol c vs d = Ok d' → has_column c' d' = has_column c' d.
Proof.
  intros Hne. unfold setcol. case_bool_decide; [|done]. intros [= <-].
  unfold has_column. simpl. destruct (bool_decide (c ∈ columns d)); [done|].
  apply bool_decide_ext. rewrite elem_of_app, list_elem_of_singleton.
  split; [|by left]. intros [?|?]; [done|]. by subst.
Qed.

(** What scoring owes a row; [has_std] tells whether the frame has the
    column [std_error_pct]. *)
Definition scored (has_std : bool) (row : gmap string value) : Prop :=
  (∀ p q, num (cell "price" row) = Ok (Some p) →
          num (cell "predicted_price" row) = Ok (Some q) →
          cell "price_diff_pct" row
          = VFloat (PyFloat.lit 100 * (p - q) / q)%float) ∧
  (has_std = true →
   ∀ pct e, cell "price_diff_pct" row = VFloat pct →
            num (cell "std_error_pct" row) = Ok (Some e) →
            cell "price_diff_vs_error" row = VFloat (pct / e)%float) ∧
  (has_std = false → cell "price_diff_vs_error" row = VNull).

Lemma price_diff_pct_series_Ok d vs i row :
  price_diff_pct_series d = Ok vs → rows d !! i = Some row →
  ∃ v, vs !! i = Some v ∧
    ∀ p q, num (cell "price" row) = Ok (Some p) →
           num (cell "predicted_price" row) = Ok (Some q) →
           v = VFloat (PyFloat.lit 100 * (p - q) / q)%float.
Proof.
  unfold price_diff_pct_series. intros H Hrow.
  apply obind_Ok in H as (price & Hp & H).
  apply obind_Ok in H as (pred & Hq & H).
  apply obind_Ok in H as (diff & Hd & H).
  apply obind_Ok in H as (scaled & Hs & H).
  pose proof (col_lookup _ _ _ _ _ Hp Hrow) as Hpi.
  pose proof (col_lookup _ _ _ _ _ Hq Hrow) as Hqi.
  destruct (arith_series_lookup _ _ _ _ _ _ _ Hd Hpi Hqi) as (di & Hdi & Edi).
  destruct (omapM_lookup _ _ _ _ _ Hs Hdi) as (si & Hsi & Esi).
  destruct (arith_series_lookup _ _ _ _ _ _ _ H Hsi Hqi) as (v & Hv & Ev).
  exists v. split; [done|]. intros p q Hnp Hnq.
  pose proof (arith_num _ _ _ _ _ _ Edi Hnp Hnq) as ->.
  pose proof (arith_num _ _ _ _ _ _ Esi eq_refl eq_refl) as ->.
  by pose proof (arith_num _ _ _ _ _ _ Ev eq_refl Hnq) as ->.
Qed.

Lemma add_price_diff_features_Ok df w r w' :
  add_price_diff_features df w = (Ok r, w') →
  ∃ d', heap w' !! r = Some d' ∧
        Forall (scored (has_column "std_error_pct" d')) (rows d').
Proof.
  unfold add_price_diff_features. intros H.
  apply bind_Ok in H as (df1 & w1 & Hc & H). clear Hc.
  apply bind_Ok in H as (? & w2 & Ha & H).
  apply df_assign_Ok in Ha as (d0 & vs1 & d1 & _ & Hvs1 & Hs1 & Hd1).
  apply bind_Ok in H as (has & w3 & Hh & H).
  apply df_has_column_Ok in Hh as (d & Hd & -> & ->).
  rewrite Hd1 in Hd. injection Hd as <-.
  apply bind_Ok in H as (? & w4 & Ha & H). apply ret_Ok in H as [-> ->].
  assert (∃ vs2 d2,
            setcol "price_diff_vs_error" vs2 d1 = Ok d2 ∧
            heap w4 !! df1 = Some d2 ∧
            ∀ i row, rows d1 !! i = Some row → ∃ v, vs2 !! i = Some v ∧
              (has_column "std_error_pct" d1 = true →
               ∀ pct e, cell "price_diff_pct" row = VFloat pct →
                        num (cell "std_error_pct" row) = Ok (Some e) →
                        v = VFloat (pct / e)%float) ∧
              (has_column "std_error_pct" d1 = false → v = VNull))
    as (vs2 & d2 & Hs2 & Hd2 & Hvs2).
  { destruct (has_column "std_error_pct" d1) eqn:Hhas.
    - apply df_assign_Ok in Ha as (d & vs2 & d2 & Hd & Hvs2 & Hs2 & Hd2).
      rewrite Hd1 in Hd. injection Hd as <-.
      exists vs2, d2. split_and!; try done. intros i row Hrow.
      apply obind_Ok in Hvs2 as (p & Hp & Hvs2).
      apply obind_Ok in Hvs2 as (e & He & Hvs2).
      pose proof (col_lookup _ _ _ _ _ Hp Hrow) as Hpi.
      pose proof (col_lookup _ _ _ _ _ He Hrow) as Hei.
      destruct (arith_series_lookup _ _ _ _ _ _ _ Hvs2 Hpi Hei) as (v & Hv & Ev).
      exists v. split_and!; try done. intros _ pct e' Hpct Hstd.
      eapply arith_num; [exact Ev| |done]. by rewrite Hpct.
    - apply df_assign_Ok in Ha as (d & vs2 & d2 & Hd & Hvs2 & Hs2 & Hd2).
      rewrite Hd1 in Hd. injection Hd as <-. injection Hvs2 as <-.
      exists (map (λ _, VNull) (rows d1)), d2. split_and!; try done.
      intros i row Hrow. exists VNull. rewrite list_lookup_fmap, Hrow.
      split; [done|]. split; [intros; done|done]. }
  exists d2. split; [done|]. apply Forall_forall. intros row2 Hin.
  destruct (setcol_rows _ _ _ _ _ Hs2 Hin) as (i & row1 & v2 & Hrow1 & Hv2 & ->).
  destruct (Hvs2 i row1 Hrow1) as (v & Hv & Hyes & Hno).
  rewrite Hv2 in Hv. injection Hv as <-.
  pose proof Hs1 as Hs1'. apply setcol_Ok in Hs1' as [_ Hrows1].
  rewrite Hrows1 in Hrow1.
  apply lookup_zip_with_Some in Hrow1 as (row0 & v1 & -> & Hrow0 & Hv1).
  destruct (price_diff_pct_series_Ok _ _ _ _ Hvs1 Hrow0) as (v & Hv & Hpct).
  rewrite Hv1 in Hv. injection Hv as <-.
  assert (Hne : "price_diff_vs_error" ≠ "std_error_pct") by done.
  rewrite (setcol_has_column_ne _ _ _ _ _ Hne Hs2).
  unfold scored. rewrite !cell_insert in *.
  repeat (rewrite decide_False by done). repeat (rewrite decide_True by done).
  split_and!.
  - exact Hpct.
  - intros Hhas pct e Hp He. apply (Hyes Hhas pct e); [|done].
    by rewrite ?cell_insert, decide_True.
  - exact Hno.
Qed.


Lemma try_except_Ok {A} (body : Py A) handler w a w' :
  try_except body handler w = (Ok a, w') →
  body w = (Ok a, w') ∨ ∃ e w1, body w = (Raise e, w1) ∧ handler e w1 = (Ok a, w').
Proof.
  unfold try_except. destruct (body w) as [[a0|e] w1]; [by left|].
  intros H. right. eauto.
Qed.

Lemma emit_alloc_Ok ev d w r w' :
  (emit ev ;; alloc d) w = (Ok r, w') → heap w' !! r = Some d.
Proof. intros [= <- <-]. simpl. apply lookup_snoc_length. Qed.


(** What evaluation owes a row. *)
Definition ranked (has_std : bool) (row : gmap string value) : Prop :=
  scored has_std row ∧
  (∀ x, cell "price_diff_vs_error" row = VFloat x →
        cell "VFM Score" row = VFloat (- x)%float) ∧
  (cell "price_diff_vs_error" row = VNull → cell "VFM Score" row = VNull).

Lemma ranked_of_scored has vr vf row :
  scored has row →
  arith PrimFloat.mul (VFloat (PyFloat.lit (-1))) (cell "price_diff_vs_error" row)
    = Ok vf →
  ranked has (<["VFM Score" := vf]> (<["Recommendation" := vr]> row)).
Proof.
  intros Hs Hvf. unfold ranked, scored in *. rewrite !cell_insert.
  repeat (rewrite decide_False by done). repeat (rewrite decide_True by done).
  split; [done|]. split.
  - intros x Hx. rewrite Hx in Hvf.
    pose proof (arith_num _ _ _ _ _ _ Hvf eq_refl eq_refl) as ->.
    by rewrite mul_m1.
  - intros Hx. rewrite Hx in Hvf. by injection Hvf as <-.
Qed.




(** C1: the label of a row is a function of its [price_diff_vs_error]
    alone: a missing value (or NaN) gives "Not enough data", a value
    below -1 "Good deal", a value from -1 to 1, both included, "Fair
    price", and a value above 1 "Overpriced"; every number falls under
    exactly one of these. *)
Theorem recommendation_policy (row : gmap string value) (v : value) :
  row !! "price_diff_vs_error" = Some v →
  match v with
  | VNull => label_recommendation row = Ok "❔ Not enough data"
  | VFloat x =>
      (PrimFloat.is_nan x = true →
       label_recommendation row = Ok "❔ Not enough data") ∧
      (PrimFloat.ltb x (PyFloat.lit (-1)) = true →
       label_recommendation row = Ok "🔥 Good deal") ∧
      (PrimFloat.leb (PyFloat.lit (-1)) x = true →
       PrimFloat.leb x (PyFloat.lit 1) = true →
       label_recommendation row = Ok "✅ Fair price") ∧
      (PrimFloat.ltb (PyFloat.lit 1) x = true →
       label_recommendation row = Ok "💸 Overpriced") ∧
      (PrimFloat.is_nan x = true ∨
       PrimFloat.ltb x (PyFloat.lit (-1)) = true ∨
       (PrimFloat.leb (PyFloat.lit (-1)) x = true ∧
        PrimFloat.leb x (PyFloat.lit 1) = true) ∨
       PrimFloat.ltb (PyFloat.lit 1) x = true)
  | _ => True
  end.
Proof.
  intros Hv. destruct v as [| | |x|]; try done;
    unfold label_recommendation, row_get; rewrite Hv; cbn [obind is_null]; [done|].
  assert (Hm1 : PrimFloat.is_nan (PyFloat.lit (-1)) = false) by (vm_compute; reflexivity).
  assert (H1 : PrimFloat.is_nan (PyFloat.lit 1) = false) by (vm_compute; reflexivity).
  assert (Hlt : PrimFloat.leb (PyFloat.lit (-1)) (PyFloat.lit 1) = true)
    by (vm_compute; reflexivity).
  unfold cmp_lit. cbn [obind].
  split_and!.
  - by intros ->.
  - intros Hb. destruct (ltb_not_nan _ _ Hb) as [-> _]. by rewrite Hb.
  - intros Hge Hle. destruct (leb_not_nan _ _ Hle) as [-> _].
    destruct (PrimFloat.ltb x (PyFloat.lit (-1))) eqn:Hb.
    + apply ltb_leb_false in Hb. congruence.
    + by rewrite Hge, Hle.
  - intros Ha. destruct (ltb_not_nan _ _ Ha) as [_ ->].
    pose proof (ltb_leb_false _ _ Ha) as Hle.
    destruct (PrimFloat.ltb x (PyFloat.lit (-1))) eqn:Hb.
    + apply ltb_leb in Hb. pose proof (FloatFacts.leb_trans x (PyFloat.lit (-1)) (PyFloat.lit 1) Hb Hlt). congruence.
    + destruct (PrimFloat.leb (PyFloat.lit (-1)) x); [by rewrite Hle|done].
  - destruct (PrimFloat.is_nan x) eqn:Hn; [by left|right].
    destruct (PrimFloat.ltb x (PyFloat.lit (-1))) eqn:Hb; [by left|right].
    pose proof (not_ltb_leb _ _ Hn Hm1 Hb) as Hge.
    destruct (PrimFloat.leb x (PyFloat.lit 1)) eqn:Hle; [by left|right].
    by apply not_leb_ltb.
Qed.

Lemma recommendation_policy_witness :
  (PrimFloat.is_nan (PyFloat.lit (-1)) = true →
   label_recommendation {[ "price_diff_vs_error" := VFloat (PyFloat.lit (-1)) ]}
   = Ok "❔ Not enough data") ∧
  (PrimFloat.ltb (PyFloat.lit (-1)) (PyFloat.lit (-1)) = true →
   label_recommendation {[ "price_diff_vs_error" := VFloat (PyFloat.lit (-1)) ]}
   = Ok "🔥 Good deal") ∧
  (PrimFloat.leb (PyFloat.lit (-1)) (PyFloat.lit (-1)) = true →
   PrimFloat.leb (PyFloat.lit (-1)) (PyFloat.lit 1) = true →
   label_recommendation {[ "price_diff_vs_error" := VFloat (PyFloat.lit (-1)) ]}
   = Ok "✅ Fair price") ∧
  (PrimFloat.ltb (PyFloat.lit 1) (PyFloat.lit (-1)) = true →
   label_recommendation {[ "price_diff_vs_error" := VFloat (PyFloat.lit (-1)) ]}
   = Ok "💸 Overpriced") ∧
  (PrimFloat.is_nan (PyFloat.lit (-1)) = true ∨
   PrimFloat.ltb (PyFloat.lit (-1)) (PyFloat.lit (-1)) = true ∨
   (PrimFloat.leb (PyFloat.lit (-1)) (PyFloat.lit (-1)) = true ∧
    PrimFloat.leb (PyFloat.lit (-1)) (PyFloat.lit 1) = true) ∨
   PrimFloat.ltb (PyFloat.lit 1) (PyFloat.lit (-1)) = true).
Proof.
  apply (recommendation_policy
           {[ "price_diff_vs_error" := VFloat (PyFloat.lit (-1)) ]}
           (VFloat (PyFloat.lit (-1)))).
  reflexivity.
Defined.

(** The boundaries of the specification: -1.0 and 1.0 are fair, -1.01 is
    a good deal, a missing value is not enough data. *)
Lemma recommendation_boundaries :
  label_recommendation {[ "price_diff_vs_error" := VFloat (PyFloat.lit (-1)) ]}
    = Ok "✅ Fair price" ∧
  label_recommendation {[ "price_diff_vs_error" := VFloat (PyFloat.lit 1) ]}
    = Ok "✅ Fair price" ∧
  label_recommendation
    {[ "price_diff_vs_error" := VFloat (PyFloat.lit (-101) / PyFloat.lit 100) ]}
    = Ok "🔥 Good deal" ∧
  label_recommendation {[ "price_diff_vs_error" := VNull ]}
    = Ok "❔ Not enough data".
Proof. split_and!; vm_compute; reflexivity. Qed.



(** The scraper hands over the sample listings. *)
Definition sample_sys : Orchestrator.Sys :=
  Orchestrator.mksys (λ _ _, Orchestrator.mkchild [] 0 "[...]" "")
                     (λ _, Raise JSONDecodeError) (λ _, Ok sample_listings).

Definition sample_url : string := "https://www.yad2.co.il/vehicles/cars?page=1".


(** The end-to-end example of the specification: with a spread of 10, the
    listing 15% below its predicted price comes first and is a good
    deal; the one 15% above comes second and is overpriced. *)
Lemma ranked_output_example :
  (λ d, map (λ row, map (λ c, cell c row)
                        ["listing_id"; "price_diff_pct"; "VFM Score"; "Recommendation"])
            (rows d))
    <$> heap (top_df sample_pandas sample_sys sample_url 1 world0).2 !! 13%nat
  = Some [ [VStr "2"; VFloat (PyFloat.lit (-15));
            VFloat (PyFloat.lit 3 / PyFloat.lit 2); VStr "🔥 Good deal"];
           [VStr "1"; VFloat (PyFloat.lit 15);
            VFloat (PyFloat.lit (-3) / PyFloat.lit 2); VStr "💸 Overpriced"] ].
Proof. vm_compute. reflexivity. Qed.

End EvaluateFacts.

(** * Facts about the field extraction *)

Module ExtractFacts.
Import Crawl.

(** One turn of the loop over the [dd] elements, and one of the loop that
    fills the missing fields. *)
Definition dd_value (it : string * outcome string) : option string :=
  match it.2 with Ok t => Some (PyStr.strip t) | Raise _ => None end.

Definition dd_step (d : gmap string (option string)) (it : string * outcome string)
  : gmap string (option string) :=
  match dict_get (PyStr.strip it.1) with
  | Some key => <[key := dd_value it]> d
  | None => d
  end.

Definition fill_step (d : gmap string (option string)) (key : string)
  : gmap string (option string) :=
  match d !! key with Some _ => d | None => <[key := None]> d end.

(** The record before the two loops. *)
Definition fixed_fields (pg : Page) (scrape_date : string)
  : gmap string (option string) :=
  <["owner_count" := PyStr.strip <$> summary_values pg !! 1%nat]>
  (<["year_summary" := PyStr.strip <$> summary_values pg !! 0%nat]>
  (<["title" := PyStr.strip <$> h1 pg]>
  (<["price" := (λ t, PyStr.remove "₪" (PyStr.remove "," (PyStr.strip t)))
                  <$> price_span pg]>
  (<["scrape_date" := Some scrape_date]>
  (<["upload_date" := (λ t, PyStr.strip (PyStr.remove "פורסם ב" t)) <$> created_at pg]>
  (<["listing_id" := PyStr.strip <$> ad_number pg]> ∅)))))).

Lemma extract_unfold pg scrape_date full_url :
  extract pg scrape_date full_url
  = <["url" := Some full_url]>
      (foldl fill_step (foldl dd_step (fixed_fields pg scrape_date) (dd_items pg))
             (map snd hebrew_to_english)).
Proof. reflexivity. Qed.

Definition fixed_keys : list string :=
  [ "listing_id"; "upload_date"; "scrape_date"; "price"; "title";
    "year_summary"; "owner_count" ].

Definition dict_values : list string := map snd hebrew_to_english.

Lemma dict_get_value label key : dict_get label = Some key → key ∈ dict_values.
Proof.
  unfold dict_get. intros H. apply fmap_Some in H as ([l k] & Hf & ->).
  apply find_some in Hf as [Hin _]. apply list_elem_of_In in Hin.
  unfold dict_values. apply list_elem_of_fmap. by exists (l, k).
Qed.

Lemma dd_step_lookup_ne d it k : k ∉ dict_values → dd_step d it !! k = d !! k.
Proof.
  intros Hk. unfold dd_step. destruct (dict_get _) as [key|] eqn:E; [|done].
  apply lookup_insert_ne. intros ->. by apply dict_get_value in E.
Qed.

Lemma dd_fold_lookup_ne items : ∀ d k,
  k ∉ dict_values → foldl dd_step d items !! k = d !! k.
Proof.
  induction items as [|it items IH]; intros d k Hk; [done|]. simpl.
  rewrite IH by done. by apply dd_step_lookup_ne.
Qed.

Lemma dd_fold_dom items : ∀ d k,
  is_Some (foldl dd_step d items !! k) → is_Some (d !! k) ∨ k ∈ dict_values.
Proof.
  intros d k H. destruct (decide (k ∈ dict_values)); [by right|left].
  by rewrite dd_fold_lookup_ne in H.
Qed.

Lemma fill_fold_lookup keys : ∀ d k,
  foldl fill_step d keys !! k
  = match d !! k with
    | Some v => Some v
    | None => if bool_decide (k ∈ keys) then Some None else None
    end.
Proof.
  induction keys as [|key keys IH]; intros d k; simpl.
  - by destruct (d !! k).
  - rewrite IH. unfold fill_step.
    destruct (decide (k = key)) as [->|Hne].
    + rewrite (bool_decide_eq_true_2 (key ∈ key :: keys)) by (apply elem_of_cons; auto).
      destruct (d !! key) as [v|] eqn:E; [by rewrite E|].
      by rewrite lookup_insert_eq.
    + assert (bool_decide (k ∈ key :: keys) = bool_decide (k ∈ keys)) as ->.
      { apply bool_decide_ext. rewrite elem_of_cons. intuition. }
      destruct (d !! key) as [v|] eqn:E; [done|].
      by rewrite lookup_insert_ne.
Qed.

Lemma fixed_fields_dom pg sd k : is_Some (fixed_fields pg sd !! k) ↔ k ∈ fixed_keys.
Proof.
  unfold fixed_fields, fixed_keys. rewrite !lookup_insert_is_Some', lookup_empty.
  rewrite !elem_of_cons, elem_of_nil.
  split; [|intuition (subst; auto)].
  intros H. repeat destruct H as [H|H]; subst; auto 10. by destruct H.
Qed.

Lemma dict_values_not_fixed key :
  key ∈ dict_values → (key ∉ fixed_keys) ∧ key ≠ "url".
Proof.
  assert (H : Forall (λ k, (k ∉ fixed_keys) ∧ k ≠ "url") dict_values).
  { refine (bool_decide_unpack _ _). vm_compute. exact I. }
  intros Hin. by eapply Forall_forall in H.
Qed.

(** The last [dd] element whose label the dictionary sends to [key]. *)
Definition last_labelled (key : string) (items : list (string * outcome string))
  : option (string * outcome string) :=
  last (List.filter (λ it, bool_decide (dict_get (PyStr.strip it.1) = Some key)) items).

Lemma dd_fold_lookup key items : ∀ d,
  foldl dd_step d items !! key
  = match last_labelled key items with
    | Some it => Some (dd_value it)
    | None => d !! key
    end.
Proof.
  unfold last_labelled.
  induction items as [|it items IH]; intros d; [done|]. cbn [foldl List.filter].
  rewrite IH. case_bool_decide as E.
  - destruct (List.filter _ items) as [|it' l] eqn:El.
    + simpl. unfold dd_step. rewrite E. by rewrite lookup_insert_eq.
    + rewrite last_cons_cons. destruct (last (it' :: l)) eqn:El'; [done|].
      by apply last_None in El'.
  - destruct (last _); [done|]. unfold dd_step.
    destruct (dict_get _) as [k|]; [|done].
    apply lookup_insert_ne. congruence.
Qed.

(** X1: every record the field extraction builds has the same 23 fields,
    whatever the page holds. *)
Theorem extract_has_every_field (pg : Page) (scrape_date full_url key : string) :
  is_Some (extract pg scrape_date full_url !! key) ↔ key ∈ detail_keys.
Proof.
  rewrite extract_unfold, lookup_insert_is_Some', fill_fold_lookup.
  change detail_keys with (fixed_keys ++ dict_values ++ ["url"]).
  rewrite !elem_of_app, list_elem_of_singleton. split.
  - intros [->|H]; [auto|].
    destruct (foldl dd_step _ _ !! key) as [v|] eqn:E.
    + destruct (dd_fold_dom (dd_items pg) (fixed_fields pg scrape_date) key) as [Hf|Hd];
        [by rewrite E| |auto].
      apply fixed_fields_dom in Hf. auto.
    + case_bool_decide; [auto|]. by destruct H.
  - intros [Hf|[Hd| ->]]; [|right|by left].
    + right. apply fixed_fields_dom with (pg := pg) (sd := scrape_date) in Hf.
      destruct (decide (key ∈ dict_values)) as [Hd|Hd].
      * destruct (foldl dd_step _ _ !! key); [done|].
        by rewrite bool_decide_eq_true_2.
      * rewrite dd_fold_lookup_ne by done. by destruct Hf as [v ->].
    + destruct (foldl dd_step _ _ !! key); [done|]. by rewrite bool_decide_eq_true_2.
Qed.

Lemma extract_lookup_fixed pg scrape_date full_url k :
  k ∈ fixed_keys →
  extract pg scrape_date full_url !! k = fixed_fields pg scrape_date !! k.
Proof.
  intros Hk. rewrite extract_unfold.
  assert (Hd : (k ∉ dict_values) ∧ k ≠ "url").
  { split.
    - intros Hd. by apply dict_values_not_fixed in Hd as [? _].
    - intros ->. revert Hk. unfold fixed_keys. rewrite !elem_of_cons, elem_of_nil.
      intuition discriminate. }
  destruct Hd as [Hd Hu]. rewrite lookup_insert_ne by done.
  rewrite fill_fold_lookup, dd_fold_lookup_ne by done.
  apply fixed_fields_dom with (pg := pg) (sd := scrape_date) in Hk as [v ->]. done.
Qed.

(** X2: the seven fields read off the page by name, and the URL, are what
    the record holds at the end: no label of the page can overwrite
    them. *)
Theorem extract_fixed_fields_kept (pg : Page) (scrape_date full_url : string) :
  let d := extract pg scrape_date full_url in
  d !! "listing_id" = Some (PyStr.strip <$> ad_number pg) ∧
  d !! "upload_date"
    = Some ((λ t, PyStr.strip (PyStr.remove "פורסם ב" t)) <$> created_at pg) ∧
  d !! "scrape_date" = Some (Some scrape_date) ∧
  d !! "price"
    = Some ((λ t, PyStr.remove "₪" (PyStr.remove "," (PyStr.strip t)))
              <$> price_span pg) ∧
  d !! "title" = Some (PyStr.strip <$> h1 pg) ∧
  d !! "year_summary" = Some (PyStr.strip <$> summary_values pg !! 0%nat) ∧
  d !! "owner_count" = Some (PyStr.strip <$> summary_values pg !! 1%nat) ∧
  d !! "url" = Some (Some full_url).
Proof.
  cbv zeta.
  split_and!; [..|rewrite extract_unfold; apply lookup_insert_eq];
    (rewrite extract_lookup_fixed
       by (unfold fixed_keys; rewrite !elem_of_cons; auto 10);
     unfold fixed_fields; repeat (rewrite lookup_insert_ne by done);
     apply lookup_insert_eq).
Qed.

(** X3: a field of the label dictionary holds the text next to the last
    [dd] element whose stripped label the dictionary sends to it, null
    when reading that text failed, and null when the page has no such
    label; labels the dictionary does not know change nothing. *)
Theorem extract_label_value (pg : Page) (scrape_date full_url key : string) :
  key ∈ map snd hebrew_to_english →
  extract pg scrape_date full_url !! key
  = Some (last_labelled key (dd_items pg) ≫= dd_value).
Proof.
  intros Hk. destruct (dict_values_not_fixed key Hk) as [Hf Hu].
  rewrite extract_unfold, lookup_insert_ne by done.
  rewrite fill_fold_lookup, dd_fold_lookup.
  destruct (last_labelled key (dd_items pg)) as [it|]; [done|]. simpl.
  destruct (fixed_fields pg scrape_date !! key) as [v|] eqn:E.
  - destruct Hf. apply fixed_fields_dom with (pg := pg) (sd := scrape_date). by rewrite E.
  - by rewrite bool_decide_eq_true_2.
Qed.

Lemma extract_label_value_witness :
  extract CrawlFacts.page_priced "04/11/2026" "https://www.yad2.co.il/item/a" !! "color"
  = Some (last_labelled "color" (dd_items CrawlFacts.page_priced) ≫= dd_value).
Proof.
  apply (extract_label_value CrawlFacts.page_priced "04/11/2026"
           "https://www.yad2.co.il/item/a" "color").
  refine (bool_decide_unpack _ _). vm_compute. exact I.
Defined.

Fixpoint has_byte (c : ascii) (s : string) : bool :=
  match s with
  | EmptyString => false
  | String b r => bool_decide (b = c) || has_byte c r
  end.

(** Removing a substring brings no byte that was not there. *)
Lemma remove_go_has_byte c old s : ∀ skip,
  has_byte c (PyStr.remove_go old skip s) = true → has_byte c s = true.
Proof.
  induction s as [|b r IH]; intros skip; [done|]. cbn [PyStr.remove_go has_byte].
  destruct skip as [|k].
  - destruct (String.prefix old (String b r)).
    + intros H. apply IH in H. rewrite H. apply orb_true_r.
    + cbn [has_byte]. intros H. apply orb_prop in H as [H|H].
      * by rewrite H.
      * apply IH in H. rewrite H. apply orb_true_r.
  - intros H. apply IH in H. rewrite H. apply orb_true_r.
Qed.

Lemma remove_has_byte c old s :
  has_byte c (PyStr.remove old s) = true → has_byte c s = true.
Proof.
  unfold PyStr.remove. destruct (decide (old = "")); [done|].
  apply remove_go_has_byte.
Qed.

(** Removing a one-byte string leaves none of that byte. *)
Lemma remove_byte_gone c s :
  has_byte c (PyStr.remove_go (String c EmptyString) 0 s) = false.
Proof.
  induction s as [|b r IH]; [done|]. cbn [PyStr.remove_go String.prefix String.length].
  destruct (ascii_dec c b) as [->|Hne].
  - replace (String.prefix "" r) with true by (by destruct r). exact IH.
  - cbn [has_byte]. rewrite IH. by rewrite bool_decide_eq_false_2.
Qed.

(** X4: the price a record holds has no thousands separator left. *)
Theorem extracted_price_has_no_comma (pg : Page) (scrape_date full_url s : string) :
  extract pg scrape_date full_url !! "price" = Some (Some s) →
  has_byte "," s = false.
Proof.
  intros H.
  rewrite extract_lookup_fixed in H
    by (unfold fixed_keys; rewrite !elem_of_cons; auto 10).
  unfold fixed_fields in H. repeat (rewrite lookup_insert_ne in H by done).
  rewrite lookup_insert_eq in H. injection H as H. destruct (price_span pg) as [t|]; [|done].
  injection H as <-. apply not_true_is_false. intros H.
  apply remove_has_byte in H. unfold PyStr.remove in H.
  rewrite decide_False in H by done. by rewrite remove_byte_gone in H.
Qed.

Lemma extracted_price_has_no_comma_witness : has_byte "," "45000 " = false.
Proof.
  apply (extracted_price_has_no_comma CrawlFacts.page_priced "04/11/2026"
           "https://www.yad2.co.il/item/a" "45000 ").
  vm_compute. reflexivity.
Defined.

End ExtractFacts.

(** * Facts about the crawl as a whole *)

Module CrawlLogFacts.
Import Py PyIO Progress Crawl ProgressFacts CrawlFacts FrameFacts.

(** What the crawl shows of its visits: the pages the browser is sent
    to, and the lines on standard error that report a failed visit. *)
Inductive visit_log :=
| Went (url : string)
| Failed (line : string).

Definition visit_log_of (ev : event) : option visit_log :=
  match ev with
  | EvGoto url => Some (Went url)
  | EvStderr line =>
      if PyStr.startswith "Failed to scrape " line then Some (Failed line) else None
  | _ => None
  end.

(** The log of one turn of the loop. *)
Definition turn_log (env : Env) (idx : nat) (url : string) : list visit_log :=
  Went (full_url_of url) ::
  match visit env idx (full_url_of url) with
  | Ok _ => []
  | Raise e =>
      [Failed ("Failed to scrape " +:+ full_url_of url +:+ ": " +:+ str_exn e)]
  end.

#[local] Opaque json_text extract.
#[local] Arguments pct_of : simpl never.
#[local] Arguments full_url_of : simpl never.

Lemma prefix_app p s : String.prefix p (p +:+ s) = true.
Proof.
  induction p as [|c p IH]; [by destruct s|].
  rewrite StrFacts.append_cons. simpl. by destruct (ascii_dec c c).
Qed.

Lemma visit_log_staging tmp p v evs :
  Forall (staging tmp p v) evs → omap visit_log_of evs = [].
Proof.
  induction 1 as [|ev evs (op & f & -> & _) _ IH]; simpl; by rewrite ?IH.
Qed.

Lemma visit_listing_log env total all idx url w :
  ∃ w' evs,
    visit_listing env total all idx url w
      = (Ok (all ++ option_list (kept env idx url)), w') ∧
    journal w' = journal w ++ evs ∧
    omap visit_log_of evs = turn_log env idx url.
Proof.
  unfold visit_listing, bind at 1.
  destruct (update_progress_run (Z.of_nat idx + 1) total "progress.json" w)
    as (w1 & staged & last & -> & Hh & Hj & Hst & Hfl & Hlast).
  assert (Hobs : omap visit_log_of (staged ++ last) = []).
  { rewrite omap_app, (visit_log_staging _ _ _ _ Hst). simpl.
    destruct Hlast as [(st & _ & -> & _)|(e & -> & _)]; reflexivity. }
  unfold try_except, bind, emit, lift, kept, turn_log. simpl.
  destruct (visit env idx (full_url_of url)) as [pg|e]; simpl.
  - eexists _, (staged ++ last ++ [EvGoto (full_url_of url)]).
    split.
    { f_equal. destruct (truthy _); simpl; [done|by rewrite app_nil_r]. }
    simpl. rewrite Hj, <- !app_assoc. split; [done|].
    by rewrite app_assoc, omap_app, Hobs.
  - unfold print_stderr, emit. simpl.
    eexists _, (staged ++ last ++ [EvGoto (full_url_of url); _]).
    split; [by rewrite app_nil_r|].
    simpl. rewrite Hj, <- !app_assoc. split; [done|].
    rewrite app_assoc, omap_app, Hobs. cbn [omap list_omap visit_log_of app].
    unfold PyStr.startswith. by rewrite prefix_app.
Qed.

Lemma visit_from_log env total urls : ∀ idx all w,
  ∃ w' evs,
    visit_from env total idx urls all w
      = (Ok (all ++ omap (λ p, kept env p.1 p.2) (imap (λ i u, (idx + i, u)%nat) urls)), w') ∧
    journal w' = journal w ++ evs ∧
    omap visit_log_of evs = concat (imap (λ i u, turn_log env (idx + i) u) urls).
Proof.
  induction urls as [|url rest IH]; intros idx all w.
  - exists w, []. simpl. unfold ret. by rewrite !app_nil_r.
  - cbn [visit_from]. unfold bind at 1.
    destruct (visit_listing_log env total all idx url w)
      as (w1 & evs1 & -> & Hj1 & Hl1).
    destruct (IH (S idx) (all ++ option_list (kept env idx url)) w1)
      as (w2 & evs2 & -> & Hj2 & Hl2).
    exists w2, (evs1 ++ evs2). split; [|split].
    + f_equal. rewrite <- app_assoc. f_equal. simpl.
      rewrite Nat.add_0_r.
      assert (E : imap ((λ i u, ((idx + i)%nat, u)) ∘ S) rest
                  = imap (λ i u, ((S idx + i)%nat, u)) rest).
      { apply imap_ext. intros i x _. simpl. f_equal. lia. }
      rewrite E. by destruct (kept env idx url).
    + by rewrite Hj2, Hj1, app_assoc.
    + rewrite omap_app, Hl1, Hl2. cbn [imap concat]. rewrite Nat.add_0_r.
      f_equal. f_equal. apply imap_ext. intros i x _. simpl. f_equal. lia.
Qed.

(** X5: whatever fails, a write of the progress file or a visit, the
    crawl sends the browser to every URL of its list once, in the order
    of the list; a visit that raises is followed by one line on standard
    error that names the listing and the error, and the crawl goes on
    with the next URL. *)
Theorem crawl_visits_every_url (env : Env) (urls : list string) (w : world) :
  ∃ evs,
    journal (visit_all env urls w).2 = journal w ++ evs ∧
    omap visit_log_of evs
    = concat (imap (λ idx url,
        Went (full_url_of url) ::
        match visit env idx (full_url_of url) with
        | Ok _ => []
        | Raise e =>
            [Failed ("Failed to scrape " +:+ full_url_of url +:+ ": " +:+ str_exn e)]
        end) urls).
Proof.
  unfold visit_all.
  destruct (visit_from_log env (Z.of_nat (length urls)) urls 0 [] w)
    as (w' & evs & -> & Hj & Hl).
  exists evs. split; [done|]. exact Hl.
Qed.

(** The links of the result pages [page_num .. page_num + n - 1], or the
    first error met on the way. *)
Fixpoint page_links (env : Env) (base_url : string) (page_num : Z) (n : nat)
  : outcome (list string) :=
  match n with
  | O => Ok []
  | S k =>
      obind (search_page env base_url page_num) (λ links,
      obind (page_links env base_url (page_num + 1) k) (λ more,
      Ok (links ++ more)))
  end.

Lemma collect_links_run env base_url n : ∀ page_num w,
  collect_links env base_url page_num n w = (page_links env base_url page_num n, w).
Proof.
  induction n as [|k IH]; intros page_num w; [done|].
  cbn [collect_links page_links]. unfold bind, lift.
  destruct (search_page env base_url page_num) as [links|e]; [|done]. simpl.
  rewrite IH. by destruct (page_links env base_url (page_num + 1) k).
Qed.

(** The first page that fails ends the collection with its error. *)
Lemma page_links_Raise env base_url e n : ∀ page_num k,
  (k < n)%nat →
  (∀ j, (j < k)%nat → ∃ l, search_page env base_url (page_num + Z.of_nat j) = Ok l) →
  search_page env base_url (page_num + Z.of_nat k) = Raise e →
  page_links env base_url page_num n = Raise e.
Proof.
  induction n as [|n IH]; intros page_num k Hk Hbefore Hat; [lia|].
  cbn [page_links]. destruct k as [|k].
  - rewrite Z.add_0_r in Hat. by rewrite Hat.
  - destruct (Hbefore 0%nat ltac:(lia)) as [l Hl]. rewrite Z.add_0_r in Hl.
    rewrite Hl. simpl. rewrite (IH (page_num + 1) k); [done|lia| |].
    + intros j Hj. destruct (Hbefore (S j) ltac:(lia)) as [l' Hl'].
      exists l'. rewrite <- Hl'. f_equal. lia.
    + rewrite <- Hat. f_equal. lia.
Qed.

(** The records of a crawl over [urls]. *)
Definition records (env : Env) (urls : list string)
  : list (gmap string (option string)) :=
  omap (λ p, kept env p.1 p.2) (imap (λ i u, (i, u)) urls).

Lemma scrape_run env base_url pages_num w links :
  page_links env base_url 1 (Z.to_nat pages_num) = Ok links →
  (scrape_yad2_from_filtered_url env base_url pages_num w).1
  = frame_of (records env (set_to_list env links)).
Proof.
  intros Hl. unfold scrape_yad2_from_filtered_url, bind at 1.
  rewrite collect_links_run, Hl. unfold bind, visit_all.
  destruct (visit_from_log env (Z.of_nat (length (set_to_list env links)))
              (set_to_list env links) 0 [] w) as (w' & evs & -> & _).
  reflexivity.
Qed.

Lemma records_elem env urls d :
  d ∈ records env urls →
  ∃ idx url pg, urls !! idx = Some url ∧
    visit env idx (full_url_of url) = Ok pg ∧
    d = extract pg (today env) (full_url_of url) ∧
    truthy (d !! "price") = true.
Proof.
  unfold records. intros Hin. apply list_elem_of_omap in Hin as ([idx url] & Hin & Hk).
  apply elem_of_lookup_imap in Hin as (i & u & [= -> ->] & Hu).
  unfold kept in Hk. simpl in Hk.
  destruct (visit env i (full_url_of u)) as [pg|] eqn:Hv; [|done].
  destruct (truthy _) eqn:Ht; [|done]. injection Hk as <-.
  exists i, u, pg. done.
Qed.



Lemma Ok_inj {A} (a b : A) : Ok a = Ok b → a = b.
Proof. by intros [= ->]. Qed.



Lemma scrape_raises_without_record env base_url pages_num w links :
  (collect_links env base_url 1 (Z.to_nat pages_num) w).1 = Ok links →
  (∀ idx url, set_to_list env links !! idx = Some url →
     match visit env idx (full_url_of url) with
     | Ok pg => truthy (extract pg (today env) (full_url_of url) !! "price") = false
     | Raise _ => True
     end) →
  (scrape_yad2_from_filtered_url env base_url pages_num w).1
  = Raise (KeyError "listing_id").
Proof.
  rewrite collect_links_run. cbn [fst]. intros Hl Hnone.
  rewrite (scrape_run _ _ _ _ _ Hl).
  destruct (records env (set_to_list env links)) as [|r0 rs] eqn:Hr; [done|].
  assert (Hin : r0 ∈ records env (set_to_list env links)).
  { rewrite Hr. apply elem_of_cons. by left. }
  apply records_elem in Hin as (idx & url & pg & Hu & Hv & Hrec & Ht).
  specialize (Hnone idx url Hu). rewrite Hv in Hnone. congruence.
Qed.

(** X7: when no listing of the result pages yields a record with a
    price, the crawl does not return an empty frame: it raises
    [KeyError] for the index column [listing_id]. *)
Theorem scrape_without_priced_listing_raises (env : Env) (base_url : string)
    (pages_num : Z) (w : world) (links : list string) :
  (collect_links env base_url 1 (Z.to_nat pages_num) w).1 = Ok links →
  (∀ idx url, set_to_list env links !! idx = Some url →
     match visit env idx (full_url_of url) with
     | Ok pg => truthy (extract pg (today env) (full_url_of url) !! "price") = false
     | Raise _ => True
     end) →
  (scrape_yad2_from_filtered_url env base_url pages_num w).1
  = Raise (KeyError "listing_id").
Proof. apply scrape_raises_without_record. Qed.

Lemma scrape_without_priced_listing_raises_witness :
  (scrape_yad2_from_filtered_url (site1 page_no_amount)
     "https://www.yad2.co.il/vehicles/cars?page=1" 1 world0).1
  = Raise (KeyError "listing_id").
Proof.
  apply (scrape_without_priced_listing_raises (site1 page_no_amount)
           "https://www.yad2.co.il/vehicles/cars?page=1" 1 world0 ["item/a"]).
  - reflexivity.
  - intros [|idx] url; [|destruct idx; discriminate].
    intros [= <-]. vm_compute. reflexivity.
Defined.

(** X8: a result page that cannot be loaded ends the crawl with that
    error before any listing is visited and before any progress is
    written: nothing of the pages already read is returned. *)
Theorem pagination_failure_is_fatal (env : Env) (base_url : string)
    (pages_num p : Z) (e : exn) (w : world) :
  1 ≤ p ≤ pages_num →
  (∀ q, 1 ≤ q < p → ∃ l, search_page env base_url q = Ok l) →
  search_page env base_url p = Raise e →
  scrape_yad2_from_filtered_url env base_url pages_num w = (Raise e, w).
Proof.
  intros Hp Hbefore Hat.
  unfold scrape_yad2_from_filtered_url, bind at 1. rewrite collect_links_run.
  rewrite (page_links_Raise env base_url e (Z.to_nat pages_num) 1 (Z.to_nat (p - 1)));
    [done|lia| |].
  - intros j Hj. apply Hbefore. lia.
  - rewrite <- Hat. f_equal. lia.
Qed.

(** A site whose second result page times out. *)
Definition site_page2_down : Env :=
  mkenv (λ _ q, if q =? 2 then Raise TimeoutError else Ok ["item/a"])
        (λ _ _, Ok page_priced) "04/11/2026" (λ l, l).

Lemma pagination_failure_is_fatal_witness :
  scrape_yad2_from_filtered_url site_page2_down
    "https://www.yad2.co.il/vehicles/cars?page=1" 3 world0
  = (Raise TimeoutError, world0).
Proof.
  apply (pagination_failure_is_fatal site_page2_down
           "https://www.yad2.co.il/vehicles/cars?page=1" 3 2 TimeoutError world0).
  - lia.
  - intros q Hq. exists ["item/a"]. simpl. destruct (q =? 2) eqn:E; [lia|done].
  - reflexivity.
Defined.

End CrawlLogFacts.

(** * More facts about the progress file *)

Module ProgressFileFacts.
Import Py PyIO Progress Crawl ProgressFacts CrawlFacts.

#[local] Opaque json_text extract.
#[local] Arguments pct_of : simpl never.
#[local] Arguments full_url_of : simpl never.

(** ** The files a write leaves alone *)

Lemma write_all_others tmp chunks : ∀ w,
  ∃ r w1, write_all tmp chunks w = (r, w1) ∧
    ∀ q, q ≠ tmp → files w1 !! q = files w !! q.
Proof.
  induction chunks as [|c cs IH]; intros w.
  - by exists (Ok tt), w.
  - cbn [write_all]. unfold bind at 1.
    destruct (write_run tmp c w) as ([[]|e] & w1 & -> & _ & _ & Hf).
    + destruct Hf as [Hf _]. destruct (IH w1) as (r & w2 & -> & Hq).
      exists r, w2. split; [done|]. intros q Hne.
      by rewrite Hq, Hf, lookup_insert_ne.
    + destruct Hf as [Hf _]. exists (Raise e), w1. split; [done|].
      intros q _. by rewrite Hf.
Qed.

Lemma update_progress_others c t p w q :
  q ≠ p → q ≠ p +:+ ".tmp" →
  files (update_progress c t p w).2 !! q = files w !! q.
Proof.
  intros Hp Htmp.
  unfold update_progress, try_except, bind at 1, lift.
  destruct (progress_data c t) as [st|e]; [|done].
  unfold bind at 1, with_open_w, bind at 1.
  destruct (open_w_run (p +:+ ".tmp") w) as ([[]|e] & w1 & -> & _ & _ & Hf).
  - destruct Hf as [Hf _]. unfold json_dump.
    destruct (write_all_others (p +:+ ".tmp") (json_chunks st) w1)
      as (r & w2 & -> & Hq).
    unfold close. destruct (syscall_run w2) as (rc & fl & -> & _).
    assert (H2 : files w2 !! q = files w !! q).
    { by rewrite Hq, Hf, lookup_insert_ne. }
    destruct rc as [[]|e]; [destruct r as [[]|e]|]; try exact H2.
    destruct (os_replace_run (p +:+ ".tmp") p
                (mkworld (files w2) fl (journal w2) (heap w2)))
      as ([[]|e] & w3 & -> & _ & _ & Hrep).
    + destruct Hrep as (c' & _ & Hf3 & _). cbn [snd]. rewrite Hf3. cbn [files].
      by rewrite lookup_insert_ne, lookup_delete_ne.
    + destruct Hrep as [Hf3 _]. cbn. by rewrite Hf3.
  - destruct Hf as [Hf _]. cbn. by rewrite Hf.
Qed.

(** ** The percentage of a finished crawl *)

Lemma SFdiv_core_self m :
  SFdiv_core_binary prec emax (Zpos m) 0 (Zpos m) 0 = (2 ^ 53, -53, loc_Exact).
Proof.
  unfold SFdiv_core_binary. cbv zeta.
  rewrite !Z.add_0_r, !Z.sub_diag.
  change (Z.min (fexp prec emax 0) 0) with (-53).
  change (0 - -53) with 53.
  cbv iota.
  assert (E : Z.div_eucl (Z.shiftl (Z.pos m) 53) (Z.pos m) = (2 ^ 53, 0)).
  { rewrite Z.shiftl_mul_pow2 by lia.
    rewrite (surjective_pairing (Z.div_eucl _ _)).
    change (fst (Z.div_eucl ?a ?b)) with (a / b).
    change (snd (Z.div_eucl ?a ?b)) with (a mod b).
    rewrite (Z.mul_comm (Z.pos m)), Z.div_mul, Z.mod_mul by lia. done. }
  change IntDef.Z.div_eucl with Z.div_eucl.
  rewrite E. unfold new_location, new_location_even, new_location_odd.
  by destruct (Z.even (Z.pos m)).
Qed.

Lemma true_div_self n : n ≠ 0 → PyFloat.true_div n n = Ok (PyFloat.lit 1).
Proof.
  intros Hn. unfold PyFloat.true_div.
  destruct (n =? 0) eqn:E; [lia|].
  destruct n as [|m|m]; [done|..]; unfold PyFloat.SZ, SFdiv;
    rewrite SFdiv_core_self; vm_compute; reflexivity.
Qed.

Lemma pct_of_self n : n ≠ 0 → pct_of n n = Ok 100.
Proof.
  intros Hn. unfold pct_of. destruct (n =? 0) eqn:E; [lia|].
  rewrite true_div_self by done. vm_compute. reflexivity.
Qed.

Lemma visit_listing_file env total all idx url w st :
  faults w = [] → progress_data (Z.of_nat idx + 1) total = Ok st →
  files (visit_listing env total all idx url w).2 !! "progress.json"
  = Some (json_text st).
Proof.
  intros H0 Hst. unfold visit_listing, bind at 1.
  destruct (update_progress_run (Z.of_nat idx + 1) total "progress.json" w)
    as (w1 & staged & last & -> & _ & _ & _ & _ & Hlast).
  assert (Hf : files w1 !! "progress.json" = Some (json_text st)).
  { destruct Hlast as [(st' & Hst' & _ & Hp & _)|(e & _ & _ & He)].
    - congruence.
    - rewrite (He H0) in Hst. done. }
  unfold try_except, bind, emit, lift. cbn.
  by destruct (visit env idx (full_url_of url)).
Qed.

Lemma visit_from_last env total urls : ∀ idx all w,
  faults w = [] → urls ≠ [] →
  total = Z.of_nat idx + Z.of_nat (length urls) →
  files (visit_from env total idx urls all w).2 !! "progress.json"
  = Some (json_text (mkstate total total 100)).
Proof.
  induction urls as [|url rest IH]; intros idx all w H0 Hne Ht; [done|].
  cbn [visit_from]. unfold bind at 1.
  destruct rest as [|url2 rest].
  - pose proof (visit_listing_file env total all idx url w
                  (mkstate total total 100) H0) as Hf.
    destruct (visit_listing env total all idx url w) as [[r|e] w1]; cbn in *.
    + apply Hf. simpl in Ht. replace (Z.of_nat idx + 1) with total by lia.
      unfold progress_data. rewrite pct_of_self by lia. done.
    + apply Hf. simpl in Ht. replace (Z.of_nat idx + 1) with total by lia.
      unfold progress_data. rewrite pct_of_self by lia. done.
  - destruct (visit_listing_run env total all idx url w)
      as (w1 & evs & -> & _ & _ & Hfl).
    destruct (Hfl H0) as [H1 _].
    apply IH; [done|done|]. cbn [length] in *. lia.
Qed.

(** X9: when no system call fails, the state a crawl leaves in the
    progress file reads 100 percent, with [current] and [total] both the
    number of URLs. *)
Theorem crawl_ends_at_100_percent (env : Env) (urls : list string) (w : world) :
  faults w = [] → (0 < length urls)%nat →
  files (visit_all env urls w).2 !! "progress.json"
  = Some (json_text (mkstate (Z.of_nat (length urls)) (Z.of_nat (length urls)) 100)).
Proof.
  intros H0 Hne. unfold visit_all. apply visit_from_last; [done| |lia].
  intros ->. simpl in Hne. lia.
Qed.

Lemma crawl_ends_at_100_percent_witness :
  files (visit_all site3 ["item/a"; "item/b"; "item/c"] world0).2 !! "progress.json"
  = Some (json_text (mkstate 3 3 100)).
Proof.
  apply (crawl_ends_at_100_percent site3 ["item/a"; "item/b"; "item/c"] world0).
  - reflexivity.
  - simpl. lia.
Defined.

(** X10: a write of the progress state changes no file other than the
    path it is given and the temporary file next to it, whether it
    succeeds or fails. *)
Theorem update_progress_touches_two_paths (current total : Z)
    (file_path other : string) (w : world) :
  other ≠ file_path → other ≠ file_path +:+ ".tmp" →
  files (update_progress current total file_path w).2 !! other = files w !! other.
Proof. apply update_progress_others. Qed.

Lemma update_progress_touches_two_paths_witness :
  files (update_progress 3 7 "progress.json"
           (mkworld {[ "listings.csv" := "id,price" ]} [] [] [])).2 !! "listings.csv"
  = files (mkworld {[ "listings.csv" := "id,price" ]} [] [] []) !! "listings.csv".
Proof.
  apply (update_progress_touches_two_paths 3 7 "progress.json" "listings.csv"
           (mkworld {[ "listings.csv" := "id,price" ]} [] [] [])).
  - discriminate.
  - vm_compute. discriminate.
Defined.

End ProgressFileFacts.

(** * More facts about the orchestrator *)

Module OrchestratorRunFacts.
Import Py PyIO PyFrame Frame Orchestrator ProgressFacts RunFacts.

Lemma read_file_run p w :
  ∃ r fl, read_file p w = (r, mkworld (files w) fl (journal w) (heap w)) ∧
    (faults w = [] →
     fl = [] ∧
     r = match files w !! p with Some c => Ok c | None => Raise FileNotFoundError end).
Proof.
  unfold read_file, bind.
  destruct (syscall_run w) as ([[]|e] & fl & -> & Hfl); cbn.
  - exists (match files w !! p with Some c => Ok c | None => Raise FileNotFoundError end), fl.
    split; [by destruct (files w !! p)|]. intros H0. by destruct (Hfl H0).
  - exists (Raise e), fl. split; [done|]. intros H0. by destruct (Hfl H0).
Qed.

Lemma read_progress_run (S : Sys) p w :
  ∃ r fl, read_progress S p w = (r, mkworld (files w) fl (journal w) (heap w)) ∧
    r ≠ Raise JSONDecodeError ∧ r ≠ Raise FileNotFoundError ∧
    (faults w = [] →
     fl = [] ∧
     r = match files w !! p with
         | None => Ok None
         | Some text =>
             match json_loads S text with
             | Ok progress => Ok (Some progress)
             | Raise JSONDecodeError | Raise FileNotFoundError => Ok None
             | Raise e => Raise e
             end
         end).
Proof.
  unfold read_progress, try_except, bind at 1.
  destruct (read_file_run p w) as (r & fl & -> & Hfl).
  destruct r as [text|e].
  - unfold bind, lift, ret.
    assert (Ht : faults w = [] → fl = [] ∧ files w !! p = Some text).
    { intros H0. destruct (Hfl H0) as [? E]. by destruct (files w !! p); simplify_eq. }
    destruct (json_loads S text) as [progress|e] eqn:Hj.
    + eexists _, fl. split; [done|]. split_and!; try done.
      intros H0. destruct (Ht H0) as [? E]. by rewrite E, Hj.
    + destruct e; eexists _, fl; (split; [reflexivity|]); (split_and!; try done);
        intros H0; destruct (Ht H0) as [? E]; by rewrite E, Hj.
  - assert (Ht : faults w = [] → fl = [] ∧ files w !! p = None ∧ e = FileNotFoundError).
    { intros H0. destruct (Hfl H0) as [? E]. by destruct (files w !! p); simplify_eq. }
    destruct e; eexists _, fl; (split; [reflexivity|]); (split_and!; try done);
      intros H0; destruct (Ht H0) as (? & E & ?); simplify_eq; by rewrite ?E.
Qed.

(** X11: reading the progress file changes nothing; a file that is not
    there or does not decode gives [None] and never an exception, and
    any other failure of the read is passed on. *)
Theorem read_progress_is_read_only (S : Sys) (file_path : string) (w : world) :
  let res := read_progress S file_path w in
  files res.2 = files w ∧ journal res.2 = journal w ∧ heap res.2 = heap w ∧
  res.1 ≠ Raise JSONDecodeError ∧ res.1 ≠ Raise FileNotFoundError ∧
  (faults w = [] →
   res.1 = match files w !! file_path with
           | None => Ok None
           | Some text =>
               match json_loads S text with
               | Ok progress => Ok (Some progress)
               | Raise JSONDecodeError | Raise FileNotFoundError => Ok None
               | Raise e => Raise e
               end
           end).
Proof.
  cbv zeta.
  destruct (read_progress_run S file_path w) as (r & fl & -> & H1 & H2 & H3).
  cbn. split_and!; try done. intros H0. by destruct (H3 H0).
Qed.

Lemma try_except_Raise {A} (body : Py A) handler w e w' :
  try_except body handler w = (Raise e, w') →
  ∃ e0 w1, body w = (Raise e0, w1) ∧ handler e0 w1 = (Raise e, w').
Proof.
  unfold try_except. destruct (body w) as [[a0|e0] w1]; [done|]. eauto.
Qed.

Lemma alloc_Ok d w r w' : alloc d w = (Ok r, w') → heap w' !! r = Some d.
Proof. intros [= <- <-]. simpl. apply lookup_snoc_length. Qed.

Lemma emit2_alloc_Ok ev1 ev2 d w r w' :
  (emit ev1 ;; emit ev2 ;; alloc d) w = (Ok r, w') → heap w' !! r = Some d.
Proof. intros [= <- <-]. simpl. apply lookup_snoc_length. Qed.

(** What the frame returned by the orchestrator can be. *)
Lemma run_scraper_subprocess_Ok (S : Sys) base_url pages_num w r w' :
  run_scraper_subprocess S base_url pages_num w = (Ok r, w') →
  ∃ d, heap w' !! r = Some d ∧
    (d = empty_frame ∨
     (returncode (spawn S base_url pages_num) = 0 ∧
      parse_listings S (stdout (spawn S base_url pages_num)) = Ok d)).
Proof.
  unfold run_scraper_subprocess. intros H.
  apply EvaluateFacts.try_except_Ok in H as [H|(e & w1 & _ & H)];
    [|exists empty_frame; split; [by eapply EvaluateFacts.emit_alloc_Ok|by left]].
  apply bind_Ok in H as (? & w1 & _ & H). cbv zeta in H.
  apply bind_Ok in H as (? & w2 & _ & H).
  apply bind_Ok in H as (pending & w3 & _ & H).
  apply bind_Ok in H as (there & w4 & _ & H).
  apply bind_Ok in H as (? & w5 & _ & H).
  apply bind_Ok in H as (? & w6 & _ & H).
  destruct (returncode (spawn S base_url pages_num) =? 0) eqn:Hrc; cbn [negb] in H.
  - apply EvaluateFacts.try_except_Ok in H as [H|(e & w7 & _ & H)].
    + apply bind_Ok in H as (listings & w7 & Hl & H). apply lift_Ok in Hl as [Hl ->].
      exists listings. split; [by eapply alloc_Ok|]. right. split; [lia|done].
    + destruct e; try done.
      exists empty_frame. split; [by eapply emit2_alloc_Ok|by left].
  - exists empty_frame. split; [by eapply emit2_alloc_Ok|by left].
Qed.

Lemma run_scraper_subprocess_total (S : Sys) base_url pages_num w :
  ∃ r w', run_scraper_subprocess S base_url pages_num w = (Ok r, w').
Proof.
  destruct (run_scraper_subprocess S base_url pages_num w) as [[r|e] w'] eqn:E;
    [eauto|].
  unfold run_scraper_subprocess in E.
  apply try_except_Raise in E as (e0 & w1 & _ & E). discriminate E.
Qed.

(** X12: the orchestrator never raises: whatever the child does and
    whatever fails, it returns a frame, and that frame is the parsed
    output of the child only when the child ended with status 0;
    otherwise it is the empty frame. *)
Theorem run_scraper_subprocess_returns_a_frame (S : Sys) (base_url : string)
    (pages_num : Z) (w : world) :
  ∃ r d,
    (run_scraper_subprocess S base_url pages_num w).1 = Ok r ∧
    heap (run_scraper_subprocess S base_url pages_num w).2 !! r = Some d ∧
    (d = empty_frame ∨
     (returncode (spawn S base_url pages_num) = 0 ∧
      parse_listings S (stdout (spawn S base_url pages_num)) = Ok d)).
Proof.
  destruct (run_scraper_subprocess_total S base_url pages_num w) as (r & w' & E).
  rewrite E. cbn [fst snd].
  apply run_scraper_subprocess_Ok in E as (d & Hd & Hor). eauto.
Qed.

End OrchestratorRunFacts.

(** * Evaluation and ranking as a whole *)

Module EvaluateRunFacts.
Import Py PyIO PyFrame Frame Pipeline Orchestrator Evaluate.
Import FrameFacts RunFacts PipelineFacts EvaluateFacts OrchestratorRunFacts.





(** ** The ranking *)

Lemma arith_shape op a b v :
  arith op a b = Ok v → v = VNull ∨ ∃ x, v = VFloat x.
Proof.
  unfold arith. intros H.
  apply obind_Ok in H as (x & _ & H). apply obind_Ok in H as (y & _ & H).
  destruct x, y; injection H as <-; eauto.
Qed.



(** The rows with a number for a key and the rows without one share out
    the rows of the frame. *)
Lemma present_missing_perm (keyed : list (gmap string value * option float)) :
  map fst
    (omap (λ p : gmap string value * option float,
             match p.2 with
             | Some k => if PrimFloat.is_nan k then None else Some (p.1, k)
             | None => None
             end) keyed)
  ++ omap (λ p : gmap string value * option float,
             match p.2 with
             | Some k => if PrimFloat.is_nan k then Some p.1 else None
             | None => Some p.1
             end) keyed
  ≡ₚ map fst keyed.
Proof.
  induction keyed as [|[row [k|]] keyed IH]; [done|..]; cbn [omap list_omap fst snd map].
  - destruct (PrimFloat.is_nan k); cbn.
    + by rewrite <- Permutation_middle, IH.
    + by rewrite IH.
  - by rewrite <- Permutation_middle, IH.
Qed.

Lemma sort_values_desc_perm c d d' :
  sort_values_desc c d = Ok d' → rows d' ≡ₚ rows d.
Proof.
  unfold sort_values_desc. destruct (has_column c d); [|done]. intros H.
  apply obind_Ok in H as (keyed & Hk & H). apply CrawlLogFacts.Ok_inj in H. subst d'. cbn [rows].
  assert (E : map fst keyed = rows d).
  { apply omapM_Ok in Hk. clear -Hk.
    induction Hk as [|row p rows keyed Hp _ IH]; [done|]. cbn. f_equal; [|done].
    apply omap_ok_Ok in Hp as (k & _ & ->). done. }
  rewrite <- E, <- present_missing_perm.
  apply Permutation_app_tail, fmap_Permutation, SortFacts.sort_desc_perm.
Qed.

(** A frame that evaluation returns is empty, or has a score, missing
    or a float, in every row. *)
Lemma evaluate_scores (L : Pandas) (S : Sys) base_url pages_num w r w' :
  evaluate_multiple_listings L S base_url pages_num w = (Ok r, w') →
  ∃ d, heap w' !! r = Some d ∧
    (empty d = true ∨
     (has_column "VFM Score" d = true ∧
      ∀ row, row ∈ rows d →
        cell "VFM Score" row = VNull ∨ ∃ x, cell "VFM Score" row = VFloat x)).
Proof.
  unfold evaluate_multiple_listings. intros H.
  apply try_except_Ok in H as [H|(e & w1 & _ & H)];
    [|exists empty_frame; split; [by eapply emit_alloc_Ok|by left]].
  apply bind_Ok in H as (df0 & w0 & _ & H).
  apply bind_Ok in H as (df1 & w1 & _ & H).
  apply bind_Ok in H as (df2 & w2 & _ & H).
  apply bind_Ok in H as (df3 & w3 & _ & H).
  apply bind_Ok in H as (d3 & w4 & Hd & H). apply deref_Ok in Hd as [Hd3 ->].
  destruct (empty d3);
    [exists empty_frame; split; [by eapply emit_alloc_Ok|by left]|].
  apply bind_Ok in H as (? & w4 & Ha & H).
  apply df_assign_Ok in Ha as (d & vs4 & d4 & Hd & _ & Hs4 & Hd4).
  apply bind_Ok in H as (? & w5 & Ha & H).
  apply df_assign_Ok in Ha as (d0 & vs5 & d5 & Hd0 & Hvs5 & Hs5 & Hd5).
  rewrite Hd4 in Hd0. apply (inj Some) in Hd0. subst d0.
  apply ret_Ok in H as [-> ->].
  exists d5. split; [done|]. right. split.
  - unfold setcol in Hs5. case_bool_decide; [|done].
    apply CrawlLogFacts.Ok_inj in Hs5. subst d5. unfold has_column. cbn [columns].
    destruct (bool_decide ("VFM Score" ∈ columns d4)) eqn:E; [done|].
    apply bool_decide_eq_true, elem_of_app. right. by apply list_elem_of_singleton.
  - intros row5 Hin.
    destruct (setcol_rows _ _ _ _ _ Hs5 Hin) as (i & row4 & v5 & Hrow4 & Hv5 & ->).
    rewrite cell_insert, decide_True by done.
    apply obind_Ok in Hvs5 as (s & Hs & Hvs5).
    pose proof (col_lookup _ _ _ _ _ Hs Hrow4) as Hsi.
    destruct (omapM_lookup _ _ _ _ _ Hvs5 Hsi) as (v & Hv & Ev).
    rewrite Hv5 in Hv. apply (inj Some) in Hv. subst v.
    by apply arith_shape in Ev.
Qed.

Lemma evaluate_multiple_listings_total (L : Pandas) (S : Sys) base_url pages_num w :
  ∃ r w', evaluate_multiple_listings L S base_url pages_num w = (Ok r, w').
Proof.
  destruct (evaluate_multiple_listings L S base_url pages_num w)
    as [[r|e] w'] eqn:E; [eauto|].
  unfold evaluate_multiple_listings in E.
  apply try_except_Raise in E as (e0 & w1 & _ & E). discriminate E.
Qed.

(** What the button handler does with the frame evaluation returned. *)
Lemma top_df_run (L : Pandas) (S : Sys) base_url pages_num w res w1 d :
  evaluate_multiple_listings L S base_url pages_num w = (Ok res, w1) →
  heap w1 !! res = Some d →
  top_df L S base_url pages_num w
  = if negb (empty d) then
      match sort_values_desc "VFM Score" d with
      | Ok d' =>
          (Ok (Some (length (heap w1) + 1)%nat),
           mkworld (files w1) (faults w1) (journal w1) ((heap w1 ++ [d']) ++ [d']))
      | Raise e => (Raise e, w1)
      end
    else (Ok None, w1).
Proof.
  intros E Hd. unfold top_df, bind at 1. rewrite E.
  unfold bind at 1, deref. rewrite Hd.
  destruct (empty d); cbn [negb]; [done|].
  unfold bind at 1, df_new, bind, deref, lift. rewrite Hd.
  destruct (sort_values_desc "VFM Score" d) as [d'|e]; [|done].
  unfold alloc, df_copy, bind, deref, ret. cbn [heap].
  rewrite lookup_snoc_length. cbn. by rewrite length_app.
Qed.


(** The sorted frame is the rows with a number for a key followed by
    the rows without one. *)
Lemma sort_values_desc_split c d d' :
  sort_values_desc c d = Ok d' →
  ∃ pres miss, rows d' = pres ++ miss ∧
    (∀ row, row ∈ pres →
       ∃ k, num (cell c row) = Ok (Some k) ∧ PrimFloat.is_nan k = false) ∧
    (∀ row, row ∈ miss →
       num (cell c row) = Ok None ∨
       ∃ k, num (cell c row) = Ok (Some k) ∧ PrimFloat.is_nan k = true).
Proof.
  unfold sort_values_desc. destruct (has_column c d); [|done]. intros H.
  apply obind_Ok in H as (keyed & Hk & H). apply CrawlLogFacts.Ok_inj in H.
  subst d'. cbn [rows]. apply omapM_Ok in Hk.
  assert (Hkeyed : ∀ p, p ∈ keyed → num (cell c p.1) = Ok p.2).
  { intros p Hp. apply list_elem_of_lookup in Hp as [i Hi].
    destruct (Forall2_lookup_r _ _ _ _ _ Hk Hi) as (row & Hrow & E).
    apply omap_ok_Ok in E as (k & E & ->). done. }
  eexists _, _. split; [reflexivity|]. split.
  - intros row Hin. apply list_elem_of_fmap in Hin as ([row' k] & -> & Hin).
    rewrite SortFacts.sort_desc_perm in Hin.
    apply list_elem_of_omap in Hin as ([row0 k0] & Hin & E).
    apply Hkeyed in Hin. cbn in *.
    destruct k0 as [k0|]; [|done]. destruct (PrimFloat.is_nan k0) eqn:En; [done|].
    injection E as <- <-. eauto.
  - intros row Hin. apply list_elem_of_omap in Hin as ([row0 k0] & Hin & E).
    apply Hkeyed in Hin. cbn in *.
    destruct k0 as [k0|]; [destruct (PrimFloat.is_nan k0) eqn:En; [|done]|];
      injection E as <-; eauto.
Qed.

(** X15: ranking loses and adds nothing: the frame shown has the columns
    of the evaluated frame and its rows in another order, and the rows
    without a score stand after all the rows with one. *)
Theorem ranking_keeps_every_listing (L : Pandas) (S : Sys) (base_url : string)
    (pages_num : Z) (w : world) (r : nat) :
  (top_df L S base_url pages_num w).1 = Ok (Some r) →
  ∃ res d d',
    (evaluate_multiple_listings L S base_url pages_num w).1 = Ok res ∧
    heap (evaluate_multiple_listings L S base_url pages_num w).2 !! res = Some d ∧
    heap (top_df L S base_url pages_num w).2 !! r = Some d' ∧
    columns d' = columns d ∧
    rows d' ≡ₚ rows d ∧
    ∀ i j ri rj,
      (i < j)%nat → rows d' !! i = Some ri → rows d' !! j = Some rj →
      is_null (cell "VFM Score" ri) = true → is_null (cell "VFM Score" rj) = true.
Proof.
  destruct (evaluate_multiple_listings_total L S base_url pages_num w)
    as (res & w1 & E).
  destruct (evaluate_scores L S _ _ _ _ _ E) as (d & Hd & Hor).
  rewrite (top_df_run L S _ _ _ _ _ _ E Hd), E. cbn [fst snd].
  destruct (empty d) eqn:He; cbn [negb]; [done|].
  destruct Hor as [?|[Hc Hshape]]; [done|].
  destruct (sort_values_desc "VFM Score" d) as [d'|e] eqn:Hs; [|done].
  cbn [fst snd heap]. intros Hr. apply CrawlLogFacts.Ok_inj in Hr.
  apply (inj Some) in Hr. subst r.
  exists res, d, d'. split; [done|]. split; [done|]. split.
  { replace (length (heap w1) + 1)%nat with (length (heap w1 ++ [d'])).
    - apply lookup_snoc_length.
    - by rewrite length_app. }
  pose proof (sort_values_desc_perm _ _ _ Hs) as Hperm.
  split; [by apply sort_values_desc_Ok in Hs as [? _]|]. split; [done|].
  destruct (sort_values_desc_split _ _ _ Hs) as (pres & miss & Hrows & Hpres & Hmiss).
  intros i j ri rj Hij Hi Hj Hnull. rewrite Hrows in Hi, Hj.
  assert (Hlen : (length pres ≤ i)%nat).
  { destruct (decide (length pres ≤ i)%nat) as [|Hlt]; [done|].
    rewrite lookup_app_l in Hi by lia.
    apply list_elem_of_lookup_2, Hpres in Hi as (k & Hk & Hnan).
    destruct (cell "VFM Score" ri) as [| | |x|]; try done.
    cbn in Hk, Hnull. injection Hk as ->. congruence. }
  rewrite lookup_app_r in Hj by lia.
  apply list_elem_of_lookup_2 in Hj.
  assert (Hin : rj ∈ rows d).
  { rewrite <- Hperm, Hrows. apply elem_of_app. by right. }
  apply Hmiss in Hj. destruct (Hshape rj Hin) as [E'|[x E']]; rewrite E' in *; [done|].
  cbn in *. destruct Hj as [?|(k & [= <-] & ?)]; done.
Qed.

Lemma ranking_keeps_every_listing_witness :
  ∃ res d d',
    (evaluate_multiple_listings sample_pandas sample_sys sample_url 1
       CrawlFacts.world0).1 = Ok res ∧
    heap (evaluate_multiple_listings sample_pandas sample_sys sample_url 1
            CrawlFacts.world0).2 !! res = Some d ∧
    heap (top_df sample_pandas sample_sys sample_url 1 CrawlFacts.world0).2 !! 13%nat
      = Some d' ∧
    columns d' = columns d ∧
    rows d' ≡ₚ rows d ∧
    ∀ i j ri rj,
      (i < j)%nat → rows d' !! i = Some ri → rows d' !! j = Some rj →
      is_null (cell "VFM Score" ri) = true → is_null (cell "VFM Score" rj) = true.
Proof.
  apply (ranking_keeps_every_listing sample_pandas sample_sys sample_url 1
           CrawlFacts.world0 13).
  vm_compute. reflexivity.
Defined.

End EvaluateRunFacts.

(** * More facts about cleaning *)

Module CleaningFacts.
Import Py PyFrame Frame Pipeline.
Import FrameFacts RunFacts PipelineFacts EvaluateFacts.

(** ** Properties of rows that later steps keep *)

(** [Q] reads only the columns [cs] of a row. *)
Definition reads (cs : list string) (Q : gmap string value → Prop) : Prop :=
  ∀ r r', (∀ c, c ∈ cs → cell c r' = cell c r) → Q r → Q r'.

(** A frame that has the columns [cs] and whose rows satisfy [Q]. *)
Definition holds (cs : list string) (Q : gmap string value → Prop)
    (d : DataFrame) : Prop :=
  (∀ c, c ∈ cs → has_column c d = true) ∧ Forall Q (rows d).

Lemma setcol_has_column_self c vs d d' :
  setcol c vs d = Ok d' → has_column c d' = true.
Proof.
  unfold setcol. case_bool_decide; [|done]. intros Hd'.
  apply CrawlLogFacts.Ok_inj in Hd'. subst d'. unfold has_column. cbn [columns].
  destruct (bool_decide (c ∈ columns d)) eqn:E; [done|].
  apply bool_decide_eq_true, elem_of_app. right. by apply list_elem_of_singleton.
Qed.

Lemma setcol_keeps cs Q c vs d d' :
  reads cs Q → c ∉ cs → setcol c vs d = Ok d' →
  Forall Q (rows d) → Forall Q (rows d').
Proof.
  intros Hreads Hc Hs HQ. apply Forall_forall. intros row' Hin.
  destruct (setcol_rows _ _ _ _ _ Hs Hin) as (i & row & v & Hrow & _ & ->).
  eapply Hreads; [|eapply Forall_lookup_1; eauto].
  intros k Hk. rewrite cell_insert, decide_False; [done|]. by intros ->.
Qed.

Lemma setcol_holds cs Q c vs d d' :
  reads cs Q → c ∉ cs → setcol c vs d = Ok d' → holds cs Q d → holds cs Q d'.
Proof.
  intros Hreads Hc Hs [Hcols HQ]. split.
  - intros k Hk. eapply setcol_has_column; [done|auto].
  - by eapply setcol_keeps.
Qed.

Lemma df_assign_holds cs Q df c rhs w u w' d :
  reads cs Q → c ∉ cs → heap w !! df = Some d → holds cs Q d →
  df_assign df c rhs w = (Ok u, w') →
  ∃ d', heap w' !! df = Some d' ∧ holds cs Q d'.
Proof.
  intros Hreads Hc Hd HQ H.
  apply df_assign_Ok in H as (d0 & vs & d' & Hd0 & _ & Hs & Hd').
  rewrite Hd in Hd0. apply (inj Some) in Hd0. subst d0.
  exists d'. split; [done|]. by eapply setcol_holds.
Qed.

(** What an assignment does to the rows. *)
Lemma df_assign_rows df c rhs w u w' d :
  heap w !! df = Some d →
  df_assign df c rhs w = (Ok u, w') →
  ∃ vs d', rhs d = Ok vs ∧ heap w' !! df = Some d' ∧
    (∀ k, has_column k d = true → has_column k d' = true) ∧
    has_column c d' = true ∧
    ∀ row', row' ∈ rows d' →
      ∃ i row v, rows d !! i = Some row ∧ vs !! i = Some v ∧ row' = <[c := v]> row.
Proof.
  intros Hd H.
  apply df_assign_Ok in H as (d0 & vs & d' & Hd0 & Hvs & Hs & Hd').
  rewrite Hd in Hd0. apply (inj Some) in Hd0. subst d0.
  exists vs, d'. split_and!; try done.
  - intros k. by eapply setcol_has_column.
  - by eapply setcol_has_column_self.
  - intros row' Hin. by eapply setcol_rows.
Qed.

Lemma join_holds L cs Q df w r w' d :
  reads cs Q →
  (∀ ref, read_title_ref L = Ok ref → ∀ c, c ∈ cs → c ∉ columns ref) →
  heap w !! df = Some d → holds cs Q d →
  join_title_aggregates L df w = (Ok r, w') →
  ∃ d', heap w' !! r = Some d' ∧ Forall Q (rows d').
Proof.
  intros Hreads Href Hd [Hcols HQ] H.
  destruct (join_title_aggregates_Ok _ _ _ _ _ _ Hd H) as (d' & Hd' & Hrows).
  exists d'. split; [done|].
  destruct Hrows as [->|(ref & m & Hr & Hm & Hsub)]; [done|].
  apply Forall_forall. intros row Hin. apply Hsub in Hin.
  destruct (merge_left_rows _ _ _ _ _ Hm Hin) as (l & Hl & Hcell).
  eapply Hreads; [|eapply Forall_forall in HQ; [exact HQ|done]].
  intros c Hc. apply Hcell; [auto|]. by eapply Href.
Qed.

(** Steps 8 to 10 keep a property of the rows that reads neither of the
    two ratio columns, when the title aggregates bring no column that
    the property reads. *)
Lemma cleaning_tail_holds L cs Q df w r w' d :
  reads cs Q →
  ("mileage_vs_avg_title" ∉ cs) → ("months_vs_avg" ∉ cs) →
  (∀ ref, read_title_ref L = Ok ref → ∀ c, c ∈ cs → c ∉ columns ref) →
  heap w !! df = Some d → holds cs Q d →
  (let* df := join_title_aggregates L df in
   let* df := drop_price_outliers_by_title df "price" 10 in
   df_assign df "mileage_vs_avg_title"
     (λ d, obind (col "mileage" d) (λ m,
           obind (col "avg_mileage_by_title" d) (λ a,
           arith_series PrimFloat.div m (map replace_zero a)))) ;;
   df_assign df "months_vs_avg"
     (λ d, obind (col "months_on_road" d) (λ m,
           obind (col "avg_months_on_road_by_title" d) (λ a,
           arith_series PrimFloat.div m (map replace_zero a)))) ;;
   ret df) w = (Ok r, w') →
  ∃ d', heap w' !! r = Some d' ∧ Forall Q (rows d').
Proof.
  intros Hreads Hn1 Hn2 Href Hd HQ H.
  apply bind_Ok in H as (df8 & w8 & Hj & H).
  destruct (join_holds _ _ _ _ _ _ _ _ Hreads Href Hd HQ Hj) as (d8 & Hd8 & HQ8).
  apply bind_Ok in H as (df9 & w9 & Ho & H).
  apply outlier_filter_run in Ho as (d0 & d9 & lo & Hd0 & Hd9 & _ & _ & _ & Hrows9).
  rewrite Hd8 in Hd0. apply (inj Some) in Hd0. subst d0.
  assert (HQ9 : Forall Q (rows d9)).
  { apply Forall_forall. intros row Hin. apply Hrows9 in Hin as [Hin _].
    eapply Forall_forall in HQ8; [exact HQ8|done]. }
  apply bind_Ok in H as (? & w10 & Ha & H).
  apply df_assign_Ok in Ha as (d0 & ? & d10 & Hd0 & _ & Hs10 & Hd10).
  rewrite Hd9 in Hd0. apply (inj Some) in Hd0. subst d0.
  apply bind_Ok in H as (? & w11 & Ha & H).
  apply df_assign_Ok in Ha as (d0 & ? & d11 & Hd0 & _ & Hs11 & Hd11).
  rewrite Hd10 in Hd0. apply (inj Some) in Hd0. subst d0.
  apply ret_Ok in H as [-> ->].
  exists d11. split; [done|].
  eapply setcol_keeps; [exact Hreads|exact Hn2|exact Hs11|].
  eapply setcol_keeps; [exact Hreads|exact Hn1|exact Hs10|done].
Qed.

Lemma not_elem_of_list (c : string) (cs : list string) :
  bool_decide (c ∈ cs) = false → c ∉ cs.
Proof. by intros H%bool_decide_eq_false. Qed.

(** ** The price band in the cleaned frame *)

Lemma ratio_within_reads lo hi :
  reads ["avg_price_by_title"; "price"] (ratio_within "price" lo hi).
Proof.
  intros r r' Hc (a & p & Ha & Hp & H1 & H2). exists a, p.
  rewrite !Hc by (rewrite !elem_of_cons; auto). done.
Qed.

(** X16: no outlier survives cleaning: in every row of the cleaned frame
    the average price of the title and the price are numbers whose
    ratio lies strictly between one tenth and ten. *)
Theorem cleaned_rows_are_within_the_band (L : Pandas) (df : nat) (w : world) (r : nat) :
  (preprocess_car_data L df w).1 = Ok r →
  ∃ d' tenth,
    heap (preprocess_car_data L df w).2 !! r = Some d' ∧
    PyFloat.true_div 1 10 = Ok tenth ∧
    ∀ row, row ∈ rows d' →
      ∃ a p, num (cell "avg_price_by_title" row) = Ok (Some a) ∧
             num (cell "price" row) = Ok (Some p) ∧
             PrimFloat.ltb tenth (a / p) = true ∧
             PrimFloat.ltb (a / p) (PyFloat.lit 10) = true.
Proof.
  intros H.
  destruct (preprocess_car_data L df w) as [res w'] eqn:E.
  cbn [fst snd] in *. subst res. rename E into H.
  unfold preprocess_car_data in H.
  do 19 skip_new H.
  apply bind_Ok in H as (df9 & w9 & Ho & H).
  apply outlier_filter_run in Ho as (d8 & d9 & lo & _ & Hd9 & _ & Hlo & _ & Hrows9).
  apply bind_Ok in H as (? & w10 & Ha & H).
  apply df_assign_Ok in Ha as (d0 & ? & d10 & Hd0 & _ & Hs10 & Hd10).
  rewrite Hd9 in Hd0. apply (inj Some) in Hd0. subst d0.
  apply bind_Ok in H as (? & w11 & Ha & H).
  apply df_assign_Ok in Ha as (d0 & ? & d11 & Hd0 & _ & Hs11 & Hd11).
  rewrite Hd10 in Hd0. apply (inj Some) in Hd0. subst d0.
  apply ret_Ok in H as [-> ->].
  exists d11, lo. split; [done|]. split; [done|].
  assert (HQ : Forall (ratio_within "price" lo (PyFloat.lit 10)) (rows d11)).
  { eapply setcol_keeps; [apply ratio_within_reads| |exact Hs11|].
    { by apply not_elem_of_list. }
    eapply setcol_keeps; [apply ratio_within_reads| |exact Hs10|].
    { by apply not_elem_of_list. }
    apply Forall_forall. intros row Hin. by apply Hrows9 in Hin as [_ ?]. }
  intros row Hin. eapply Forall_forall in HQ; [exact HQ|done].
Qed.

Lemma cleaned_rows_are_within_the_band_witness :
  ∃ d' tenth,
    heap (preprocess_car_data sample_pandas 0 sample_world).2 !! 9%nat = Some d' ∧
    PyFloat.true_div 1 10 = Ok tenth ∧
    ∀ row, row ∈ rows d' →
      ∃ a p, num (cell "avg_price_by_title" row) = Ok (Some a) ∧
             num (cell "price" row) = Ok (Some p) ∧
             PrimFloat.ltb tenth (a / p) = true ∧
             PrimFloat.ltb (a / p) (PyFloat.lit 10) = true.
Proof.
  apply (cleaned_rows_are_within_the_band sample_pandas 0 sample_world 9).
  vm_compute. reflexivity.
Defined.

(** ** Cleaning without the table of title aggregates *)

Lemma df_assign_lacks c' df c rhs w u w' d :
  c ≠ c' → heap w !! df = Some d → has_column c' d = false →
  df_assign df c rhs w = (Ok u, w') →
  ∃ d', heap w' !! df = Some d' ∧ has_column c' d' = false.
Proof.
  intros Hne Hd Hc H.
  apply df_assign_Ok in H as (d0 & vs & d' & Hd0 & _ & Hs & Hd').
  rewrite Hd in Hd0. apply (inj Some) in Hd0. subst d0.
  exists d'. split; [done|]. by rewrite (setcol_has_column_ne _ _ _ _ _ Hne Hs).
Qed.

Lemma df_new_lacks c' f df w r w' d :
  (∀ d d', f d = Ok d' → columns d' = columns d) →
  heap w !! df = Some d → has_column c' d = false →
  df_new f df w = (Ok r, w') →
  ∃ d', heap w' !! r = Some d' ∧ has_column c' d' = false.
Proof.
  intros Hf Hd Hc H.
  apply df_new_Ok in H as (d0 & d' & Hd0 & Hfd & Hd').
  rewrite Hd in Hd0. apply (inj Some) in Hd0. subst d0.
  exists d'. split; [done|]. unfold has_column in *. by rewrite (Hf _ _ Hfd).
Qed.

Lemma drop_duplicates_columns c d d' :
  drop_duplicates c d = Ok d' → columns d' = columns d.
Proof.
  unfold drop_duplicates. destruct (has_column c d); [|done].
  intros H. apply CrawlLogFacts.Ok_inj in H. by subst d'.
Qed.

Lemma dropna_columns c d d' : dropna c d = Ok d' → columns d' = columns d.
Proof.
  unfold dropna. destruct (has_column c d); [|done].
  intros H. apply CrawlLogFacts.Ok_inj in H. by subst d'.
Qed.

Lemma reset_index_columns d d' : reset_index d = Ok d' → columns d' = columns d.
Proof. intros H. apply CrawlLogFacts.Ok_inj in H. by subst d'. Qed.

(** Without the table the join is skipped: the frame is the one before. *)
Lemma join_without_table L df w r w' e0 :
  read_title_ref L = Raise e0 →
  join_title_aggregates L df w = (Ok r, w') → r = df ∧ heap w' = heap w.
Proof.
  intros Hr. unfold join_title_aggregates, bind at 1, lift. rewrite Hr.
  by intros [= <- <-].
Qed.

Ltac lacks_assign H Hd Hc :=
  let Ha := fresh "Ha" in
  apply bind_Ok in H as (? & ? & Ha & H);
  eapply (df_assign_lacks "avg_price_by_title") in Ha; [|done|exact Hd|exact Hc];
  clear Hd Hc; destruct Ha as (? & Hd & Hc).

Ltac lacks_new H Hd Hc lem :=
  let Ha := fresh "Ha" in
  apply bind_Ok in H as (? & ? & Ha & H);
  eapply (df_new_lacks "avg_price_by_title") in Ha; [|apply lem|exact Hd|exact Hc];
  clear Hd Hc; destruct Ha as (? & Hd & Hc).

(** X17: when the table of title aggregates cannot be read and the
    listings bring no column [avg_price_by_title] of their own, cleaning
    never returns a frame: whatever the listings, it ends in an
    exception. *)
Theorem cleaning_needs_the_title_table (L : Pandas) (df : nat) (w : world)
    (d : DataFrame) (e0 : exn) :
  read_title_ref L = Raise e0 →
  heap w !! df = Some d →
  has_column "avg_price_by_title" d = false →
  ∃ e, (preprocess_car_data L df w).1 = Raise e.
Proof.
  intros Hr Hd Hc.
  destruct (preprocess_car_data L df w) as [[r|e] w'] eqn:H; [exfalso|by exists e].
  unfold preprocess_car_data in H.
  apply bind_Ok in H as (df0 & w0 & Ha & H).
  apply df_copy_Ok in Ha as (d0 & Hd0 & Hd1).
  rewrite Hd in Hd0. apply (inj Some) in Hd0. subst d0. clear Hd. rename Hd1 into Hd.
  lacks_new H Hd Hc drop_duplicates_columns.
  lacks_new H Hd Hc reset_index_columns.
  do 2 lacks_assign H Hd Hc.
  lacks_new H Hd Hc dropna_columns.
  do 12 lacks_assign H Hd Hc.
  apply bind_Ok in H as (df8 & w8 & Hj & H).
  apply (join_without_table _ _ _ _ _ _ Hr) in Hj as [-> Hh].
  apply bind_Ok in H as (df9 & w9 & Ho & H).
  apply outlier_filter_run in Ho as (d8 & d9 & lo & Hd8 & _ & Hhas & _).
  rewrite Hh, Hd in Hd8. apply (inj Some) in Hd8. subst d8. congruence.
Qed.

(** The sample tables, with the file of title aggregates missing. *)
Definition pandas_without_table : Pandas :=
  mkpandas (str_of sample_pandas) (re_sub_non_numeric sample_pandas)
           (to_numeric sample_pandas) (to_datetime sample_pandas)
           (to_datetime_scalar sample_pandas) (Raise FileNotFoundError)
           (model_predict sample_pandas).

Lemma cleaning_needs_the_title_table_witness :
  ∃ e, (preprocess_car_data pandas_without_table 0 sample_world).1 = Raise e.
Proof.
  apply (cleaning_needs_the_title_table pandas_without_table 0 sample_world
           sample_listings FileNotFoundError).
  - reflexivity.
  - reflexivity.
  - vm_compute. reflexivity.
Defined.

Ltac cell_simpl :=
  rewrite ?cell_insert;
  repeat first [rewrite decide_False by done | rewrite decide_True by done].

(** ** The columns derived from the dates *)

Definition months_on_road_ok (row : gmap string value) : Prop :=
  (∀ u o, cell "upload_date" row = VDate u → cell "on_road_date" row = VDate o →
          cell "months_on_road" row
          = VInt ((year u - year o) * 12 + (month u - month o))) ∧
  (is_null (cell "upload_date" row) = true ∨
   is_null (cell "on_road_date" row) = true →
   cell "months_on_road" row = VNull).

Definition on_road_parts_ok (row : gmap string value) : Prop :=
  dt_year (cell "on_road_date" row) = Ok (cell "on_road_year" row) ∧
  dt_month (cell "on_road_date" row) = Ok (cell "on_road_month" row).

Definition date_columns : list string :=
  ["upload_date"; "on_road_date"; "months_on_road"; "on_road_year"; "on_road_month"].

Lemma row_get_Ok c row v : row_get c row = Ok v → cell c row = v.
Proof.
  unfold row_get, cell. destruct (row !! c); [|done]. by intros [= ->].
Qed.

Lemma calculate_months_on_road_Ok row v :
  calculate_months_on_road row = Ok v →
  (∀ u o, cell "upload_date" row = VDate u → cell "on_road_date" row = VDate o →
          v = VInt ((year u - year o) * 12 + (month u - month o))) ∧
  (is_null (cell "upload_date" row) = true ∨
   is_null (cell "on_road_date" row) = true → v = VNull).
Proof.
  unfold calculate_months_on_road. intros H.
  apply obind_Ok in H as (u & Hu & H). apply row_get_Ok in Hu. rewrite Hu.
  apply obind_Ok in H as (o & Ho & H).
  destruct (is_null u) eqn:Enu.
  - injection Ho as <-. cbn in H. injection H as <-. split; [|done].
    intros u' o' ->. done.
  - apply row_get_Ok in Ho. rewrite Ho. cbn [orb] in H.
    destruct (is_null o) eqn:Eno.
    + injection H as <-. split; [|done]. intros u' o' _ ->. done.
    + split; [|by intros [?|?]].
      intros u' o' -> ->. by injection H as <-.
Qed.

Lemma date_columns_reads :
  reads date_columns (λ row, months_on_road_ok row ∧ on_road_parts_ok row).
Proof.
  intros r r' Hc. unfold months_on_road_ok, on_road_parts_ok.
  rewrite !Hc by (unfold date_columns; rewrite !elem_of_cons; auto 10). done.
Qed.

Lemma dt_series_lookup (f : value → outcome value) c d vs i row :
  obind (col c d) (omapM f) = Ok vs → rows d !! i = Some row →
  ∃ v, vs !! i = Some v ∧ f (cell c row) = Ok v.
Proof.
  intros H Hrow. apply obind_Ok in H as (s & Hs & H).
  pose proof (col_lookup _ _ _ _ _ Hs Hrow) as Hsi.
  by destruct (omapM_lookup _ _ _ _ _ H Hsi) as (v & ? & ?); exists v.
Qed.

(** In the cleaned frame the months on the road and the year and month
    of the on-road date are what steps 5 and 6 computed. *)
Lemma cleaning_dates L df w r w' :
  (∀ ref, read_title_ref L = Ok ref → ∀ c, c ∈ date_columns → c ∉ columns ref) →
  preprocess_car_data L df w = (Ok r, w') →
  ∃ d', heap w' !! r = Some d' ∧
    Forall (λ row, months_on_road_ok row ∧ on_road_parts_ok row) (rows d').
Proof.
  intros Href H. unfold preprocess_car_data in H.
  do 6 skip_new H.
  (* the frame of steps 2 to 7 *)
  apply bind_Ok in H as (? & w7 & Ha7 & H).
  apply df_assign_Ok in Ha7 as (d6 & ? & d7 & _ & _ & _ & Hd7).
  apply bind_Ok in H as (? & w8 & Ha8 & H).
  destruct (df_assign_rows _ _ _ _ _ _ _ Hd7 Ha8) as (? & d8 & _ & Hd8 & _ & _ & _).
  apply bind_Ok in H as (? & w9 & Ha9 & H).
  destruct (df_assign_rows _ _ _ _ _ _ _ Hd8 Ha9) as (? & d9 & _ & Hd9 & _ & _ & _).
  apply bind_Ok in H as (? & w10 & Ha10 & H).
  destruct (df_assign_rows _ _ _ _ _ _ _ Hd9 Ha10) as (? & d10 & _ & Hd10 & _ & _ & _).
  (* Step 3 *)
  apply bind_Ok in H as (? & w11 & Ha11 & H).
  destruct (df_assign_rows _ _ _ _ _ _ _ Hd10 Ha11) as (? & d11 & _ & Hd11 & _ & Hup & _).
  apply bind_Ok in H as (? & w12 & Ha12 & H).
  destruct (df_assign_rows _ _ _ _ _ _ _ Hd11 Ha12) as (? & d12 & _ & Hd12 & Hk12 & _ & _).
  (* Step 4 *)
  apply bind_Ok in H as (? & w13 & Ha13 & H).
  destruct (df_assign_rows _ _ _ _ _ _ _ Hd12 Ha13) as (? & d13 & _ & Hd13 & Hk13 & Hor & _).
  (* Step 5 *)
  apply bind_Ok in H as (? & w14 & Ha14 & H).
  destruct (df_assign_rows _ _ _ _ _ _ _ Hd13 Ha14)
    as (vs14 & d14 & Hvs14 & Hd14 & Hk14 & Hmor & Hrows14).
  assert (HQ14 : Forall months_on_road_ok (rows d14)).
  { apply Forall_forall. intros row' Hin.
    destruct (Hrows14 row' Hin) as (i & row & v & Hrow & Hv & ->).
    destruct (omapM_lookup _ _ _ _ _ Hvs14 Hrow) as (v' & Hv' & Ev).
    rewrite Hv in Hv'. apply (inj Some) in Hv'. subst v'.
    apply calculate_months_on_road_Ok in Ev.
    unfold months_on_road_ok. cell_simpl. exact Ev. }
  (* Step 6 *)
  apply bind_Ok in H as (? & w15 & Ha15 & H).
  destruct (df_assign_rows _ _ _ _ _ _ _ Hd14 Ha15)
    as (vs15 & d15 & Hvs15 & Hd15 & Hk15 & Hyear & Hrows15).
  assert (HQ15 : Forall (λ row, months_on_road_ok row ∧
                   dt_year (cell "on_road_date" row) = Ok (cell "on_road_year" row))
                  (rows d15)).
  { apply Forall_forall. intros row' Hin.
    destruct (Hrows15 row' Hin) as (i & row & v & Hrow & Hv & ->).
    destruct (dt_series_lookup _ _ _ _ _ _ Hvs15 Hrow) as (v' & Hv' & Ev).
    rewrite Hv in Hv'. apply (inj Some) in Hv'. subst v'.
    eapply Forall_lookup_1 in HQ14; [|exact Hrow].
    unfold months_on_road_ok in *. cell_simpl. done. }
  apply bind_Ok in H as (? & w16 & Ha16 & H).
  destruct (df_assign_rows _ _ _ _ _ _ _ Hd15 Ha16)
    as (vs16 & d16 & Hvs16 & Hd16 & Hk16 & Hmonth & Hrows16).
  assert (HQ16 : holds date_columns
                   (λ row, months_on_road_ok row ∧ on_road_parts_ok row) d16).
  { split.
    - intros c Hc. unfold date_columns in Hc. rewrite !elem_of_cons, elem_of_nil in Hc.
      destruct Hc as [->|[->|[->|[->|[->|[]]]]]]; auto 10.
    - apply Forall_forall. intros row' Hin.
      destruct (Hrows16 row' Hin) as (i & row & v & Hrow & Hv & ->).
      destruct (dt_series_lookup _ _ _ _ _ _ Hvs16 Hrow) as (v' & Hv' & Ev).
      rewrite Hv in Hv'. apply (inj Some) in Hv'. subst v'.
      eapply Forall_lookup_1 in HQ15; [|exact Hrow].
      destruct HQ15 as [Hm Hy].
      unfold months_on_road_ok, on_road_parts_ok in *. cell_simpl.
      split; [exact Hm|]. split; [exact Hy|exact Ev]. }
  (* Step 7 *)
  assert (Hn : "months_to_test" ∉ date_columns) by (by apply not_elem_of_list).
  apply bind_Ok in H as (? & w17 & Ha17 & H).
  destruct (df_assign_holds _ _ _ _ _ _ _ _ _ date_columns_reads
              Hn Hd16 HQ16 Ha17) as (d17 & Hd17 & HQ17).
  apply bind_Ok in H as (? & w18 & Ha18 & H).
  destruct (df_assign_holds _ _ _ _ _ _ _ _ _ date_columns_reads
              Hn Hd17 HQ17 Ha18) as (d18 & Hd18 & HQ18).
  (* Steps 8 to 10 *)
  eapply (cleaning_tail_holds L date_columns) in H;
    [exact H|apply date_columns_reads|by apply not_elem_of_list
    |by apply not_elem_of_list|exact Href|exact Hd18|exact HQ18].
Qed.

(** X18: in the cleaned frame, a row with an upload date and an on-road
    date has [months_on_road] equal to the difference of the two in
    months, years times twelve plus months, negative when the on-road
    date is the later one; a row that lacks either date has none.  The
    title aggregates are assumed not to bring columns of the names the
    date steps use. *)
Theorem months_on_road_is_the_month_difference (L : Pandas) (df : nat) (w : world)
    (r : nat) :
  (∀ ref, read_title_ref L = Ok ref → ∀ c, c ∈ date_columns → c ∉ columns ref) →
  (preprocess_car_data L df w).1 = Ok r →
  ∃ d', heap (preprocess_car_data L df w).2 !! r = Some d' ∧
    ∀ row, row ∈ rows d' →
      (∀ u o, cell "upload_date" row = VDate u → cell "on_road_date" row = VDate o →
              cell "months_on_road" row
              = VInt ((year u - year o) * 12 + (month u - month o))) ∧
      (is_null (cell "upload_date" row) = true ∨
       is_null (cell "on_road_date" row) = true →
       cell "months_on_road" row = VNull).
Proof.
  intros Href H.
  destruct (preprocess_car_data L df w) as [res w'] eqn:E.
  cbn [fst snd] in *. subst res.
  destruct (cleaning_dates L df w r w' Href E) as (d' & Hd' & HQ).
  exists d'. split; [done|]. intros row Hin.
  eapply Forall_forall in HQ; [|exact Hin]. by destruct HQ as [? _].
Qed.

Lemma sample_title_ref_dates ref :
  read_title_ref sample_pandas = Ok ref →
  ∀ c, c ∈ date_columns → c ∉ columns ref.
Proof.
  intros H. apply CrawlLogFacts.Ok_inj in H. subst ref. intros c Hc Hin.
  unfold date_columns in Hc. cbn [columns sample_aggregates] in Hin.
  rewrite !elem_of_cons, elem_of_nil in Hc, Hin.
  destruct Hc as [->|[->|[->|[->|[->|[]]]]]]; intuition discriminate.
Qed.

Lemma months_on_road_is_the_month_difference_witness :
  ∃ d', heap (preprocess_car_data sample_pandas 0 sample_world).2 !! 9%nat = Some d' ∧
    ∀ row, row ∈ rows d' →
      (∀ u o, cell "upload_date" row = VDate u → cell "on_road_date" row = VDate o →
              cell "months_on_road" row
              = VInt ((year u - year o) * 12 + (month u - month o))) ∧
      (is_null (cell "upload_date" row) = true ∨
       is_null (cell "on_road_date" row) = true →
       cell "months_on_road" row = VNull).
Proof.
  apply (months_on_road_is_the_month_difference sample_pandas 0 sample_world 9).
  - exact sample_title_ref_dates.
  - vm_compute. reflexivity.
Defined.

(** X19: in the cleaned frame, [on_road_year] and [on_road_month] are
    the year and the month of the row's on-road date, and missing when
    the date is missing. *)
Theorem on_road_year_and_month_follow_the_date (L : Pandas) (df : nat) (w : world)
    (r : nat) :
  (∀ ref, read_title_ref L = Ok ref → ∀ c, c ∈ date_columns → c ∉ columns ref) →
  (preprocess_car_data L df w).1 = Ok r →
  ∃ d', heap (preprocess_car_data L df w).2 !! r = Some d' ∧
    ∀ row, row ∈ rows d' →
      (∀ o, cell "on_road_date" row = VDate o →
            cell "on_road_year" row = VInt (year o) ∧
            cell "on_road_month" row = VInt (month o)) ∧
      (cell "on_road_date" row = VNull →
       cell "on_road_year" row = VNull ∧ cell "on_road_month" row = VNull).
Proof.
  intros Href H.
  destruct (preprocess_car_data L df w) as [res w'] eqn:E.
  cbn [fst snd] in *. subst res.
  destruct (cleaning_dates L df w r w' Href E) as (d' & Hd' & HQ).
  exists d'. split; [done|]. intros row Hin.
  eapply Forall_forall in HQ; [|exact Hin]. destruct HQ as [_ [Hy Hm]].
  split.
  - intros o Ho. rewrite Ho in Hy, Hm. cbn in Hy, Hm.
    apply CrawlLogFacts.Ok_inj in Hy, Hm. by rewrite <- Hy, <- Hm.
  - intros Ho. rewrite Ho in Hy, Hm. cbn in Hy, Hm.
    apply CrawlLogFacts.Ok_inj in Hy, Hm. by rewrite <- Hy, <- Hm.
Qed.

Lemma on_road_year_and_month_follow_the_date_witness :
  ∃ d', heap (preprocess_car_data sample_pandas 0 sample_world).2 !! 9%nat = Some d' ∧
    ∀ row, row ∈ rows d' →
      (∀ o, cell "on_road_date" row = VDate o →
            cell "on_road_year" row = VInt (year o) ∧
            cell "on_road_month" row = VInt (month o)) ∧
      (cell "on_road_date" row = VNull →
       cell "on_road_year" row = VNull ∧ cell "on_road_month" row = VNull).
Proof.
  apply (on_road_year_and_month_follow_the_date sample_pandas 0 sample_world 9).
  - exact sample_title_ref_dates.
  - vm_compute. reflexivity.
Defined.

(** ** The ratios to the title averages *)

Definition ratio_ok (num_col avg_col ratio_col : string)
    (row : gmap string value) : Prop :=
  arith PrimFloat.div (cell num_col row) (replace_zero (cell avg_col row))
  = Ok (cell ratio_col row).

Lemma ratio_series_lookup num_col avg_col d vs i row :
  obind (col num_col d) (λ m,
    obind (col avg_col d) (λ a,
    arith_series PrimFloat.div m (map replace_zero a))) = Ok vs →
  rows d !! i = Some row →
  ∃ v, vs !! i = Some v ∧
    arith PrimFloat.div (cell num_col row) (replace_zero (cell avg_col row)) = Ok v.
Proof.
  intros H Hrow.
  apply obind_Ok in H as (m & Hm & H). apply obind_Ok in H as (a & Ha & H).
  pose proof (col_lookup _ _ _ _ _ Hm Hrow) as Hmi.
  pose proof (col_lookup _ _ _ _ _ Ha Hrow) as Hai.
  eapply arith_series_lookup; [exact H|exact Hmi|].
  by rewrite list_lookup_fmap, Hai.
Qed.

Lemma replace_zero_zero v :
  v = VInt 0 ∨ (∃ z, v = VFloat z ∧ PrimFloat.eqb z PrimFloat.zero = true) →
  replace_zero v = VNull.
Proof. intros [->|(z & -> & Hz)]; cbn; [done|by rewrite Hz]. Qed.

Lemma arith_null_r op a v : arith op a VNull = Ok v → v = VNull.
Proof.
  unfold arith. intros H. apply obind_Ok in H as (x & _ & H). cbn in H.
  destruct x; by injection H as <-.
Qed.

(** X20: in the cleaned frame, [mileage_vs_avg_title] is the mileage
    divided by the title's average mileage, and [months_vs_avg] the
    months on the road divided by the title's average; an average of
    zero counts as missing, so that the ratio is missing and no division
    by zero takes place. *)
Theorem ratios_to_title_averages (L : Pandas) (df : nat) (w : world) (r : nat) :
  (preprocess_car_data L df w).1 = Ok r →
  ∃ d', heap (preprocess_car_data L df w).2 !! r = Some d' ∧
    ∀ row, row ∈ rows d' →
      arith PrimFloat.div (cell "mileage" row)
            (replace_zero (cell "avg_mileage_by_title" row))
        = Ok (cell "mileage_vs_avg_title" row) ∧
      arith PrimFloat.div (cell "months_on_road" row)
            (replace_zero (cell "avg_months_on_road_by_title" row))
        = Ok (cell "months_vs_avg" row) ∧
      (cell "avg_mileage_by_title" row = VInt 0 ∨
       (∃ z, cell "avg_mileage_by_title" row = VFloat z ∧
             PrimFloat.eqb z PrimFloat.zero = true) →
       cell "mileage_vs_avg_title" row = VNull) ∧
      (cell "avg_months_on_road_by_title" row = VInt 0 ∨
       (∃ z, cell "avg_months_on_road_by_title" row = VFloat z ∧
             PrimFloat.eqb z PrimFloat.zero = true) →
       cell "months_vs_avg" row = VNull).
Proof.
  intros H.
  destruct (preprocess_car_data L df w) as [res w'] eqn:E.
  cbn [fst snd] in *. subst res. rename E into H.
  unfold preprocess_car_data in H.
  do 20 skip_new H.
  apply bind_Ok in H as (? & w21 & Ha21 & H).
  apply df_assign_Ok in Ha21 as (d20 & vs21 & d21 & _ & Hvs21 & Hs21 & Hd21).
  apply bind_Ok in H as (? & w22 & Ha22 & H).
  apply df_assign_Ok in Ha22 as (d0 & vs22 & d22 & Hd0 & Hvs22 & Hs22 & Hd22).
  rewrite Hd21 in Hd0. apply (inj Some) in Hd0. subst d0.
  apply ret_Ok in H as [-> ->].
  exists d22. split; [done|].
  assert (HQ1 : Forall (ratio_ok "mileage" "avg_mileage_by_title" "mileage_vs_avg_title")
                  (rows d21)).
  { apply Forall_forall. intros row' Hin.
    destruct (setcol_rows _ _ _ _ _ Hs21 Hin) as (i & row & v & Hrow & Hv & ->).
    destruct (ratio_series_lookup _ _ _ _ _ _ Hvs21 Hrow) as (v' & Hv' & Ev).
    rewrite Hv in Hv'. apply (inj Some) in Hv'. subst v'.
    unfold ratio_ok. cell_simpl. exact Ev. }
  intros row' Hin.
  destruct (setcol_rows _ _ _ _ _ Hs22 Hin) as (i & row & v & Hrow & Hv & ->).
  destruct (ratio_series_lookup _ _ _ _ _ _ Hvs22 Hrow) as (v' & Hv' & Ev).
  rewrite Hv in Hv'. apply (inj Some) in Hv'. subst v'.
  eapply Forall_lookup_1 in HQ1; [|exact Hrow]. unfold ratio_ok in HQ1.
  cell_simpl. split; [exact HQ1|]. split; [exact Ev|]. split.
  - intros Hz. apply replace_zero_zero in Hz. rewrite Hz in HQ1.
    by apply arith_null_r in HQ1.
  - intros Hz. apply replace_zero_zero in Hz. rewrite Hz in Ev.
    by apply arith_null_r in Ev.
Qed.

Lemma ratios_to_title_averages_witness :
  ∃ d', heap (preprocess_car_data sample_pandas 0 sample_world).2 !! 9%nat = Some d' ∧
    ∀ row, row ∈ rows d' →
      arith PrimFloat.div (cell "mileage" row)
            (replace_zero (cell "avg_mileage_by_title" row))
        = Ok (cell "mileage_vs_avg_title" row) ∧
      arith PrimFloat.div (cell "months_on_road" row)
            (replace_zero (cell "avg_months_on_road_by_title" row))
        = Ok (cell "months_vs_avg" row) ∧
      (cell "avg_mileage_by_title" row = VInt 0 ∨
       (∃ z, cell "avg_mileage_by_title" row = VFloat z ∧
             PrimFloat.eqb z PrimFloat.zero = true) →
       cell "mileage_vs_avg_title" row = VNull) ∧
      (cell "avg_months_on_road_by_title" row = VInt 0 ∨
       (∃ z, cell "avg_months_on_road_by_title" row = VFloat z ∧
             PrimFloat.eqb z PrimFloat.zero = true) →
       cell "months_vs_avg" row = VNull).
Proof.
  apply (ratios_to_title_averages sample_pandas 0 sample_world 9).
  vm_compute. reflexivity.
Defined.

End CleaningFacts.

(** * More facts about scoring and labelling *)

Module ScoringFacts.
Import Py PyIO PyFrame Frame Pipeline Orchestrator Evaluate.
Import FrameFacts RunFacts PipelineFacts EvaluateFacts OrchestratorRunFacts.
Import CleaningFacts.

(** ** The label column *)

Lemma label_recommendation_insert c v row :
  c ≠ "price_diff_vs_error" →
  label_recommendation (<[c := v]> row) = label_recommendation row.
Proof.
  intros Hc. unfold label_recommendation, row_get. by rewrite lookup_insert_ne.
Qed.

(** The label of a row without a score. *)
Lemma label_without_score row :
  row !! "price_diff_vs_error" = Some VNull →
  label_recommendation row = Ok "❔ Not enough data".
Proof. intros H. unfold label_recommendation, row_get. by rewrite H. Qed.

Definition labelled (row : gmap string value) : Prop :=
  ∃ s, label_recommendation row = Ok s ∧ cell "Recommendation" row = VStr s.

(** Every row of a frame that evaluation returns is scored, ranked and
    labelled; the frame of the handler and of the warning has no row. *)
Lemma evaluate_rows (L : Pandas) (S : Sys) base_url pages_num w r w' :
  evaluate_multiple_listings L S base_url pages_num w = (Ok r, w') →
  ∃ d, heap w' !! r = Some d ∧
    Forall (λ row, labelled row ∧ ranked (has_column "std_error_pct" d) row) (rows d).
Proof.
  unfold evaluate_multiple_listings. intros H.
  apply try_except_Ok in H as [H|(e & w1 & _ & H)];
    [|exists empty_frame; split; [by eapply emit_alloc_Ok|constructor]].
  apply bind_Ok in H as (df0 & w0 & _ & H).
  apply bind_Ok in H as (df1 & w1 & _ & H).
  apply bind_Ok in H as (df2 & w2 & _ & H).
  apply bind_Ok in H as (df3 & w3 & Hadd & H).
  apply add_price_diff_features_Ok in Hadd as (d3 & Hd3 & Hsc).
  apply bind_Ok in H as (d & w4 & Hd & H). apply deref_Ok in Hd as [Hd ->].
  rewrite Hd3 in Hd. apply (inj Some) in Hd. subst d.
  destruct (empty d3);
    [exists empty_frame; split; [by eapply emit_alloc_Ok|constructor]|].
  apply bind_Ok in H as (? & w4 & Ha4 & H).
  apply df_assign_Ok in Ha4 as (d & vs4 & d4 & Hd & Hvs4 & Hs4 & Hd4).
  rewrite Hd3 in Hd. apply (inj Some) in Hd. subst d.
  apply bind_Ok in H as (? & w5 & Ha5 & H).
  apply df_assign_Ok in Ha5 as (d & vs5 & d5 & Hd & Hvs5 & Hs5 & Hd5).
  rewrite Hd4 in Hd. apply (inj Some) in Hd. subst d.
  apply ret_Ok in H as [-> ->].
  exists d5. split; [done|]. apply Forall_forall. intros row5 Hin.
  destruct (setcol_rows _ _ _ _ _ Hs5 Hin) as (i & row4 & v5 & Hrow4 & Hv5 & ->).
  destruct (dt_series_lookup _ _ _ _ _ _ Hvs5 Hrow4) as (v & Hv & Ev).
  rewrite Hv5 in Hv. apply (inj Some) in Hv. subst v.
  destruct (setcol_rows _ _ _ _ _ Hs4 (list_elem_of_lookup_2 _ _ _ Hrow4))
    as (j & row3 & v4 & Hrow3 & Hv4 & ->).
  destruct (omapM_lookup _ _ _ _ _ Hvs4 Hrow3) as (v & Hv & El).
  rewrite Hv4 in Hv. apply (inj Some) in Hv. subst v.
  apply omap_ok_Ok in El as (s & Hs & ->).
  split.
  - exists s. rewrite !label_recommendation_insert by done.
    split; [done|]. by cell_simpl.
  - assert (Hn1 : "VFM Score" ≠ "std_error_pct") by done.
    assert (Hn2 : "Recommendation" ≠ "std_error_pct") by done.
    rewrite (setcol_has_column_ne _ _ _ _ _ Hn1 Hs5).
    rewrite (setcol_has_column_ne _ _ _ _ _ Hn2 Hs4).
    apply ranked_of_scored.
    + eapply Forall_lookup_1 in Hsc; [exact Hsc|done].
    + rewrite cell_insert, decide_False in Ev by done. exact Ev.
Qed.

(** X21: in the frame evaluation returns, the [Recommendation] of a row
    is the label of that row's own [price_diff_vs_error]; when the frame
    has no column [std_error_pct], every row reads "Not enough data"
    and has no score. *)
Theorem recommendation_column_is_the_label (L : Pandas) (S : Sys)
    (base_url : string) (pages_num : Z) (w : world) (r : nat) :
  (evaluate_multiple_listings L S base_url pages_num w).1 = Ok r →
  ∃ d, heap (evaluate_multiple_listings L S base_url pages_num w).2 !! r = Some d ∧
    ∀ row, row ∈ rows d →
      (∃ s, label_recommendation row = Ok s ∧ cell "Recommendation" row = VStr s) ∧
      (has_column "std_error_pct" d = false →
       cell "Recommendation" row = VStr "❔ Not enough data" ∧
       cell "VFM Score" row = VNull).
Proof.
  intros H.
  destruct (evaluate_multiple_listings L S base_url pages_num w) as [res w'] eqn:E.
  cbn [fst snd] in *. subst res.
  destruct (evaluate_rows _ _ _ _ _ _ _ E) as (d & Hd & Hrows).
  exists d. split; [done|]. intros row Hin.
  eapply Forall_forall in Hrows; [|exact Hin].
  destruct Hrows as (Hlab & (_ & _ & Hnull) & _ & Hscore).
  split; [exact Hlab|]. intros Hstd.
  specialize (Hnull Hstd). split; [|by apply Hscore].
  destruct Hlab as (s & Hs & ->). f_equal.
  assert (Hrow : row !! "price_diff_vs_error" = Some VNull).
  { unfold label_recommendation in Hs. apply obind_Ok in Hs as (v & Hv & _).
    unfold row_get in Hv. unfold cell in Hnull.
    destruct (row !! "price_diff_vs_error") as [v'|]; [|done].
    cbn in Hnull. by subst v'. }
  rewrite (label_without_score _ Hrow) in Hs. by apply CrawlLogFacts.Ok_inj in Hs.
Qed.

Lemma recommendation_column_is_the_label_witness :
  ∃ d, heap (evaluate_multiple_listings sample_pandas sample_sys sample_url 1
               CrawlFacts.world0).2 !! 11%nat = Some d ∧
    ∀ row, row ∈ rows d →
      (∃ s, label_recommendation row = Ok s ∧ cell "Recommendation" row = VStr s) ∧
      (has_column "std_error_pct" d = false →
       cell "Recommendation" row = VStr "❔ Not enough data" ∧
       cell "VFM Score" row = VNull).
Proof.
  apply (recommendation_column_is_the_label sample_pandas sample_sys sample_url 1
           CrawlFacts.world0 11).
  vm_compute. reflexivity.
Defined.

(** ** What scoring leaves alone *)

(** Row by row, [rows'] is [rows] but for the columns [cs]. *)
Definition same_but (cs : list string) (rows rows' : list (gmap string value))
  : Prop :=
  Forall2 (λ row row', ∀ c, c ∉ cs → row' !! c = row !! c) rows rows'.

Lemma setcol_same_but c vs d d' :
  setcol c vs d = Ok d' → same_but [c] (rows d) (rows d').
Proof.
  intros H. apply setcol_Ok in H as [Hlen ->]. unfold same_but.
  revert vs Hlen. induction (rows d) as [|row l IH]; intros vs Hlen.
  - destruct vs; constructor.
  - destruct vs as [|v vs]; [done|].
    cbn. constructor; [|apply IH; cbn in Hlen; lia].
    intros k Hk. apply lookup_insert_ne. intros ->. apply Hk, elem_of_cons. auto.
Qed.

Lemma same_but_trans cs1 cs2 cs l1 l2 l3 :
  cs1 ⊆ cs → cs2 ⊆ cs →
  same_but cs1 l1 l2 → same_but cs2 l2 l3 → same_but cs l1 l3.
Proof.
  intros H1 H2 H12. unfold same_but in *. revert l3.
  induction H12 as [|r1 r2 l1 l2 Hr _ IH]; intros l3 H23.
  - apply Forall2_nil_inv_l in H23 as ->. constructor.
  - apply Forall2_cons_inv_l in H23 as (r3 & l3' & Hr' & H23 & ->).
    constructor; [|by apply IH].
    intros c Hc. rewrite Hr', Hr; [done|..]; intros Hin; apply Hc; auto.
Qed.

(** X22: prediction gives each row its own prediction, by position, and
    changes nothing else: the model reads the copy of the frame, the
    number of predictions is the number of rows, and every other cell of
    every row is as it was. *)
Theorem predict_prices_adds_one_column (L : Pandas) (df : nat) (w : world) (r : nat) :
  (predict_prices L df w).1 = Ok r →
  ∃ d d' ps,
    heap w !! df = Some d ∧
    heap (predict_prices L df w).2 !! r = Some d' ∧
    model_predict L d = Ok ps ∧
    length ps = length (rows d) ∧
    rows d' = zip_with (λ row p, <["predicted_price" := VFloat p]> row) (rows d) ps.
Proof.
  intros H.
  destruct (predict_prices L df w) as [res w'] eqn:E.
  cbn [fst snd] in *. subst res. rename E into H.
  unfold predict_prices in H.
  apply bind_Ok in H as (df1 & w1 & Hc & H).
  apply df_copy_Ok in Hc as (d & Hd & Hd1).
  apply bind_Ok in H as (? & w2 & Ha & H).
  apply df_assign_Ok in Ha as (d0 & vs & d' & Hd0 & Hvs & Hs & Hd').
  rewrite Hd1 in Hd0. apply (inj Some) in Hd0. subst d0.
  apply ret_Ok in H as [-> ->].
  apply omap_ok_Ok in Hvs as (ps & Hps & ->).
  apply setcol_Ok in Hs as [Hlen Hrows]. rewrite length_map in Hlen.
  exists d, d', ps. split_and!; try done.
  rewrite Hrows. clear. revert ps.
  induction (rows d) as [|row l IH]; intros [|p ps]; try done. cbn. by f_equal.
Qed.

Lemma predict_prices_adds_one_column_witness :
  ∃ d d' ps,
    heap (mkworld ∅ [] [] [sample_listings]) !! 0%nat = Some d ∧
    heap (predict_prices sample_pandas 0 (mkworld ∅ [] [] [sample_listings])).2 !! 1%nat
      = Some d' ∧
    model_predict sample_pandas d = Ok ps ∧
    length ps = length (rows d) ∧
    rows d' = zip_with (λ row p, <["predicted_price" := VFloat p]> row) (rows d) ps.
Proof.
  apply (predict_prices_adds_one_column sample_pandas 0
           (mkworld ∅ [] [] [sample_listings]) 1).
  vm_compute. reflexivity.
Defined.

(** X23: scoring neither drops nor reorders a listing: the frame it
    returns has the rows of its argument, in their order, each changed
    in the two score columns only. *)
Theorem add_price_diff_features_keeps_the_rows (df : nat) (w : world) (r : nat) :
  (add_price_diff_features df w).1 = Ok r →
  ∃ d d',
    heap w !! df = Some d ∧
    heap (add_price_diff_features df w).2 !! r = Some d' ∧
    Forall2 (λ row row',
               ∀ c, c ∉ ["price_diff_pct"; "price_diff_vs_error"] →
                    row' !! c = row !! c)
            (rows d) (rows d').
Proof.
  intros H.
  destruct (add_price_diff_features df w) as [res w'] eqn:E.
  cbn [fst snd] in *. subst res. rename E into H.
  unfold add_price_diff_features in H.
  apply bind_Ok in H as (df1 & w1 & Hc & H).
  apply df_copy_Ok in Hc as (d & Hd & Hd1).
  apply bind_Ok in H as (? & w2 & Ha & H).
  apply df_assign_Ok in Ha as (d0 & vs1 & d1 & Hd0 & _ & Hs1 & Hd1').
  rewrite Hd1 in Hd0. apply (inj Some) in Hd0. subst d0.
  apply bind_Ok in H as (has & w3 & Hh & H).
  apply df_has_column_Ok in Hh as (d0 & _ & _ & ->).
  apply bind_Ok in H as (? & w4 & Ha & H). apply ret_Ok in H as [-> ->].
  assert (∃ vs2 d2, setcol "price_diff_vs_error" vs2 d1 = Ok d2 ∧
                    heap w4 !! df1 = Some d2) as (vs2 & d2 & Hs2 & Hd2).
  { destruct has; apply df_assign_Ok in Ha as (d0' & vs2 & d2 & Hd0' & _ & Hs2 & Hd2);
      rewrite Hd1' in Hd0'; apply (inj Some) in Hd0'; subst d0'; eauto. }
  exists d, d2. split; [done|]. split; [done|].
  eapply (same_but_trans ["price_diff_pct"] ["price_diff_vs_error"]);
    [| |by eapply setcol_same_but|by eapply setcol_same_but];
    intros c; rewrite !elem_of_cons; intuition.
Qed.

(** Two listings with their predictions, and no spread of the error. *)
Definition predicted_listings : DataFrame :=
  mkframe ["listing_id"; "price"; "predicted_price"]
    [ {[ "listing_id" := VStr "1"; "price" := VFloat (PyFloat.lit 115000);
         "predicted_price" := VFloat (PyFloat.lit 100000) ]};
      {[ "listing_id" := VStr "2"; "price" := VFloat (PyFloat.lit 85000);
         "predicted_price" := VFloat (PyFloat.lit 100000) ]} ].

Lemma add_price_diff_features_keeps_the_rows_witness :
  ∃ d d',
    heap (mkworld ∅ [] [] [predicted_listings]) !! 0%nat = Some d ∧
    heap (add_price_diff_features 0 (mkworld ∅ [] [] [predicted_listings])).2 !! 1%nat
      = Some d' ∧
    Forall2 (λ row row',
               ∀ c, c ∉ ["price_diff_pct"; "price_diff_vs_error"] →
                    row' !! c = row !! c)
            (rows d) (rows d').
Proof.
  apply (add_price_diff_features_keeps_the_rows 0 (mkworld ∅ [] [] [predicted_listings]) 1).
  vm_compute. reflexivity.
Defined.

End ScoringFacts.

(** * Duplicates *)

Module DedupFacts.
Import Py PyFrame Frame Pipeline.
Import FrameFacts RunFacts PipelineFacts EvaluateFacts CleaningFacts.

(** ** Removing duplicates *)

(** The key of the later row differs from the key of the earlier one. *)
Definition differs (c : string) (earlier later : gmap string value) : Prop :=
  key_eqb (cell c later) (cell c earlier) = false.

Lemma strongly_sorted_lookup {A} (R : A → A → Prop) l i j a b :
  StronglySorted R l → (i < j)%nat →
  l !! i = Some a → l !! j = Some b → R a b.
Proof.
  intros Hs. revert i j. induction Hs as [|x l Hs IH Hx]; intros i j Hij Hi Hj.
  - done.
  - destruct i as [|i], j as [|j]; try lia; simpl in *.
    + injection Hi as <-. eapply Forall_forall in Hx; [exact Hx|].
      by eapply list_elem_of_lookup_2.
    + eapply IH; [|done..]. lia.
Qed.

Lemma existsb_false {A} (f : A → bool) l :
  existsb f l = false ↔ Forall (λ x, f x = false) l.
Proof.
  induction l as [|x l IH]; cbn; [by split; [constructor|]|].
  rewrite orb_false_iff, IH, Forall_cons. done.
Qed.

Lemma dedup_rows_spec c l : ∀ seen,
  StronglySorted (differs c) (dedup_rows c seen l) ∧
  Forall (λ r, Forall (λ s, key_eqb (cell c r) s = false) seen)
         (dedup_rows c seen l) ∧
  (∀ r, r ∈ l →
     existsb (key_eqb (cell c r)) seen = true ∨
     ∃ k, k ∈ dedup_rows c seen l ∧ (k = r ∨ key_eqb (cell c r) (cell c k) = true)).
Proof.
  induction l as [|r l IH]; intros seen; cbn [dedup_rows].
  - split_and!; [constructor|constructor|]. intros r Hr. by apply elem_of_nil in Hr.
  - destruct (existsb (key_eqb (cell c r)) seen) eqn:E.
    + destruct (IH seen) as (Hs & Hseen & Hcov). split_and!; [done|done|].
      intros r' Hr'. apply elem_of_cons in Hr' as [->|Hr']; [by left|auto].
    + destruct (IH (cell c r :: seen)) as (Hs & Hseen & Hcov). split_and!.
      * apply StronglySorted_cons. split; [|done].
        eapply Forall_impl; [exact Hseen|]. intros k Hk.
        by apply Forall_cons in Hk as [? _].
      * constructor; [by apply existsb_false|].
        eapply Forall_impl; [exact Hseen|]. intros k Hk.
        by apply Forall_cons in Hk as [_ ?].
      * intros r' Hr'. apply elem_of_cons in Hr' as [->|Hr'].
        { right. exists r. split; [apply elem_of_cons; auto|auto]. }
        destruct (Hcov r' Hr') as [Hex|(k & Hk & Hor)].
        -- cbn [existsb] in Hex. apply orb_prop in Hex as [Hex|Hex]; [|by left].
           right. exists r. split; [apply elem_of_cons; auto|auto].
        -- right. exists k. split; [apply elem_of_cons; auto|done].
Qed.

Lemma dedup_rows_sublist c l : ∀ seen, dedup_rows c seen l `sublist_of` l.
Proof.
  induction l as [|r l IH]; intros seen; cbn [dedup_rows]; [done|].
  destruct (existsb _ seen); [apply sublist_cons, IH|apply sublist_skip, IH].
Qed.

Lemma dedup_rows_idemp c l : ∀ seen,
  dedup_rows c seen (dedup_rows c seen l) = dedup_rows c seen l.
Proof.
  induction l as [|r l IH]; intros seen; cbn [dedup_rows]; [done|].
  destruct (existsb (key_eqb (cell c r)) seen) eqn:E; [apply IH|].
  cbn [dedup_rows]. rewrite E. f_equal. apply IH.
Qed.

(** X24: removing duplicates keeps the first row of each key: the
    result is the frame with some rows left out, no two of its rows have
    the same key, every row left out has the key of a row kept, and
    removing duplicates again changes nothing. *)
Theorem drop_duplicates_keeps_first (c : string) (d d' : DataFrame) :
  drop_duplicates c d = Ok d' →
  columns d' = columns d ∧
  rows d' `sublist_of` rows d ∧
  (∀ i j ri rj,
     (i < j)%nat → rows d' !! i = Some ri → rows d' !! j = Some rj →
     key_eqb (cell c rj) (cell c ri) = false) ∧
  (∀ row, row ∈ rows d →
     ∃ kept, kept ∈ rows d' ∧
       (kept = row ∨ key_eqb (cell c row) (cell c kept) = true)) ∧
  drop_duplicates c d' = Ok d'.
Proof.
  unfold drop_duplicates. destruct (has_column c d) eqn:Hc; [|done]. intros H.
  apply CrawlLogFacts.Ok_inj in H. subst d'. cbn [columns rows].
  destruct (dedup_rows_spec c (rows d) []) as (Hs & _ & Hcov).
  split_and!.
  - done.
  - apply dedup_rows_sublist.
  - intros i j ri rj Hij Hi Hj.
    apply (strongly_sorted_lookup (differs c) _ _ _ _ _ Hs Hij Hi Hj).
  - intros row Hin. destruct (Hcov row Hin) as [?|?]; done.
  - unfold has_column in *. cbn [columns]. rewrite Hc. by rewrite dedup_rows_idemp.
Qed.

Lemma drop_duplicates_keeps_first_witness :
  let d' := mkframe (columns sample_listings)
              [listing "1" "115,000" 100000; listing "2" "85000" 100000] in
  columns d' = columns sample_listings ∧
  rows d' `sublist_of` rows sample_listings ∧
  (∀ i j ri rj,
     (i < j)%nat → rows d' !! i = Some ri → rows d' !! j = Some rj →
     key_eqb (cell "listing_id" rj) (cell "listing_id" ri) = false) ∧
  (∀ row, row ∈ rows sample_listings →
     ∃ kept, kept ∈ rows d' ∧
       (kept = row ∨ key_eqb (cell "listing_id" row) (cell "listing_id" kept) = true)) ∧
  drop_duplicates "listing_id" d' = Ok d'.
Proof.
  cbv zeta.
  apply (drop_duplicates_keeps_first "listing_id" sample_listings
           (mkframe (columns sample_listings)
              [listing "1" "115,000" 100000; listing "2" "85000" 100000])).
  vm_compute. reflexivity.
Defined.

(** ** Listing ids in the cleaned frame *)

(** A frame with the column [listing_id] in which no two rows have the
    same id. *)
Definition unique_ids (d : DataFrame) : Prop :=
  has_column "listing_id" d = true ∧
  StronglySorted (differs "listing_id") (rows d).

Lemma strongly_sorted_filter {A} (R : A → A → Prop) (f : A → bool) l :
  StronglySorted R l → StronglySorted R (List.filter f l).
Proof.
  induction 1 as [|x l Hs IH Hx]; cbn; [constructor|].
  destruct (f x); [|done]. constructor; [done|].
  apply Forall_forall. intros y Hy. apply list_elem_of_In, filter_In in Hy as [Hy _].
  eapply Forall_forall in Hx; [exact Hx|by apply list_elem_of_In].
Qed.

Lemma strongly_sorted_select {A} (R : A → A → Prop) (l : list A) :
  StronglySorted R l →
  ∀ mask : list bool, StronglySorted R (map fst (List.filter snd (zip l mask))).
Proof.
  induction 1 as [|x l Hs IH Hx]; intros [|b mask]; cbn; try constructor.
  destruct b; cbn; [|apply IH]. constructor; [apply IH|].
  apply Forall_forall. intros y Hy. apply list_elem_of_fmap in Hy as ([y' b'] & -> & Hy).
  apply list_elem_of_In, filter_In in Hy as [Hy _].
  apply list_elem_of_In, elem_of_zip_l in Hy.
  eapply Forall_forall in Hx; [exact Hx|done].
Qed.

Lemma strongly_sorted_same_cells c l l' :
  Forall2 (λ r r', cell c r' = cell c r) l l' →
  StronglySorted (differs c) l → StronglySorted (differs c) l'.
Proof.
  intros H2 Hs. revert l' H2. induction Hs as [|x l Hs IH Hx]; intros l' H2.
  - apply Forall2_nil_inv_l in H2 as ->. constructor.
  - apply Forall2_cons_inv_l in H2 as (x' & l2 & Hxx & H2 & ->).
    constructor; [by apply IH|].
    apply Forall_forall. intros y' Hy'.
    apply list_elem_of_lookup in Hy' as [i Hi].
    destruct (Forall2_lookup_r _ _ _ _ _ H2 Hi) as (y & Hy & Hyy).
    eapply Forall_lookup_1 in Hx; [|exact Hy].
    unfold differs in *. by rewrite Hxx, Hyy.
Qed.

Lemma setcol_unique c vs d d' :
  c ≠ "listing_id" → setcol c vs d = Ok d' → unique_ids d → unique_ids d'.
Proof.
  intros Hne Hs [Hc Hu]. split; [by eapply setcol_has_column|].
  eapply strongly_sorted_same_cells; [|exact Hu].
  eapply Forall2_impl; [eapply ScoringFacts.setcol_same_but, Hs|].
  intros r r' Hr. unfold cell. rewrite Hr; [done|].
  intros Hin. apply list_elem_of_singleton in Hin. done.
Qed.

Lemma dropna_unique c d d' : dropna c d = Ok d' → unique_ids d → unique_ids d'.
Proof.
  unfold dropna. destruct (has_column c d); [|done]. intros H [Hc Hu].
  apply CrawlLogFacts.Ok_inj in H. subst d'. split; [done|].
  by apply strongly_sorted_filter.
Qed.

Lemma select_unique mask d d' : select mask d = Ok d' → unique_ids d → unique_ids d'.
Proof.
  unfold select. case_bool_decide; [|done]. intros Hd' [Hc Hu].
  apply CrawlLogFacts.Ok_inj in Hd'. subst d'. split; [done|].
  by apply strongly_sorted_select.
Qed.

(** A left join with a table in which a key has at most one row gives
    one row for each row on the left, in the order of the left. *)
Lemma merge_left_one_to_one key left right m :
  merge_left key left right = Ok m →
  (∀ v, (length (List.filter (λ r, key_eqb v (cell key r)) (rows right)) ≤ 1)%nat) →
  Forall2 (λ l row', ∀ c, has_column c left = true → c ∉ columns right →
                      cell c row' = cell c l)
          (rows left) (rows m).
Proof.
  unfold merge_left. destruct (negb _); [done|].
  case_bool_decide as Hnd; [|done]. intros Hm Huniq.
  apply CrawlLogFacts.Ok_inj in Hm. subst m. cbn [rows].
  apply NoDup_app in Hnd as (Hnd & _ & _).
  set (fl := suffixed "_x" key (columns right)) in *.
  set (fr := suffixed "_y" key (columns left)) in *.
  set (rcols := List.filter _ (columns right)) in *.
  assert (Hu : ∀ l c (X : gmap string value),
            has_column c left = true → c ∉ columns right →
            cell c (rename_row fl (columns left) l ∪ X) = cell c l).
  { intros l c X Hc Hnr. apply bool_decide_eq_true in Hc.
    assert (Hl' : rename_row fl (columns left) l !! c = Some (cell c l)).
    { unfold rename_row. apply elem_of_list_to_map_1.
      - by rewrite <- list_fmap_compose.
      - apply list_elem_of_fmap. exists c. split; [|done]. f_equal.
        unfold fl, suffixed. rewrite bool_decide_eq_false_2; [done|].
        intros [_ ?]. done. }
    unfold cell at 1. by rewrite (lookup_union_Some_l _ _ _ _ Hl'). }
  induction (rows left) as [|l ls IH]; [constructor|].
  cbn [map concat].
  specialize (Huniq (cell key l)).
  destruct (List.filter (λ r, key_eqb (cell key l) (cell key r)) (rows right))
    as [|r0 [|r1 ms]]; cbn in Huniq; [| |lia].
  - cbn. constructor; [|exact IH]. intros c Hc Hnr. by apply Hu.
  - cbn. constructor; [|exact IH]. intros c Hc Hnr. by apply Hu.
Qed.

Lemma merge_left_has_column key left right m c :
  merge_left key left right = Ok m →
  has_column c left = true → c ∉ columns right → has_column c m = true.
Proof.
  unfold merge_left. destruct (negb _); [done|].
  case_bool_decide as Hnd; [|done]. intros Hm Hc Hnr.
  apply CrawlLogFacts.Ok_inj in Hm. subst m.
  apply bool_decide_eq_true in Hc. apply bool_decide_eq_true. cbn [columns].
  apply elem_of_app. left. apply list_elem_of_fmap. exists c. split; [|done].
  unfold suffixed. rewrite bool_decide_eq_false_2; [done|]. intros [_ ?]. done.
Qed.

(** The table of title aggregates has one row for a title and no column
    [listing_id]. *)
Definition one_row_per_title (L : Pandas) : Prop :=
  ∀ ref, read_title_ref L = Ok ref →
    ("listing_id" ∉ columns ref) ∧
    ∀ v, (length (List.filter (λ r, key_eqb v (cell "title" r)) (rows ref)) ≤ 1)%nat.

Lemma join_unique L df w r w' d :
  one_row_per_title L →
  heap w !! df = Some d → unique_ids d →
  join_title_aggregates L df w = (Ok r, w') →
  ∃ d', heap w' !! r = Some d' ∧ unique_ids d'.
Proof.
  intros Href Hd Hu. unfold join_title_aggregates.
  destruct (bind (lift (read_title_ref L)) _ w) as [[merged|e] w1] eqn:E.
  - apply bind_Ok in E as (ref & w0 & Hr & E). apply lift_Ok in Hr as [Hr ->].
    apply df_new_Ok in E as (d0 & m & Hd0 & Hm & Hm').
    rewrite Hd in Hd0. apply (inj Some) in Hd0. subst d0.
    destruct (Href ref Hr) as [Hnl Hone].
    assert (Hum : unique_ids m).
    { destruct Hu as [Hc Hs]. split; [by eapply merge_left_has_column|].
      eapply strongly_sorted_same_cells; [|exact Hs].
      eapply Forall2_impl; [by eapply merge_left_one_to_one|].
      intros l row' Hcell. by apply Hcell. }
    destruct (df_new (dropna "avg_price_by_title") merged w1) as [[df'|e] w2] eqn:E2.
    + intros H. apply (f_equal fst) in H as H1. apply (f_equal snd) in H as H2.
      cbn in H1, H2. apply CrawlLogFacts.Ok_inj in H1. subst df' w2.
      apply df_new_Ok in E2 as (m0 & d' & Hm0 & Hdrop & Hd').
      rewrite Hm' in Hm0. apply (inj Some) in Hm0. subst m0.
      exists d'. split; [done|]. by eapply dropna_unique.
    + apply df_new_Raise in E2 as ->. intros H.
      apply (f_equal fst) in H as H1. apply (f_equal snd) in H as H2.
      cbn in H1, H2. apply CrawlLogFacts.Ok_inj in H1. subst r w'.
      exists m. done.
  - intros H. apply (f_equal fst) in H as H1. apply (f_equal snd) in H as H2.
    cbn in H1, H2. apply CrawlLogFacts.Ok_inj in H1. subst r w'. cbn.
    exists d. split; [|done].
    unfold bind, lift in E. destruct (read_title_ref L) as [ref|].
    + apply df_new_Raise in E as ->. done.
    + injection E as _ <-. done.
Qed.

Lemma outlier_filter_unique df price_col ratio_thresh w r w' d :
  heap w !! df = Some d → unique_ids d →
  drop_price_outliers_by_title df price_col ratio_thresh w = (Ok r, w') →
  ∃ d', heap w' !! r = Some d' ∧ unique_ids d'.
Proof.
  intros Hd Hu. unfold drop_price_outliers_by_title. intros H.
  apply bind_Ok in H as (df1 & w1 & Hc & H). apply df_copy_Ok in Hc as (d0 & Hd0 & Hd1).
  rewrite Hd in Hd0. apply (inj Some) in Hd0. subst d0.
  apply bind_Ok in H as (b & w2 & Hb & H).
  apply df_has_column_Ok in Hb as (d0 & _ & -> & ->).
  destruct (has_column "avg_price_by_title" d0); [|done]. cbn [negb] in H.
  apply bind_Ok in H as (dd & w2 & Hdd & H). apply deref_Ok in Hdd as [_ ->].
  apply bind_Ok in H as (ratio & w2 & Hr & H). apply lift_Ok in Hr as [_ ->].
  apply bind_Ok in H as (lo & w2 & Hlo & H). apply lift_Ok in Hlo as [_ ->].
  apply bind_Ok in H as (mask & w2 & Hm & H). apply lift_Ok in Hm as [_ ->].
  apply bind_Ok in H as (df2 & w2 & Hs & H).
  apply df_new_Ok in Hs as (d1 & d2 & Hd1' & Hsel & Hd2).
  rewrite Hd1 in Hd1'. apply (inj Some) in Hd1'. subst d1.
  apply df_copy_Ok in H as (d3 & Hd3 & Hr').
  rewrite Hd2 in Hd3. apply (inj Some) in Hd3. subst d3.
  exists d2. split; [done|]. by eapply select_unique.
Qed.

Lemma df_assign_unique df c rhs w u w' d :
  c ≠ "listing_id" → heap w !! df = Some d → unique_ids d →
  df_assign df c rhs w = (Ok u, w') →
  ∃ d', heap w' !! df = Some d' ∧ unique_ids d'.
Proof.
  intros Hne Hd Hu H.
  apply df_assign_Ok in H as (d0 & vs & d' & Hd0 & _ & Hs & Hd').
  rewrite Hd in Hd0. apply (inj Some) in Hd0. subst d0.
  exists d'. split; [done|]. by eapply setcol_unique.
Qed.

Ltac unique_assign H Hd Hu :=
  let Ha := fresh "Ha" in
  apply bind_Ok in H as (? & ? & Ha & H);
  eapply df_assign_unique in Ha; [|done|exact Hd|exact Hu];
  clear Hd Hu; destruct Ha as (? & Hd & Hu).

(** X25: when the table of title aggregates has one row for a title, no
    listing id stands twice in the cleaned frame. *)
Theorem cleaned_listing_ids_are_distinct (L : Pandas) (df : nat) (w : world) (r : nat) :
  (∀ ref, read_title_ref L = Ok ref →
     ("listing_id" ∉ columns ref) ∧
     ∀ v, (length (List.filter (λ row, key_eqb v (cell "title" row)) (rows ref))
           ≤ 1)%nat) →
  (preprocess_car_data L df w).1 = Ok r →
  ∃ d', heap (preprocess_car_data L df w).2 !! r = Some d' ∧
    ∀ i j ri rj,
      (i < j)%nat → rows d' !! i = Some ri → rows d' !! j = Some rj →
      key_eqb (cell "listing_id" rj) (cell "listing_id" ri) = false.
Proof.
  intros Href H.
  destruct (preprocess_car_data L df w) as [res w'] eqn:E.
  cbn [fst snd] in *. subst res. rename E into H.
  unfold preprocess_car_data in H.
  apply bind_Ok in H as (df0 & w0 & _ & H).
  apply bind_Ok in H as (df1 & w1 & Ha & H).
  apply df_new_Ok in Ha as (d0 & d1 & _ & Hdd & Hd).
  assert (Hu : unique_ids d1).
  { unfold drop_duplicates in Hdd. destruct (has_column "listing_id" d0) eqn:Hc; [|done].
    apply CrawlLogFacts.Ok_inj in Hdd. subst d1. split; [done|].
    by destruct (dedup_rows_spec "listing_id" (rows d0) []) as [? _]. }
  apply bind_Ok in H as (df2 & w2 & Ha & H).
  apply df_new_Ok in Ha as (d1' & d2 & Hd1' & Hri & Hd2).
  rewrite Hd in Hd1'. apply (inj Some) in Hd1'. subst d1'.
  apply CrawlLogFacts.Ok_inj in Hri. subst d2. clear Hd. rename Hd2 into Hd.
  do 2 unique_assign H Hd Hu.
  apply bind_Ok in H as (df6 & w6 & Ha & H).
  apply df_new_Ok in Ha as (d5 & d6 & Hd5 & Hdrop & Hd6).
  rewrite Hd in Hd5. apply (inj Some) in Hd5. subst d5.
  apply (dropna_unique _ _ _ Hdrop) in Hu. clear Hd. rename Hd6 into Hd.
  do 12 unique_assign H Hd Hu.
  apply bind_Ok in H as (df8 & w8 & Hj & H).
  destruct (join_unique _ _ _ _ _ _ Href Hd Hu Hj) as (d8 & Hd8 & Hu8).
  apply bind_Ok in H as (df9 & w9 & Ho & H).
  destruct (outlier_filter_unique _ _ _ _ _ _ _ Hd8 Hu8 Ho) as (d9 & Hd9 & Hu9).
  do 2 unique_assign H Hd9 Hu9.
  apply ret_Ok in H as [-> ->].
  eexists. split; [exact Hd9|]. intros i j ri rj Hij Hri Hrj.
  destruct Hu9 as [_ Hs].
  apply (strongly_sorted_lookup (differs "listing_id") _ _ _ _ _ Hs Hij Hri Hrj).
Qed.

Lemma sample_one_row_per_title ref :
  read_title_ref sample_pandas = Ok ref →
  ("listing_id" ∉ columns ref) ∧
  ∀ v, (length (List.filter (λ row, key_eqb v (cell "title" row)) (rows ref))
        ≤ 1)%nat.
Proof.
  intros H. apply CrawlLogFacts.Ok_inj in H. subst ref. split.
  - by apply not_elem_of_list.
  - intros v. cbn [rows sample_aggregates List.filter].
    destruct (key_eqb v _); cbn [length]; lia.
Qed.

Lemma cleaned_listing_ids_are_distinct_witness :
  ∃ d', heap (preprocess_car_data sample_pandas 0 sample_world).2 !! 9%nat = Some d' ∧
    ∀ i j ri rj,
      (i < j)%nat → rows d' !! i = Some ri → rows d' !! j = Some rj →
      key_eqb (cell "listing_id" rj) (cell "listing_id" ri) = false.
Proof.
  apply (cleaned_listing_ids_are_distinct sample_pandas 0 sample_world 9).
  - exact sample_one_row_per_title.
  - vm_compute. reflexivity.
Defined.

End DedupFacts.

(** * Facts about the developer menu *)

Module MenuFacts.
Import Py PyIO PyFrame Frame Pipeline Evaluate Menu.
Import FloatFacts HeapFacts FrameFacts RunFacts PipelineFacts EvaluateFacts.
Import OrchestratorRunFacts EvaluateRunFacts CleaningFacts.

(** The world after some lines on standard output. *)
Definition printed (w : world) (lines : list string) : world :=
  mkworld (files w) (faults w) (journal w ++ map EvStdout lines) (heap w).

Lemma bind_emit {B} ev (k : unit → Py B) w :
  bind (emit ev) k w
  = k tt (mkworld (files w) (faults w) (journal w ++ [ev]) (heap w)).
Proof. reflexivity. Qed.

Lemma bind_lift {A B} (x : outcome A) (k : A → Py B) w :
  bind (lift x) k w = match x with Ok a => k a w | Raise e => (Raise e, w) end.
Proof. by destruct x. Qed.

Lemma printed_snoc w lines line :
  mkworld (files (printed w lines)) (faults (printed w lines))
          (journal (printed w lines) ++ [EvStdout line]) (heap (printed w lines))
  = printed w (lines ++ [line]).
Proof. unfold printed. cbn. by rewrite map_app, app_assoc. Qed.

Lemma printed_one w line :
  mkworld (files w) (faults w) (journal w ++ [EvStdout line]) (heap w)
  = printed w [line].
Proof. reflexivity. Qed.

(** ** Turns that show no listing *)

(** X26: a turn that shows no listing.  On [exit] or [quit], in any
    case of letters that [lower] maps to them, the loop ends; on a line
    that [int] refuses, and on a number that is not positive, a warning
    is printed and the loop goes on.  The turn prints the prompt and one
    more line, and touches no frame. *)
Theorem menu_turn_without_listing (C : Console) (df : nat) (line : string) (w : world) :
  let user_input := PyStr.strip line in
  (lower C user_input ∈ ["exit"; "quit"] →
   menu_turn C df line w = (Ok false, printed w [prompt; "👋 Exiting menu."])) ∧
  ((lower C user_input ∉ ["exit"; "quit"]) →
   (∀ msg, int_of_str C user_input = Raise (ValueError msg) →
      menu_turn C df line w
      = (Ok true,
         printed w [prompt; "⚠️ Invalid input. Please enter a number or 'exit'."])) ∧
   (∀ n, int_of_str C user_input = Ok n → n ≤ 0 →
      menu_turn C df line w
      = (Ok true, printed w [prompt; "⚠️ Please enter a positive number."]))).
Proof.
  cbv zeta.
  unfold menu_turn, try_except. rewrite bind_emit, printed_one. split.
  - intros He. rewrite bool_decide_eq_true_2 by done.
    rewrite bind_emit, printed_snoc. reflexivity.
  - intros He. rewrite bool_decide_eq_false_2 by done. split.
    + intros msg Hi. rewrite bind_lift, Hi.
      rewrite bind_emit, printed_snoc. reflexivity.
    + intros n Hi Hn. rewrite bind_lift, Hi.
      destruct (n <=? 0) eqn:E; [|lia].
      rewrite bind_emit, printed_snoc. reflexivity.
Qed.

(** ** The ascending sort *)

Section sort_asc.
Context {A : Type} (key : A → float).

(** [a] may stand before [b]: the key of [a] is at most that of [b]. *)
Definition upward (a b : A) : Prop := PrimFloat.leb (key a) (key b) = true.

Lemma insert_asc_perm x l : insert_asc key x l ≡ₚ x :: l.
Proof.
  induction l as [|y l IH]; simpl; [done|].
  destruct (PrimFloat.leb (key x) (key y)); [done|].
  rewrite IH. apply Permutation_swap.
Qed.

Lemma sort_asc_perm l : sort_asc key l ≡ₚ l.
Proof.
  induction l as [|x l IH]; simpl; [done|].
  unfold sort_asc in *. simpl. by rewrite insert_asc_perm, IH.
Qed.

Lemma upward_trans a b c : upward a b → upward b c → upward a c.
Proof. unfold upward. intros H1 H2. by eapply FloatFacts.leb_trans. Qed.

Lemma insert_asc_sorted x l :
  PrimFloat.is_nan (key x) = false →
  Forall (λ y, PrimFloat.is_nan (key y) = false) l →
  StronglySorted upward l → StronglySorted upward (insert_asc key x l).
Proof.
  intros Hx Hl Hs. induction Hs as [|y l Hs IH Hy]; simpl.
  - repeat constructor.
  - apply Forall_cons in Hl as [Hky Hl].
    destruct (PrimFloat.leb (key x) (key y)) eqn:E.
    + constructor; [by constructor|]. constructor; [done|].
      eapply Forall_impl; [exact Hy|]. intros z Hz. by eapply upward_trans.
    + constructor; [by apply IH|].
      rewrite insert_asc_perm. constructor; [|done].
      unfold upward. apply ltb_leb. by apply not_leb_ltb.
Qed.

Lemma sort_asc_sorted l :
  Forall (λ y, PrimFloat.is_nan (key y) = false) l →
  StronglySorted upward (sort_asc key l).
Proof.
  induction l as [|x l IH]; intros Hl; [constructor|].
  apply Forall_cons in Hl as [Hx Hl]. unfold sort_asc in *. simpl.
  apply insert_asc_sorted; auto.
  eapply Forall_forall. intros y Hy.
  eapply Forall_forall in Hl; [exact Hl|].
  by rewrite <- (sort_asc_perm l).
Qed.

End sort_asc.

(** After the ascending sort the frame has its rows in another order,
    and of two rows with numbers for keys the one that stands first has
    the smaller key, or the same. *)
Lemma sort_values_asc_Ok c d d' :
  sort_values_asc c d = Ok d' →
  has_column c d = true ∧
  columns d' = columns d ∧
  rows d' ≡ₚ rows d ∧
  ∀ i j ri rj ki kj,
    (i < j)%nat → rows d' !! i = Some ri → rows d' !! j = Some rj →
    num (cell c ri) = Ok (Some ki) → num (cell c rj) = Ok (Some kj) →
    PrimFloat.is_nan ki = false → PrimFloat.is_nan kj = false →
    PrimFloat.leb ki kj = true.
Proof.
  unfold sort_values_asc. destruct (has_column c d); [|done]. intros H.
  apply obind_Ok in H as (keyed & Hk & H). apply CrawlLogFacts.Ok_inj in H.
  subst d'. cbn [rows columns]. apply omapM_Ok in Hk.
  set (present := omap _ keyed). set (missing := omap _ keyed).
  assert (Hfst : map fst keyed = rows d).
  { clear -Hk. induction Hk as [|row p rows keyed Hp _ IH]; [done|]. cbn.
    f_equal; [|done]. apply omap_ok_Ok in Hp as (k & _ & ->). done. }
  assert (Hkeyed : ∀ p, p ∈ keyed → num (cell c p.1) = Ok p.2).
  { intros p Hp. apply list_elem_of_lookup in Hp as [i Hi].
    destruct (Forall2_lookup_r _ _ _ _ _ Hk Hi) as (row & Hrow & E).
    apply omap_ok_Ok in E as (k & E & ->). done. }
  assert (Hpres : ∀ p, p ∈ present →
            num (cell c p.1) = Ok (Some p.2) ∧ PrimFloat.is_nan p.2 = false).
  { intros p Hp. apply list_elem_of_omap in Hp as ([row k] & Hin & E).
    apply Hkeyed in Hin. cbn in *.
    destruct k as [k|]; [|done]. destruct (PrimFloat.is_nan k) eqn:En; [done|].
    injection E as <-. done. }
  assert (Hmiss : ∀ row, row ∈ missing →
            num (cell c row) = Ok None ∨
            ∃ k, num (cell c row) = Ok (Some k) ∧ PrimFloat.is_nan k = true).
  { intros row Hp. apply list_elem_of_omap in Hp as ([row' k] & Hin & E).
    apply Hkeyed in Hin. cbn in *.
    destruct k as [k|]; [destruct (PrimFloat.is_nan k) eqn:En; [|done]|];
      injection E as <-; eauto. }
  split; [done|]. split; [done|]. split.
  { rewrite <- Hfst, <- (present_missing_perm keyed).
    apply Permutation_app_tail, fmap_Permutation, sort_asc_perm. }
  set (sorted := sort_asc snd present).
  assert (Hsorted : ∀ p, p ∈ sorted → p ∈ present).
  { intros p. unfold sorted. by rewrite sort_asc_perm. }
  assert (Hat : ∀ i row k,
            (map fst sorted ++ missing) !! i = Some row →
            num (cell c row) = Ok (Some k) → PrimFloat.is_nan k = false →
            sorted !! i = Some (row, k)).
  { intros i row k Hi Hn Hnan.
    apply lookup_app_Some in Hi as [Hi|[_ Hi]].
    - rewrite list_lookup_fmap in Hi.
      destruct (sorted !! i) as [[row' k']|] eqn:Es; [|done].
      injection Hi as ->.
      assert (Hp : (row, k') ∈ sorted) by (by eapply list_elem_of_lookup_2).
      apply Hsorted, Hpres in Hp as (Hn' & _). simpl in Hn'.
      rewrite Hn in Hn'. by injection Hn' as ->.
    - apply list_elem_of_lookup_2, Hmiss in Hi as [Hi|(k' & Hi & Hk')];
        rewrite Hn in Hi; [done|]. injection Hi as ->. congruence. }
  intros i j ri rj ki kj Hij Hi Hj Hni Hnj Hki Hkj.
  pose proof (Hat _ _ _ Hi Hni Hki) as Hsi.
  pose proof (Hat _ _ _ Hj Hnj Hkj) as Hsj.
  assert (Hs : StronglySorted (upward snd) sorted).
  { apply sort_asc_sorted. apply Forall_forall. intros p Hp.
    by apply Hpres in Hp as (_ & ?). }
  apply (DedupFacts.strongly_sorted_lookup (upward snd) _ _ _ _ _ Hs Hij Hsi Hsj).
Qed.

(** ** A turn that shows listings *)

(** The world after some lines on standard output and some new frames. *)
Definition grown (w : world) (lines : list string) (frames : list DataFrame)
  : world :=
  mkworld (files w) (faults w) (journal w ++ map EvStdout lines)
          (heap w ++ frames).

Lemma grown_one w line :
  mkworld (files w) (faults w) (journal w ++ [EvStdout line]) (heap w)
  = grown w [line] [].
Proof. unfold grown. cbn. by rewrite app_nil_r. Qed.

Lemma bind_emit_grown {B} line (k : unit → Py B) w lines frames :
  bind (emit (EvStdout line)) k (grown w lines frames)
  = k tt (grown w (lines ++ [line]) frames).
Proof. unfold bind, emit, grown. cbn. by rewrite map_app, app_assoc. Qed.

Lemma bind_df_new_grown {B} f df (k : nat → Py B) w lines frames d d' :
  (heap w ++ frames) !! df = Some d → f d = Ok d' →
  bind (df_new f df) k (grown w lines frames)
  = k (length (heap w ++ frames)) (grown w lines (frames ++ [d'])).
Proof.
  intros Hd Hf. unfold bind at 1, df_new, bind, deref, lift, alloc, grown. cbn.
  rewrite Hd, Hf. cbn. by rewrite app_assoc.
Qed.

Lemma bind_deref_grown {B} df (k : DataFrame → Py B) w lines frames d :
  (heap w ++ frames) !! df = Some d →
  bind (deref df) k (grown w lines frames) = k d (grown w lines frames).
Proof. intros Hd. unfold bind, deref, grown. cbn. by rewrite Hd. Qed.

(** The lines of the listings shown, numbered from [i]. *)
Fixpoint listing_lines (C : Console) (i : Z)
    (shown : list (gmap string value * string)) : list string :=
  match shown with
  | [] => []
  | (row, text) :: rest =>
      title_line C i row :: cheaper_line text :: url_line C row
      :: listing_lines C (i + 1) rest
  end.

Lemma bind_assoc {A B D} (m : Py A) (f : A → Py B) (k : B → Py D) w :
  bind (bind m f) k w = bind m (λ a, bind (f a) k) w.
Proof. unfold bind. by destruct (m w) as [[a|e] w1]. Qed.

Lemma show_rows_run {B} C rows : ∀ texts i (k : unit → Py B) w lines frames,
  Forall2 (λ row text, minus_1f C (cell "price_diff_vs_error" row) = Ok text)
          rows texts →
  bind (show_rows C i rows) k (grown w lines frames)
  = k tt (grown w (lines ++ listing_lines C i (zip rows texts)) frames).
Proof.
  induction rows as [|row rows IH]; intros texts i k w lines frames H2.
  - apply Forall2_nil_inv_l in H2 as ->. cbn. by rewrite app_nil_r.
  - apply Forall2_cons_inv_l in H2 as (text & texts' & Ht & H2 & ->).
    cbn [show_rows zip zip_with listing_lines].
    rewrite bind_assoc, bind_emit_grown, bind_assoc, bind_lift, Ht.
    rewrite bind_assoc, bind_emit_grown, bind_assoc, bind_emit_grown.
    rewrite (IH texts' _ _ _ _ _ H2). f_equal. unfold grown. f_equal. f_equal.
    by rewrite <- !app_assoc.
Qed.

Lemma lookup_grown_last {A} (h frames : list A) x :
  (h ++ frames ++ [x]) !! length (h ++ frames) = Some x.
Proof. rewrite app_assoc. apply lookup_snoc_length. Qed.

Definition shown_columns : list string := ["title"; "price_diff_vs_error"; "url"].

Definition restrict (row : gmap string value) : gmap string value :=
  list_to_map (map (λ c, (c, cell c row)) shown_columns).

Lemma cell_restrict c row : c ∈ shown_columns → cell c (restrict row) = cell c row.
Proof.
  unfold shown_columns. rewrite !elem_of_cons, elem_of_nil.
  intros [->|[->|[->|[]]]]; reflexivity.
Qed.

Lemma listing_lines_restrict C shown : ∀ i texts,
  listing_lines C i (zip (map restrict shown) texts)
  = listing_lines C i (zip shown texts).
Proof.
  induction shown as [|row shown IH]; intros i [|text texts]; try done.
  cbn [map zip zip_with listing_lines]. rewrite IH.
  unfold title_line, url_line.
  by rewrite !cell_restrict by (unfold shown_columns; rewrite !elem_of_cons; auto).
Qed.

Lemma select_columns_shown d :
  has_column "title" d = true → has_column "price_diff_vs_error" d = true →
  has_column "url" d = true →
  select_columns shown_columns d = Ok (mkframe shown_columns (map restrict (rows d))).
Proof.
  intros H1 H2 H3. unfold select_columns, shown_columns. cbn [List.find].
  by rewrite H1, H2, H3.
Qed.

(** X27: a turn on a positive number [n] shows the first [n] rows of the
    frame sorted by [price_diff_vs_error], the smallest first, each with
    its number from 1, its title, the text of its score and its URL,
    between the heading and the closing line; the loop goes on.  The
    sorted frame has the rows of the frame, and of two rows with scores
    the one shown first has the smaller score, or the same.  No frame
    that existed before the turn is changed. *)
Theorem menu_turn_shows_the_best_first (C : Console) (df : nat) (line : string)
    (w : world) (n : Z) (d sorted : DataFrame) (texts : list string) :
  (lower C (PyStr.strip line) ∉ ["exit"; "quit"]) →
  int_of_str C (PyStr.strip line) = Ok n → 0 < n →
  heap w !! df = Some d →
  has_column "title" d = true → has_column "url" d = true →
  sort_values_asc "price_diff_vs_error" d = Ok sorted →
  Forall2 (λ row text, minus_1f C (cell "price_diff_vs_error" row) = Ok text)
          (take (Z.to_nat n) (rows sorted)) texts →
  (menu_turn C df line w).1 = Ok true ∧
  journal (menu_turn C df line w).2
  = journal w ++
    map EvStdout
      ([prompt; nl +:+ "🚗 Top " +:+ pretty n +:+ " VFM listings:" +:+ nl]
       ++ listing_lines C 1 (zip (take (Z.to_nat n) (rows sorted)) texts)
       ++ [nl +:+ "🔁 You can try another number or type 'exit' to finish." +:+ nl]) ∧
  (∀ i d0, heap w !! i = Some d0 → heap (menu_turn C df line w).2 !! i = Some d0) ∧
  rows sorted ≡ₚ rows d ∧
  (∀ i j ri rj ki kj,
     (i < j)%nat → rows sorted !! i = Some ri → rows sorted !! j = Some rj →
     cell "price_diff_vs_error" ri = VFloat ki →
     cell "price_diff_vs_error" rj = VFloat kj →
     PrimFloat.is_nan ki = false → PrimFloat.is_nan kj = false →
     PrimFloat.leb ki kj = true).
Proof.
  intros He Hi Hn Hd Htitle Hurl Hsort Htexts.
  destruct (sort_values_asc_Ok _ _ _ Hsort) as (Hscore & Hcols & Hperm & Hup).
  set (shown := take (Z.to_nat n) (rows sorted)) in *.
  set (top := mkframe (columns sorted) shown).
  set (view := mkframe shown_columns (map restrict shown)).
  assert (Hrun : menu_turn C df line w
            = (Ok true,
               grown w ([prompt; nl +:+ "🚗 Top " +:+ pretty n
                                 +:+ " VFM listings:" +:+ nl]
                        ++ listing_lines C 1 (zip shown texts)
                        ++ [nl +:+ "🔁 You can try another number or type 'exit' to finish."
                            +:+ nl])
                     [sorted; top; view])).
  { unfold menu_turn, try_except. rewrite bind_emit, grown_one.
    rewrite bool_decide_eq_false_2 by done. rewrite bind_lift, Hi.
    destruct (n <=? 0) eqn:E; [lia|].
    rewrite (bind_df_new_grown _ _ _ _ _ _ d sorted); [|by rewrite app_nil_r|done].
    rewrite (bind_df_new_grown _ _ _ _ _ _ sorted top); [|apply lookup_grown_last|];
      [|unfold head; destruct (0 <=? n) eqn:E0; [done|lia]].
    rewrite bind_emit_grown.
    rewrite (bind_df_new_grown _ _ _ _ _ _ top view); [|apply lookup_grown_last|];
      [|apply select_columns_shown; unfold has_column, top; cbn [columns];
        rewrite Hcols; assumption].
    rewrite (bind_deref_grown _ _ _ _ _ view) by apply lookup_grown_last.
    cbn [rows view].
    rewrite (show_rows_run C (map restrict shown) texts).
    2:{ clear -Htexts. induction Htexts as [|row text rows texts Hr _ IH]; cbn [map];
          constructor; [|done].
        by rewrite cell_restrict
          by (unfold shown_columns; rewrite !elem_of_cons; auto). }
    rewrite bind_emit_grown, listing_lines_restrict. cbn.
    unfold ret. f_equal. }
  rewrite Hrun. cbn [fst snd grown journal heap]. split_and!; try done.
  - intros i d0 Hi0. by apply lookup_app_l_Some.
  - intros i j ri rj ki kj Hij Hri Hrj Hki Hkj.
    apply (Hup i j ri rj ki kj Hij Hri Hrj); by apply num_float.
Qed.

(** A console for plain digits, and a frame of two scored listings. *)
Definition sample_console : Console :=
  mkconsole (λ s, s)
            (λ s, match digits_value s 0 with
                  | Some n => if decide (s = "") then Raise (ValueError "invalid literal")
                              else Ok n
                  | None => Raise (ValueError "invalid literal")
                  end)
            (str_of sample_pandas)
            (λ v, match v with
                  | VFloat x => Ok (if PrimFloat.ltb x PrimFloat.zero then "1.5" else "-1.5")
                  | _ => Raise TypeError
                  end).

Definition scored_row (title url : string) (score : float) : gmap string value :=
  {[ "title" := VStr title; "url" := VStr url;
     "price_diff_vs_error" := VFloat score ]}.

Definition scored_listings : DataFrame :=
  mkframe ["title"; "url"; "price_diff_vs_error"]
    [ scored_row "Mazda 3" "https://www.yad2.co.il/item/a" (PyFloat.lit 3 / PyFloat.lit 2);
      scored_row "Kia Rio" "https://www.yad2.co.il/item/b" (PyFloat.lit (-3) / PyFloat.lit 2) ].

Definition scored_sorted : DataFrame :=
  mkframe ["title"; "url"; "price_diff_vs_error"]
    [ scored_row "Kia Rio" "https://www.yad2.co.il/item/b" (PyFloat.lit (-3) / PyFloat.lit 2);
      scored_row "Mazda 3" "https://www.yad2.co.il/item/a" (PyFloat.lit 3 / PyFloat.lit 2) ].

Definition scored_world : world := mkworld ∅ [] [] [scored_listings].

Lemma menu_turn_shows_the_best_first_witness :
  (menu_turn sample_console 0 " 1 " scored_world).1 = Ok true ∧
  journal (menu_turn sample_console 0 " 1 " scored_world).2
  = journal scored_world ++
    map EvStdout
      ([prompt; nl +:+ "🚗 Top " +:+ pretty 1 +:+ " VFM listings:" +:+ nl]
       ++ listing_lines sample_console 1
            (zip (take (Z.to_nat 1) (rows scored_sorted)) ["1.5"])
       ++ [nl +:+ "🔁 You can try another number or type 'exit' to finish." +:+ nl]) ∧
  (∀ i d0, heap scored_world !! i = Some d0 →
           heap (menu_turn sample_console 0 " 1 " scored_world).2 !! i = Some d0) ∧
  rows scored_sorted ≡ₚ rows scored_listings ∧
  (∀ i j ri rj ki kj,
     (i < j)%nat → rows scored_sorted !! i = Some ri → rows scored_sorted !! j = Some rj →
     cell "price_diff_vs_error" ri = VFloat ki →
     cell "price_diff_vs_error" rj = VFloat kj →
     PrimFloat.is_nan ki = false → PrimFloat.is_nan kj = false →
     PrimFloat.leb ki kj = true).
Proof.
  apply (menu_turn_shows_the_best_first sample_console 0 " 1 " scored_world 1
           scored_listings scored_sorted ["1.5"]).
  - apply not_elem_of_list. vm_compute. reflexivity.
  - vm_compute. reflexivity.
  - lia.
  - reflexivity.
  - vm_compute. reflexivity.
  - vm_compute. reflexivity.
  - vm_compute. reflexivity.
  - repeat constructor.
Defined.

(** ** Sessions *)

(** The warning a line is answered with, when it is neither a way out
    nor a positive number. *)
Definition rejected (C : Console) (line : string) : option string :=
  if bool_decide (lower C (PyStr.strip line) ∈ ["exit"; "quit"]) then None
  else match int_of_str C (PyStr.strip line) with
       | Raise (ValueError _) =>
           Some "⚠️ Invalid input. Please enter a number or 'exit'."
       | Ok n => if n <=? 0 then Some "⚠️ Please enter a positive number." else None
       | Raise _ => None
       end.

Lemma menu_turn_rejected C df line w warning :
  rejected C line = Some warning →
  menu_turn C df line w = (Ok true, printed w [prompt; warning]).
Proof.
  unfold rejected. case_bool_decide as He; [done|].
  unfold menu_turn, try_except. rewrite bind_emit, printed_one.
  rewrite bool_decide_eq_false_2 by done. rewrite bind_lift.
  destruct (int_of_str C (PyStr.strip line)) as [n|e].
  - destruct (n <=? 0); [|done]. intros [= <-].
    rewrite bind_emit, printed_snoc. reflexivity.
  - destruct e; try done. intros [= <-].
    rewrite bind_emit, printed_snoc. reflexivity.
Qed.

Lemma menu_turn_exit C df line w :
  lower C (PyStr.strip line) ∈ ["exit"; "quit"] →
  menu_turn C df line w = (Ok false, printed w [prompt; "👋 Exiting menu."]).
Proof.
  intros He. unfold menu_turn, try_except. rewrite bind_emit, printed_one.
  rewrite bool_decide_eq_true_2 by done.
  rewrite bind_emit, printed_snoc. reflexivity.
Qed.

Lemma printed_printed w l1 l2 : printed (printed w l1) l2 = printed w (l1 ++ l2).
Proof. unfold printed. cbn. by rewrite map_app, app_assoc. Qed.

(** X28: after any number of lines that are refused, each answered with
    the prompt and its warning, [exit] or [quit] ends the menu: the
    lines typed after it are not read, and no frame was sorted or
    made. *)
Theorem menu_session_until_exit (C : Console) (df : nat)
    (refused : list string) (warnings : list string) (line : string)
    (rest : list string) (w : world) :
  Forall2 (λ l warning, rejected C l = Some warning) refused warnings →
  lower C (PyStr.strip line) ∈ ["exit"; "quit"] →
  menu_loop C df (refused ++ line :: rest) w
  = (Ok (Exited rest),
     printed w (concat (map (λ warning, [prompt; warning]) warnings)
                ++ [prompt; "👋 Exiting menu."])).
Proof.
  intros Href Hexit. revert w.
  induction Href as [|l warning refused warnings Hl _ IH]; intros w.
  - cbn [app menu_loop map concat]. unfold bind.
    rewrite (menu_turn_exit _ _ _ _ Hexit). reflexivity.
  - cbn [app menu_loop map concat]. unfold bind.
    rewrite (menu_turn_rejected _ _ _ _ _ Hl). rewrite IH.
    rewrite printed_printed. reflexivity.
Qed.

Lemma menu_session_until_exit_witness :
  menu_loop sample_console 0 (["abc"; "0"] ++ " exit " :: ["5"]) scored_world
  = (Ok (Exited ["5"]),
     printed scored_world
       (concat (map (λ warning, [prompt; warning])
                    ["⚠️ Invalid input. Please enter a number or 'exit'.";
                     "⚠️ Please enter a positive number."])
        ++ [prompt; "👋 Exiting menu."])).
Proof.
  apply (menu_session_until_exit sample_console 0 ["abc"; "0"]
           ["⚠️ Invalid input. Please enter a number or 'exit'.";
            "⚠️ Please enter a positive number."] " exit " ["5"] scored_world).
  - constructor; [vm_compute; reflexivity|].
    constructor; [vm_compute; reflexivity|constructor].
  - refine (bool_decide_unpack _ _). vm_compute. exact I.
Defined.

(** ** What the menu never does *)

Lemma safe_show_rows n C rows : ∀ i, safe n (λ _, True) (show_rows C i rows).
Proof.
  induction rows as [|row rows IH]; intros i; cbn [show_rows].
  - by apply safe_ret.
  - eapply safe_bind; [apply safe_emit|]. intros _ _.
    eapply safe_bind; [by apply (safe_lift _ (λ _, True))|]. intros text _.
    eapply safe_bind; [apply safe_emit|]. intros _ _.
    eapply safe_bind; [apply safe_emit|]. intros _ _. apply IH.
Qed.

Lemma safe_menu_turn n C df line : safe n (λ _, True) (menu_turn C df line).
Proof.
  unfold menu_turn. apply safe_try_except.
  - eapply safe_bind; [apply safe_emit|]. intros _ _. cbv zeta.
    case_bool_decide.
    { eapply safe_bind; [apply safe_emit|]. intros _ _. by apply safe_ret. }
    eapply safe_bind; [by apply (safe_lift _ (λ _, True))|]. intros k _.
    destruct (k <=? 0).
    { eapply safe_bind; [apply safe_emit|]. intros _ _. by apply safe_ret. }
    eapply safe_bind; [apply safe_df_new|]. intros sorted _.
    eapply safe_bind; [apply safe_df_new|]. intros top _.
    eapply safe_bind; [apply safe_emit|]. intros _ _.
    eapply safe_bind; [apply safe_df_new|]. intros view _.
    eapply safe_bind; [apply safe_deref|]. intros d _.
    eapply safe_bind; [apply safe_show_rows|]. intros _ _.
    eapply safe_bind; [apply safe_emit|]. intros _ _. by apply safe_ret.
  - intros e. destruct e; try apply safe_raise.
    eapply safe_bind; [apply safe_emit|]. intros _ _. by apply safe_ret.
Qed.

Lemma safe_menu_loop n C df inputs : safe n (λ _, True) (menu_loop C df inputs).
Proof.
  induction inputs as [|line rest IH]; cbn [menu_loop].
  - eapply safe_bind; [apply safe_emit|]. intros _ _. by apply safe_ret.
  - eapply safe_bind; [apply safe_menu_turn|]. intros again _.
    destruct again; [apply IH|by apply safe_ret].
Qed.

Lemma menu_turn_Raise C df line w e w' :
  menu_turn C df line w = (Raise e, w') → ∀ msg, e ≠ ValueError msg.
Proof.
  unfold menu_turn. intros H.
  apply try_except_Raise in H as (e0 & w1 & _ & H).
  destruct e0; try done; injection H as <- _; done.
Qed.

Lemma menu_loop_Raise C df inputs : ∀ w e w',
  menu_loop C df inputs w = (Raise e, w') → ∀ msg, e ≠ ValueError msg.
Proof.
  induction inputs as [|line rest IH]; intros w e w'; cbn [menu_loop].
  - done.
  - unfold bind. destruct (menu_turn C df line w) as [[again|e0] w1] eqn:E.
    + destruct again; [apply IH|done].
    + intros [= <- <-]. by eapply menu_turn_Raise.
Qed.

(** X29: the menu answers every [ValueError] itself, whether [int]
    raised it or a later step of the turn, so that none leaves it; and
    it changes no frame that existed before the call, the frame it is
    given among them. *)
Theorem vfm_menu_keeps_the_frame (C : Console) (df : nat) (inputs : list string)
    (w : world) (d : DataFrame) :
  heap w !! df = Some d →
  (∀ msg, (vfm_menu C df inputs w).1 ≠ Raise (ValueError msg)) ∧
  (∀ i d0, heap w !! i = Some d0 → heap (vfm_menu C df inputs w).2 !! i = Some d0).
Proof.
  intros Hd. unfold vfm_menu, bind at 1, df_copy, bind, deref, alloc.
  rewrite Hd. cbn [heap]. rewrite lookup_snoc_length. cbv zeta.
  unfold emit. cbn [files faults journal heap].
  set (w1 := mkworld _ _ _ _).
  destruct (safe_menu_loop (length (heap w)) C (length (heap w)) inputs w1)
    as (r & w2 & E & Hlen & Hkeep & _).
  { unfold w1. cbn. rewrite length_app. lia. }
  rewrite E. cbn [fst snd]. split.
  - intros msg ->. by eapply menu_loop_Raise in E.
  - intros i d0 Hi. rewrite Hkeep by (by eapply lookup_lt_Some).
    unfold w1. cbn. by apply lookup_app_l_Some.
Qed.

Lemma vfm_menu_keeps_the_frame_witness :
  (∀ msg, (vfm_menu sample_console 0 ["abc"; "1"] scored_world).1
          ≠ Raise (ValueError msg)) ∧
  (∀ i d0, heap scored_world !! i = Some d0 →
           heap (vfm_menu sample_console 0 ["abc"; "1"] scored_world).2 !! i = Some d0).
Proof.
  apply (vfm_menu_keeps_the_frame sample_console 0 ["abc"; "1"] scored_world
           scored_listings).
  reflexivity.
Defined.

(** ** The command line *)

(** X30: when no listing of the result pages yields a record with a
    price, [main] ends with the crawl's [KeyError] for [listing_id]:
    nothing is cleaned or scored and the menu is never shown. *)
Theorem main_without_priced_listing (env : Crawl.Env) (L : Pandas) (C : Console)
    (base_url : string) (pages_num : Z) (inputs : list string) (w : world)
    (links : list string) :
  (Crawl.collect_links env base_url 1 (Z.to_nat pages_num) w).1 = Ok links →
  (∀ idx url, Crawl.set_to_list env links !! idx = Some url →
     match Crawl.visit env idx (Crawl.full_url_of url) with
     | Ok pg =>
         Crawl.truthy (Crawl.extract pg (Crawl.today env) (Crawl.full_url_of url)
                         !! "price") = false
     | Raise _ => True
     end) →
  (main env L C base_url pages_num inputs w).1 = Raise (KeyError "listing_id") ∧
  (main env L C base_url pages_num inputs w).2
  = (Crawl.scrape_yad2_from_filtered_url env base_url pages_num w).2.
Proof.
  intros Hl Hnone.
  pose proof (CrawlLogFacts.scrape_raises_without_record _ _ _ _ _ Hl Hnone) as E.
  destruct (Crawl.scrape_yad2_from_filtered_url env base_url pages_num w)
    as [[d|e] w1] eqn:Es; cbn [fst snd] in *; [done|]. injection E as ->.
  assert (Hm : main env L C base_url pages_num inputs w
               = (Raise (KeyError "listing_id"), w1)).
  { unfold main, bind at 1. by rewrite Es. }
  by rewrite Hm.
Qed.

Lemma main_without_priced_listing_witness :
  (main (CrawlFacts.site1 CrawlFacts.page_no_amount) sample_pandas sample_console
        "https://www.yad2.co.il/vehicles/cars?page=1" 1 ["1"] CrawlFacts.world0).1
  = Raise (KeyError "listing_id") ∧
  (main (CrawlFacts.site1 CrawlFacts.page_no_amount) sample_pandas sample_console
        "https://www.yad2.co.il/vehicles/cars?page=1" 1 ["1"] CrawlFacts.world0).2
  = (Crawl.scrape_yad2_from_filtered_url (CrawlFacts.site1 CrawlFacts.page_no_amount)
       "https://www.yad2.co.il/vehicles/cars?page=1" 1 CrawlFacts.world0).2.
Proof.
  apply (main_without_priced_listing (CrawlFacts.site1 CrawlFacts.page_no_amount)
           sample_pandas sample_console
           "https://www.yad2.co.il/vehicles/cars?page=1" 1 ["1"] CrawlFacts.world0
           ["item/a"]).
  - reflexivity.
  - intros [|idx] url; [|destruct idx; discriminate].
    intros [= <-]. vm_compute. reflexivity.
Defined.

End MenuFacts.
